(** * ChainOfProduct: the protection engine of [chainofproduct/]

    A shallow embedding of [chainofproduct/crypto.py],
    [chainofproduct/keymanager.py] and [chainofproduct/library.py]
    ([protect], [buyer_sign], [check], [unprotect]), and the properties
    of the protected document proved about it; with them the two
    endpoints of [app/main.py] that receive what [protect] and
    [buyer_sign] produce.

    Layout:
    - Part I    the Python object model (values, dicts, exceptions);
    - Part II   the external libraries ([json], UTF-8, [base64], [hashlib]
                modelled concretely; the [cryptography] package kept
                abstract behind the interface [Primitives]);
    - Part III  the repository's code;
    - Part IV   a reference instance of [Primitives] on which the code runs;
    - Part V    lemmas and theorems;
    - Part VI   further properties of the same code. *)

From Stdlib Require Import ZArith NArith List String Ascii Bool Lia DecimalString.
From Stdlib Require DecimalFacts DecimalZ DecimalPos.
From Stdlib Require Permutation OrderedTypeEx.
From Stdlib.Strings Require Import Byte.
Import ListNotations.

Set Implicit Arguments.
Set Warnings "-register-all".

(* ================================================================== *)
(** * Part I. Python object model *)
(* ================================================================== *)

(** [bytes] objects. *)
Definition bytes := list byte.

(** JSON-shaped Python values: what [json.load] builds and [json.dumps]
    accepts.  [str] is a sequence of code points; the model keeps code
    points U+0000..U+00FF (one [ascii] each).  Floats are not modelled.
    A [dict] keeps insertion order and has [str] keys. *)
Inductive value : Type :=
| VNone
| VBool (b : bool)
| VInt (n : Z)
| VStr (s : string)
| VList (l : list value)
| VDict (d : list (string * value)).

Definition pydict := list (string * value).

(** [d.get(k)] at the level of the association list. *)
Fixpoint dict_lookup (d : pydict) (k : string) : option value :=
  match d with
  | [] => None
  | (k', v) :: d' => if String.eqb k' k then Some v else dict_lookup d' k
  end.

(** [d[k] = v]: an existing key keeps its position, a new key goes last. *)
Fixpoint dict_set (d : pydict) (k : string) (v : value) : pydict :=
  match d with
  | [] => [(k, v)]
  | (k', v') :: d' =>
      if String.eqb k' k then (k, v) :: d' else (k', v') :: dict_set d' k v
  end.

Definition dict_mem (d : pydict) (k : string) : bool :=
  match dict_lookup d k with Some _ => true | None => false end.

Definition dict_keys (d : pydict) : list string := map fst d.

(** The messages of [library.ProtectionError], one constructor per
    f-string of the source. *)
Inductive protection_error : Type :=
| MissingRequiredField (field : string)
    (* "Missing required field: {field}" *)
| SellerNameMismatch (seller_name : string) (found : value)
    (* "Seller name mismatch: {seller_name} vs {transaction_data['seller']}" *)
| BuyerNameMismatch (buyer_name : string) (found : value)
    (* "Buyer name mismatch: {buyer_name} vs {transaction_data['buyer']}" *)
| GroupDecryptionNotImplemented (group_id : string)
    (* "Group-based decryption not fully implemented. ... Found membership
       in group {group_id} but cannot decrypt." *)
| NoAccessGranted (company_name : string).
    (* "No access granted for {company_name}" *)

(** The exceptions the modelled code can raise; every one of them is a
    subclass of Python's [Exception]. *)
Inductive exn : Type :=
| KeyError (key : value)
| TypeError
| AttributeError
| ValueError               (* also binascii.Error, a subclass *)
| UnicodeDecodeError
| JSONDecodeError
| FileNotFoundError (company_name : string)
| ConnectionError          (* requests.exceptions.RequestException *)
| CryptoError              (* crypto.CryptoError("Decryption failed: ...") *)
| ProtectionError (m : protection_error).

Definition is_KeyError (e : exn) : bool :=
  match e with KeyError _ => true | _ => false end.

(** The result of running a piece of Python: a value or an exception. *)
Inductive outcome (A : Type) : Type :=
| Returns (a : A)
| Raises (e : exn).
Arguments Returns {A} a.
Arguments Raises {A} e.

Definition obind {A B : Type} (c : outcome A) (k : A -> outcome B) : outcome B :=
  match c with
  | Returns a => k a
  | Raises e => Raises e
  end.

(** Code that also mutates a store [S]: what was written before an
    exception stays written. *)
Definition st (S A : Type) : Type := S -> outcome A * S.

Definition sret {S A : Type} (a : A) : st S A := fun s => (Returns a, s).

Definition sraise {S A : Type} (e : exn) : st S A := fun s => (Raises e, s).

Definition sbind {S A B : Type} (c : st S A) (k : A -> st S B) : st S B :=
  fun s =>
    match c s with
    | (Returns a, s') => k a s'
    | (Raises e, s') => (Raises e, s')
    end.

Definition lift {S A : Type} (c : outcome A) : st S A := fun s => (c, s).

(** [try: body except <class>: handler], the class given by [catches]. *)
Definition try_except {S A : Type} (body : st S A) (catches : exn -> bool)
    (handler : exn -> st S A) : st S A :=
  fun s =>
    match body s with
    | (Returns a, s') => (Returns a, s')
    | (Raises e, s') => if catches e then handler e s' else (Raises e, s')
    end.

(** [for x in l: body x]. *)
Fixpoint for_each {S A : Type} (l : list A) (body : A -> st S unit) : st S unit :=
  match l with
  | [] => sret tt
  | x :: l' => sbind (body x) (fun _ => for_each l' body)
  end.

(** [for x in l: acc = body acc x], for a loop that updates a local. *)
Fixpoint for_each_acc {S A B : Type} (l : list A) (acc : B) (body : B -> A -> st S B)
    : st S B :=
  match l with
  | [] => sret acc
  | x :: l' => sbind (body acc x) (fun acc' => for_each_acc l' acc' body)
  end.

Declare Scope out_scope.
Delimit Scope out_scope with out.
Declare Scope st_scope.
Delimit Scope st_scope with st.

Notation "x <- c ;; k" := (obind c (fun x => k))
  (at level 61, c at next level, right associativity) : out_scope.
Notation "x <- c ;; k" := (sbind c (fun x => k))
  (at level 61, c at next level, right associativity) : st_scope.
Notation "c ;;; k" := (sbind c (fun _ => k))
  (at level 61, right associativity) : st_scope.

(** ** Built-in operations on values *)

(** Truth value of an object ([if x:]). *)
Definition truthy (v : value) : bool :=
  match v with
  | VNone => false
  | VBool b => b
  | VInt n => negb (Z.eqb n 0)
  | VStr s => negb (String.eqb s EmptyString)
  | VList l => match l with [] => false | _ => true end
  | VDict d => match d with [] => false | _ => true end
  end.

(** [v == s] for a [str] [s]. *)
Definition eq_str (v : value) (s : string) : bool :=
  match v with
  | VStr s' => String.eqb s' s
  | _ => false
  end.

(** [v[k]] with a [str] subscript. *)
Definition py_getitem (v : value) (k : string) : outcome value :=
  match v with
  | VDict d =>
      match dict_lookup d k with
      | Some x => Returns x
      | None => Raises (KeyError (VStr k))
      end
  | _ => Raises TypeError
  end.

(** [v.get(k, default)]. *)
Definition py_get (v : value) (k : string) (default : value) : outcome value :=
  match v with
  | VDict d =>
      match dict_lookup d k with
      | Some x => Returns x
      | None => Returns default
      end
  | _ => Raises AttributeError
  end.

(** [k in s] for two strings: [k] occurs in [s]. *)
Fixpoint occurs_in (k s : string) : bool :=
  String.prefix k s ||
  match s with
  | EmptyString => false
  | String _ s' => occurs_in k s'
  end.

(** [k in v] with a [str] [k]. *)
Definition py_contains (v : value) (k : string) : outcome bool :=
  match v with
  | VDict d => Returns (dict_mem d k)
  | VList l => Returns (existsb (fun x => eq_str x k) l)
  | VStr s => Returns (occurs_in k s)
  | _ => Raises TypeError
  end.

(** [len(v)]. *)
Definition py_len (v : value) : outcome Z :=
  match v with
  | VDict d => Returns (Z.of_nat (List.length d))
  | VList l => Returns (Z.of_nat (List.length l))
  | VStr s => Returns (Z.of_nat (String.length s))
  | _ => Raises TypeError
  end.

(** [v.items()]. *)
Definition py_items (v : value) : outcome (list (string * value)) :=
  match v with
  | VDict d => Returns d
  | _ => Raises AttributeError
  end.

(* ================================================================== *)
(** * Part II. External libraries *)
(* ================================================================== *)

(** ** Characters and text *)

Definition chars := list ascii.

Definition lit (s : string) : chars := list_ascii_of_string s.

Definition dquote : ascii := "034"%char.
Definition squote : ascii := "039"%char.
Definition backslash : ascii := "092"%char.

(** One lower-case hexadecimal digit. *)
Definition hex_digit (n : N) : ascii :=
  if (n <? 10)%N then ascii_of_N (48 + n) else ascii_of_N (87 + n).

(** Decimal text of an [int]: ["0"], ["123"], ["-5"]. *)
Definition decimal (n : Z) : chars :=
  lit (NilZero.string_of_int (Z.to_int n)).

Fixpoint join (sep : chars) (parts : list chars) : chars :=
  match parts with
  | [] => []
  | [p] => p
  | p :: rest => p ++ sep ++ join sep rest
  end.

(** ** UTF-8 ([str.encode('utf-8')], [bytes.decode('utf-8')]) *)

Definition utf8_encode_char (c : ascii) : bytes :=
  let n := N_of_ascii c in
  if (n <? 128)%N then [byte_of_ascii c]
  else [byte_of_ascii (ascii_of_N (192 + n / 64));
        byte_of_ascii (ascii_of_N (128 + n mod 64))].

Fixpoint utf8_encode (s : string) : bytes :=
  match s with
  | EmptyString => []
  | String c s' => utf8_encode_char c ++ utf8_encode s'
  end.

(** Decoding stays inside the modelled code points: a sequence that is
    not valid UTF-8, or that encodes a code point above U+00FF, yields
    [None] ([UnicodeDecodeError] in the callers). *)
Fixpoint utf8_decode (b : bytes) : option string :=
  match b with
  | [] => Some EmptyString
  | x :: rest =>
      let n := Byte.to_N x in
      if (n <? 128)%N then
        option_map (String (ascii_of_byte x)) (utf8_decode rest)
      else if ((n =? 194) || (n =? 195))%N then
        match rest with
        | y :: rest' =>
            let m := Byte.to_N y in
            if ((128 <=? m) && (m <? 192))%N then
              option_map (String (ascii_of_N ((n - 192) * 64 + (m - 128))))
                         (utf8_decode rest')
            else None
        | [] => None
        end
      else None
  end.

(** ** [json.dumps(obj, sort_keys=True)]

    The defaults of [json.dumps] apply: [ensure_ascii=True] (every
    character outside [' '..'~'] is escaped), item separator [", "] and
    key separator [": "]. *)

Definition json_escape_char (c : ascii) : chars :=
  let n := N_of_ascii c in
  if (n =? 34)%N then [backslash; dquote]
  else if (n =? 92)%N then [backslash; backslash]
  else if (n =? 10)%N then [backslash; "n"%char]
  else if (n =? 13)%N then [backslash; "r"%char]
  else if (n =? 9)%N then [backslash; "t"%char]
  else if (n =? 8)%N then [backslash; "b"%char]
  else if (n =? 12)%N then [backslash; "f"%char]
  else if ((32 <=? n) && (n <=? 126))%N then [c]
  else [backslash; "u"%char; "0"%char; "0"%char;
        hex_digit (n / 16); hex_digit (n mod 16)].

Definition json_string (s : string) : chars :=
  dquote :: flat_map json_escape_char (lit s) ++ [dquote].

(** Stable insertion sort of dictionary items by key (code-point order),
    as [sorted(dct.items())] orders them. *)
Fixpoint insert_item {A : Type} (k : string) (x : A) (l : list (string * A))
    : list (string * A) :=
  match l with
  | [] => [(k, x)]
  | (k', y) :: l' =>
      match String.compare k k' with
      | Gt => (k', y) :: insert_item k x l'
      | _ => (k, x) :: (k', y) :: l'
      end
  end.

Fixpoint sort_items {A : Type} (l : list (string * A)) : list (string * A) :=
  match l with
  | [] => []
  | (k, x) :: l' => insert_item k x (sort_items l')
  end.

(** The separators [json.dumps] uses when none are given (and no
    [indent]). *)
Definition item_separator : chars := lit ", ".
Definition key_separator : chars := lit ": ".

Definition json_member (key_sep : chars) (kx : string * chars) : chars :=
  json_string (fst kx) ++ key_sep ++ snd kx.

(** [json.dumps(v, sort_keys=True, separators=(item_sep, key_sep))] *)
Fixpoint dumps_with (item_sep key_sep : chars) (v : value) : chars :=
  match v with
  | VNone => lit "null"
  | VBool true => lit "true"
  | VBool false => lit "false"
  | VInt n => decimal n
  | VStr s => json_string s
  | VList l => lit "[" ++ join item_sep (map (dumps_with item_sep key_sep) l) ++ lit "]"
  | VDict d =>
      lit "{" ++
      join item_sep
        (map (json_member key_sep)
           (sort_items
              (map (fun kx => match kx with
                              | (k, x) => (k, dumps_with item_sep key_sep x)
                              end) d))) ++
      lit "}"
  end.

Definition dumps (v : value) : chars := dumps_with item_separator key_separator v.

Definition json_dumps_sorted (v : value) : string :=
  string_of_list_ascii (dumps v).

(** ** [str(obj)] and [repr(obj)] *)

Definition repr_printable (n : N) : bool :=
  (((32 <=? n) && (n <=? 126)) ||
   ((161 <=? n) && negb (n =? 173)))%N.

Definition repr_char (q : ascii) (c : ascii) : chars :=
  let n := N_of_ascii c in
  if (n =? 92)%N then [backslash; backslash]
  else if Ascii.eqb c q then [backslash; q]
  else if (n =? 9)%N then [backslash; "t"%char]
  else if (n =? 10)%N then [backslash; "n"%char]
  else if (n =? 13)%N then [backslash; "r"%char]
  else if repr_printable n then [c]
  else [backslash; "x"%char; hex_digit (n / 16); hex_digit (n mod 16)].

Definition repr_str (s : string) : chars :=
  let cs := lit s in
  let q := if existsb (Ascii.eqb squote) cs && negb (existsb (Ascii.eqb dquote) cs)
           then dquote else squote in
  q :: flat_map (repr_char q) cs ++ [q].

Fixpoint py_repr (v : value) : chars :=
  match v with
  | VNone => lit "None"
  | VBool true => lit "True"
  | VBool false => lit "False"
  | VInt n => decimal n
  | VStr s => repr_str s
  | VList l => lit "[" ++ join item_separator (map py_repr l) ++ lit "]"
  | VDict d =>
      lit "{" ++
      join item_separator
        (map (fun kx => match kx with
                        | (k, x) => repr_str k ++ key_separator ++ py_repr x
                        end) d) ++
      lit "}"
  end.

Definition py_str (v : value) : string :=
  match v with
  | VStr s => s
  | _ => string_of_list_ascii (py_repr v)
  end.


(** ** [json.loads]

    The scanner of the [json] module on the modelled values: a number
    with a fraction or an exponent, [NaN] and [Infinity] would be floats,
    and a [\uXXXX] escape above U+00FF is outside the modelled code
    points; all of these are reported as a parse failure here. *)

Definition is_ws (c : ascii) : bool :=
  let n := N_of_ascii c in
  ((n =? 32) || (n =? 9) || (n =? 10) || (n =? 13))%N.

Fixpoint skip_ws (s : chars) : chars :=
  match s with
  | c :: r => if is_ws c then skip_ws r else s
  | [] => []
  end.

Definition is_digit (c : ascii) : bool :=
  let n := N_of_ascii c in ((48 <=? n) && (n <=? 57))%N.

Definition hex_value (c : ascii) : option N :=
  let n := N_of_ascii c in
  if ((48 <=? n) && (n <=? 57))%N then Some (n - 48)%N
  else if ((97 <=? n) && (n <=? 102))%N then Some (n - 87)%N
  else if ((65 <=? n) && (n <=? 70))%N then Some (n - 55)%N
  else None.

Definition hex4 (a b c d : ascii) : option N :=
  match hex_value a, hex_value b, hex_value c, hex_value d with
  | Some x, Some y, Some z, Some w => Some (((x * 16 + y) * 16 + z) * 16 + w)%N
  | _, _, _, _ => None
  end.

Definition unescape (e : ascii) : option ascii :=
  let n := N_of_ascii e in
  if (n =? 34)%N then Some dquote
  else if (n =? 92)%N then Some backslash
  else if (n =? 47)%N then Some "/"%char
  else if (n =? 98)%N then Some "008"%char
  else if (n =? 102)%N then Some "012"%char
  else if (n =? 110)%N then Some "010"%char
  else if (n =? 114)%N then Some "013"%char
  else if (n =? 116)%N then Some "009"%char
  else None.

Definition cons_char (c : ascii) (r : option (string * chars)) : option (string * chars) :=
  match r with
  | Some (s, rest) => Some (String c s, rest)
  | None => None
  end.

(** The text after an opening quote, up to and including the closing one. *)
Fixpoint scan_string (s : chars) : option (string * chars) :=
  match s with
  | [] => None
  | c :: rest =>
      if Ascii.eqb c dquote then Some (EmptyString, rest)
      else if Ascii.eqb c backslash then
        match rest with
        | [] => None
        | e :: rest1 =>
            if Ascii.eqb e "u"%char then
              match rest1 with
              | h1 :: h2 :: h3 :: h4 :: rest2 =>
                  match hex4 h1 h2 h3 h4 with
                  | Some n =>
                      if (n <? 256)%N then cons_char (ascii_of_N n) (scan_string rest2)
                      else None
                  | None => None
                  end
              | _ => None
              end
            else
              match unescape e with
              | Some c' => cons_char c' (scan_string rest1)
              | None => None
              end
        end
      else if (N_of_ascii c <? 32)%N then None
      else cons_char c (scan_string rest)
  end.

Fixpoint span_digits (s : chars) : chars * chars :=
  match s with
  | c :: r =>
      if is_digit c then let (ds, rest) := span_digits r in (c :: ds, rest)
      else ([], s)
  | [] => ([], [])
  end.

(** What follows the integer part would make the number a float. *)
Definition float_tail (s : chars) : bool :=
  match s with
  | c :: d :: r =>
      if Ascii.eqb c "."%char then is_digit d
      else if Ascii.eqb c "e"%char || Ascii.eqb c "E"%char then
        is_digit d ||
        ((Ascii.eqb d "+"%char || Ascii.eqb d "-"%char) &&
         match r with x :: _ => is_digit x | [] => false end)
      else false
  | _ => false
  end.

Definition int_of_digits (neg : bool) (ds : chars) : option Z :=
  match NilZero.int_of_string (string_of_list_ascii (if neg then "-"%char :: ds else ds)) with
  | Some i => Some (Z.of_int i)
  | None => None
  end.

Definition scan_number (s : chars) : option (Z * chars) :=
  let (neg, s1) :=
    match s with
    | c :: r => if Ascii.eqb c "-"%char then (true, r) else (false, s)
    | [] => (false, s)
    end in
  match s1 with
  | c :: r =>
      if Ascii.eqb c "0"%char then
        if float_tail r then None else Some (0%Z, r)
      else if is_digit c then
        let (ds, rest) := span_digits s1 in
        if float_tail rest then None
        else match int_of_digits neg ds with
             | Some n => Some (n, rest)
             | None => None
             end
      else None
  | [] => None
  end.

Fixpoint strip_prefix (p s : chars) : option chars :=
  match p, s with
  | [], _ => Some s
  | a :: p', b :: s' => if Ascii.eqb a b then strip_prefix p' s' else None
  | _ :: _, [] => None
  end.

(** [dict(pairs)]: a repeated key keeps its first position and its last
    value. *)
Definition dict_of_pairs (pairs : list (string * value)) : pydict :=
  fold_left (fun d kx => dict_set d (fst kx) (snd kx)) pairs [].

Fixpoint scan_value (fuel : nat) (s : chars) {struct fuel} : option (value * chars) :=
  match fuel with
  | O => None
  | S f =>
      match s with
      | [] => None
      | c :: r =>
          if Ascii.eqb c dquote then
            match scan_string r with
            | Some (x, rest) => Some (VStr x, rest)
            | None => None
            end
          else if Ascii.eqb c "{"%char then
            match skip_ws r with
            | c1 :: r1 =>
                if Ascii.eqb c1 "}"%char then Some (VDict [], r1)
                else match scan_members f (c1 :: r1) with
                     | Some (pairs, rest) => Some (VDict (dict_of_pairs pairs), rest)
                     | None => None
                     end
            | [] => None
            end
          else if Ascii.eqb c "["%char then
            match skip_ws r with
            | c1 :: r1 =>
                if Ascii.eqb c1 "]"%char then Some (VList [], r1)
                else match scan_elements f (c1 :: r1) with
                     | Some (vs, rest) => Some (VList vs, rest)
                     | None => None
                     end
            | [] => None
            end
          else
            match strip_prefix (lit "null") s with
            | Some rest => Some (VNone, rest)
            | None =>
                match strip_prefix (lit "true") s with
                | Some rest => Some (VBool true, rest)
                | None =>
                    match strip_prefix (lit "false") s with
                    | Some rest => Some (VBool false, rest)
                    | None =>
                        match scan_number s with
                        | Some (n, rest) => Some (VInt n, rest)
                        | None => None
                        end
                    end
                end
            end
      end
  end
with scan_elements (fuel : nat) (s : chars) {struct fuel} : option (list value * chars) :=
  match fuel with
  | O => None
  | S f =>
      match scan_value f s with
      | Some (v, r) =>
          match skip_ws r with
          | c :: r1 =>
              if Ascii.eqb c ","%char then
                match scan_elements f (skip_ws r1) with
                | Some (vs, rest) => Some (v :: vs, rest)
                | None => None
                end
              else if Ascii.eqb c "]"%char then Some ([v], r1)
              else None
          | [] => None
          end
      | None => None
      end
  end
with scan_members (fuel : nat) (s : chars) {struct fuel}
    : option (list (string * value) * chars) :=
  match fuel with
  | O => None
  | S f =>
      match s with
      | q :: r =>
          if Ascii.eqb q dquote then
            match scan_string r with
            | Some (k, r1) =>
                match skip_ws r1 with
                | c :: r2 =>
                    if Ascii.eqb c ":"%char then
                      match scan_value f (skip_ws r2) with
                      | Some (v, r3) =>
                          match skip_ws r3 with
                          | c3 :: r4 =>
                              if Ascii.eqb c3 ","%char then
                                match scan_members f (skip_ws r4) with
                                | Some (pairs, rest) => Some ((k, v) :: pairs, rest)
                                | None => None
                                end
                              else if Ascii.eqb c3 "}"%char then Some ([(k, v)], r4)
                              else None
                          | [] => None
                          end
                      | None => None
                      end
                    else None
                | [] => None
                end
            | None => None
            end
          else None
      | [] => None
      end
  end.

Definition json_loads (s : string) : outcome value :=
  let cs := lit s in
  match scan_value (2 * List.length cs + 2) (skip_ws cs) with
  | Some (v, rest) =>
      match skip_ws rest with
      | [] => Returns v
      | _ :: _ => Raises JSONDecodeError
      end
  | None => Raises JSONDecodeError
  end.

(** ** The [cryptography] package, [hashlib] and [base64]

    The primitives the repository calls, as an interface.  Key objects
    are identified with their 32-byte raw encodings.  [x25519_exchange]
    is [None] where [exchange] raises (an all-zero shared secret);
    [aesgcm_decrypt] is [None] where [AESGCM.decrypt] raises;
    [ed25519_verify] is [false] where [verify] raises;
    [b64decode] is [None] where [base64.b64decode] raises. *)
Class Primitives : Type := {
  sha256 : bytes -> bytes;
  b64encode : bytes -> string;
  b64decode : string -> option bytes;
  ed25519_public_key : bytes -> bytes;
  ed25519_sign : bytes -> bytes -> bytes;
  ed25519_verify : bytes -> bytes -> bytes -> bool;
  x25519_public_key : bytes -> bytes;
  x25519_exchange : bytes -> bytes -> option bytes;
  (** [HKDF(SHA256, length=32, salt=None, info).derive(ikm)] as [hkdf_sha256 info ikm] *)
  hkdf_sha256 : bytes -> bytes -> bytes;
  (** [AESGCM(key).encrypt(nonce, data, None)] as [aesgcm_encrypt key nonce data] *)
  aesgcm_encrypt : bytes -> bytes -> bytes -> bytes;
  aesgcm_decrypt : bytes -> bytes -> bytes -> option bytes
}.

(** The functional contracts of the primitives. *)
Class PrimitiveLaws (P : Primitives) : Prop := {
  b64_roundtrip : forall b, b64decode (b64encode b) = Some b;
  ed25519_public_length :
    forall sk, List.length sk = 32 -> List.length (ed25519_public_key sk) = 32;
  ed25519_sign_verify :
    forall sk m, List.length sk = 32 ->
      ed25519_verify (ed25519_public_key sk) (ed25519_sign sk m) m = true;
  x25519_public_length :
    forall sk, List.length sk = 32 -> List.length (x25519_public_key sk) = 32;
  x25519_agreement :
    forall a b, List.length a = 32 -> List.length b = 32 ->
      exists s, List.length s = 32 /\
                x25519_exchange a (x25519_public_key b) = Some s /\
                x25519_exchange b (x25519_public_key a) = Some s;
  hkdf_length : forall info ikm, List.length (hkdf_sha256 info ikm) = 32;
  aesgcm_roundtrip :
    forall k n pt, List.length k = 32 -> List.length n = 12 ->
      aesgcm_decrypt k n (aesgcm_encrypt k n pt) = Some pt
}.

(** ** The operating system: randomness and standard output *)

(** What [protect] prints, one constructor per f-string of the source. *)
Inductive printed : Type :=
| WarnRecipientKeyNotFound (recipient : string)
    (* "Warning: Public key not found for recipient {recipient}, skipping" *)
| WarnGroupFetchFailed (group_id : string)
    (* "Warning: Could not fetch members for group {group_id}, skipping" *)
| WarnMemberKeyNotFound (member group_id : string)
    (* "Warning: Public key not found for member {member} of group {group_id}" *)
| WarnGroupError (group_id : string) (e : exn).
    (* "Warning: Error processing group {group_id}: {e}" *)

(** The random tape read by [os.urandom] and by key generation, the
    number of bytes already drawn, and what has been printed. *)
Record world : Type := {
  entropy : nat -> byte;
  drawn : nat;
  stdout : list printed
}.

Definition urandom (n : nat) : st world bytes :=
  fun w =>
    (Returns (map (entropy w) (seq (drawn w) n)),
     {| entropy := entropy w; drawn := drawn w + n; stdout := stdout w |}).

Definition print (m : printed) : st world unit :=
  fun w =>
    (Returns tt,
     {| entropy := entropy w; drawn := drawn w; stdout := stdout w ++ [m] |}).

(** The group server as [protect] sees it through [requests.get]: the
    call raises, or answers with a status code and the ["members"] of
    the JSON body ([groupserver/main.py], [get_members]). *)
Record response : Type := {
  status_code : Z;
  members : list string
}.

Definition group_server := string -> outcome response.

(* ================================================================== *)
(** * Part III. The repository's code *)
(* ================================================================== *)

Definition py_setitem (v : value) (k : string) (x : value) : outcome value :=
  match v with
  | VDict d => Returns (VDict (dict_set d k x))
  | _ => Raises TypeError
  end.

Section Code.

Context {P : Primitives}.

(** [base64.b64decode(v)] on a value read from a document. *)
Definition py_b64decode (v : value) : outcome bytes :=
  match v with
  | VStr s =>
      match b64decode s with
      | Some b => Returns b
      | None => Raises ValueError
      end
  | _ => Raises TypeError
  end.

(** [base64.b64encode(b).decode('utf-8')] *)
Definition b64text (b : bytes) : value := VStr (b64encode b).

(** ** [chainofproduct/crypto.py] *)

(** [from_private_bytes] / [from_public_bytes]: 32 bytes or [ValueError]. *)
Definition key32 (key_bytes : bytes) : outcome bytes :=
  if Nat.eqb (List.length key_bytes) 32 then Returns key_bytes else Raises ValueError.

Definition deserialize_signing_private_key := key32.
Definition deserialize_signing_public_key := key32.
Definition deserialize_encryption_private_key := key32.
Definition deserialize_encryption_public_key := key32.

Definition sign_data (private_key data : bytes) : bytes :=
  ed25519_sign private_key data.

Definition verify_signature (public_key signature data : bytes) : bool :=
  ed25519_verify public_key signature data.

Definition hash_data (data : bytes) : bytes := sha256 data.

Definition generate_symmetric_key : st world bytes := urandom 32.

(** [AESGCM(key)]: the key is 128, 192 or 256 bits long. *)
Definition AESGCM (key : bytes) : outcome unit :=
  let n := List.length key in
  if Nat.eqb n 16 || Nat.eqb n 24 || Nat.eqb n 32 then Returns tt
  else Raises ValueError.

Definition encrypt_aes_gcm (key plaintext : bytes) : st world value :=
  (_ <- lift (AESGCM key) ;;
   nonce <- urandom 12 ;;
   let ciphertext := aesgcm_encrypt key nonce plaintext in
   sret (VDict [("ciphertext"%string, b64text ciphertext);
                ("nonce"%string, b64text nonce)]))%st.

Definition decrypt_aes_gcm (key : bytes) (encrypted_data : value) : outcome bytes :=
  (_ <- AESGCM key ;;
   nonce_b64 <- py_getitem encrypted_data "nonce" ;;
   nonce <- py_b64decode nonce_b64 ;;
   ciphertext_b64 <- py_getitem encrypted_data "ciphertext" ;;
   ciphertext <- py_b64decode ciphertext_b64 ;;
   match aesgcm_decrypt key nonce ciphertext with
   | Some plaintext => Returns plaintext
   | None => Raises CryptoError
   end)%out.

Definition key_wrapping_info : bytes := utf8_encode "key_wrapping".

Definition exchange (private_key peer_public_key : bytes) : outcome bytes :=
  match x25519_exchange private_key peer_public_key with
  | Some shared_secret => Returns shared_secret
  | None => Raises ValueError
  end.

Definition wrap_key_x25519 (recipient_public_key key_to_wrap : bytes) : st world value :=
  (ephemeral_private <- urandom 32 ;;
   let ephemeral_public := x25519_public_key ephemeral_private in
   shared_secret <- lift (exchange ephemeral_private recipient_public_key) ;;
   let wrapping_key := hkdf_sha256 key_wrapping_info shared_secret in
   encrypted <- encrypt_aes_gcm wrapping_key key_to_wrap ;;
   sret (VDict [("ephemeral_public_key"%string, b64text ephemeral_public);
                ("encrypted_key"%string, encrypted)]))%st.

Definition unwrap_key_x25519 (recipient_private_key : bytes) (wrapped_data : value)
    : outcome bytes :=
  (ephemeral_b64 <- py_getitem wrapped_data "ephemeral_public_key" ;;
   ephemeral_public_bytes <- py_b64decode ephemeral_b64 ;;
   ephemeral_public <- key32 ephemeral_public_bytes ;;
   shared_secret <- exchange recipient_private_key ephemeral_public ;;
   let wrapping_key := hkdf_sha256 key_wrapping_info shared_secret in
   encrypted_key <- py_getitem wrapped_data "encrypted_key" ;;
   decrypt_aes_gcm wrapping_key encrypted_key)%out.

Definition derive_group_key (transaction_key : bytes) (group_id tx_id : string) : bytes :=
  hkdf_sha256 (utf8_encode ("group:" ++ group_id ++ ":tx:" ++ tx_id)) transaction_key.

(** ** [chainofproduct/keymanager.py] *)

(** [KeyManager]: the private-key files of the storage directory, by
    company name ([None]: the file does not exist). *)
Record KeyManager : Type := {
  signing_private_file : string -> option bytes;
  encryption_private_file : string -> option bytes
}.

Definition load_signing_private_key (km : KeyManager) (company_name : string)
    : outcome bytes :=
  match signing_private_file km company_name with
  | None => Raises (FileNotFoundError company_name)
  | Some key_bytes => deserialize_signing_private_key key_bytes
  end.

Definition load_encryption_private_key (km : KeyManager) (company_name : string)
    : outcome bytes :=
  match encryption_private_file km company_name with
  | None => Raises (FileNotFoundError company_name)
  | Some key_bytes => deserialize_encryption_private_key key_bytes
  end.

(** [PublicKeyStore]: the dictionary [self.keys]. *)
Record PublicKeyStore : Type := {
  keys : pydict
}.

(** [get_company]: the name is whatever the caller read from a
    document; a list or a dict is unhashable. *)
Definition get_company (store : PublicKeyStore) (company_name : value) : outcome value :=
  match company_name with
  | VList _ | VDict _ => Raises TypeError
  | VStr name =>
      match dict_lookup (keys store) name with
      | Some data => Returns data
      | None => Raises (KeyError company_name)
      end
  | _ => Raises (KeyError company_name)
  end.

Definition get_signing_public_key (store : PublicKeyStore) (company_name : value)
    : outcome bytes :=
  (data <- get_company store company_name ;;
   key_b64 <- py_getitem data "signing_public_key" ;;
   key_bytes <- py_b64decode key_b64 ;;
   deserialize_signing_public_key key_bytes)%out.

Definition get_encryption_public_key (store : PublicKeyStore) (company_name : value)
    : outcome bytes :=
  (data <- get_company store company_name ;;
   key_b64 <- py_getitem data "encryption_public_key" ;;
   key_bytes <- py_b64decode key_b64 ;;
   deserialize_encryption_public_key key_bytes)%out.

(** [add_company], on the dictionary (the file write is not modelled). *)
Definition add_company (store : PublicKeyStore) (company_name : string)
    (signing_public_key encryption_public_key : string) : PublicKeyStore :=
  {| keys := dict_set (keys store) company_name
               (VDict [("signing_public_key"%string, VStr signing_public_key);
                       ("encryption_public_key"%string, VStr encryption_public_key)]) |}.

(** [export_public_keys]: the registration record of a company, rebuilt
    from its private keys. *)
Definition export_public_keys (km : KeyManager) (company_name : string)
    : outcome (string * string) :=
  (sign_private <- load_signing_private_key km company_name ;;
   enc_private <- load_encryption_private_key km company_name ;;
   Returns (b64encode (ed25519_public_key sign_private),
            b64encode (x25519_public_key enc_private)))%out.

End Code.

(** ** [chainofproduct/crypto.py] and [keymanager.py]: key generation *)

Section KeygenCode.
Context {P : Primitives}.

(** [Ed25519PrivateKey.generate()] and [X25519PrivateKey.generate()]: a
    private key is 32 fresh random bytes. *)
Definition generate_signing_keypair : st world (bytes * bytes) :=
  (private_key <- urandom 32 ;;
   sret (private_key, ed25519_public_key private_key))%st.

Definition generate_encryption_keypair : st world (bytes * bytes) :=
  (private_key <- urandom 32 ;;
   sret (private_key, x25519_public_key private_key))%st.

(** Raw encodings: a key object is its 32 bytes (the branch for an
    unsupported key type is excluded by the types). *)
Definition serialize_private_key (private_key : bytes) : bytes := private_key.
Definition serialize_public_key (public_key : bytes) : bytes := public_key.

(** [company_dir = self.storage_dir / company_name], as the file system
    resolves it: the directory the name denotes.  Names that differ as
    strings may denote one directory (a trailing separator, a leading
    [./], a link). *)
Variable company_dir : string -> string.

(** The two [open(..., "wb")] of [generate_company_keys]: the files of
    the directory are replaced, under every name that denotes it. *)
Definition write_private_keys (km : KeyManager) (company_name : string)
    (sign_private enc_private : bytes) : KeyManager :=
  {| signing_private_file := fun name =>
       if String.eqb (company_dir name) (company_dir company_name)
       then Some (serialize_private_key sign_private)
       else signing_private_file km name;
     encryption_private_file := fun name =>
       if String.eqb (company_dir name) (company_dir company_name)
       then Some (serialize_private_key enc_private)
       else encryption_private_file km name |}.

(** [generate_company_keys]: the key manager after the call, and the
    registration record (its two public keys, as [export_public_keys]
    returns them). *)
Definition generate_company_keys (km : KeyManager) (company_name : string)
    : st world (KeyManager * (string * string)) :=
  (sign_pair <- generate_signing_keypair ;;
   enc_pair <- generate_encryption_keypair ;;
   let km' := write_private_keys km company_name (fst sign_pair) (fst enc_pair) in
   sret (km', (b64encode (serialize_public_key (snd sign_pair)),
               b64encode (serialize_public_key (snd enc_pair)))))%st.

(** [PublicKeyStore.list_companies] *)
Definition list_companies (store : PublicKeyStore) : list string :=
  dict_keys (keys store).

End KeygenCode.

(** ** [chainofproduct/library.py] *)

(** A local dictionary [L] that a block mutates in place next to the
    world: the mutation survives an exception raised later in the block. *)
Definition in_world {L A : Type} (c : st world A) : st (L * world) A :=
  fun s => match c (snd s) with (r, w') => (r, (fst s, w')) end.

Definition get_local {L : Type} : st (L * world) L :=
  fun s => (Returns (fst s), s).

Definition set_local {L : Type} (x : L) : st (L * world) unit :=
  fun s => (Returns tt, (x, snd s)).

Definition with_local {L A : Type} (init : L) (c : st (L * world) A) : st world L :=
  fun w =>
    match c (init, w) with
    | (Returns _, (l, w')) => (Returns l, w')
    | (Raises e, (_, w')) => (Raises e, w')
    end.

Section Library.

Context {P : Primitives}.

Definition required_fields : list string :=
  ["id"; "timestamp"; "seller"; "buyer"; "product"; "units"; "amount"]%string.

(** [for field in required_fields: if field not in transaction_data: raise] *)
Fixpoint require_fields (fields : list string) (transaction_data : pydict)
    : outcome unit :=
  match fields with
  | [] => Returns tt
  | field :: rest =>
      if dict_mem transaction_data field then require_fields rest transaction_data
      else Raises (ProtectionError (MissingRequiredField field))
  end.

(** One turn of [for recipient in recipients]. *)
Definition wrap_for_recipient (public_key_store : PublicKeyStore) (K_T : bytes)
    (wrapped_keys : pydict) (recipient : string) : st world pydict :=
  try_except
    (recipient_enc_pub_key <-
       lift (get_encryption_public_key public_key_store (VStr recipient)) ;;
     wk <- wrap_key_x25519 recipient_enc_pub_key K_T ;;
     sret (dict_set wrapped_keys recipient wk))%st
    is_KeyError
    (fun _ => print (WarnRecipientKeyNotFound recipient) ;;; sret wrapped_keys)%st.

(** [group_wrapped_keys[group_id]["members"][member] = envelope]: the
    nested dictionaries are mutated in place, which the outer ones see. *)
Definition assign_member (group_wrapped_keys : pydict) (group_id member : string)
    (envelope : value) : outcome pydict :=
  (group_data <- py_getitem (VDict group_wrapped_keys) group_id ;;
   group_members <- py_getitem group_data "members" ;;
   group_members' <- py_setitem group_members member envelope ;;
   group_data' <- py_setitem group_data "members" group_members' ;;
   Returns (dict_set group_wrapped_keys group_id group_data'))%out.

(** One turn of [for member in members]; the local is [group_wrapped_keys]. *)
Definition wrap_for_member (public_key_store : PublicKeyStore) (group_key : bytes)
    (group_id member : string) : st (pydict * world) unit :=
  try_except
    (member_enc_pub_key <-
       lift (get_encryption_public_key public_key_store (VStr member)) ;;
     envelope <- in_world (wrap_key_x25519 member_enc_pub_key group_key) ;;
     group_wrapped_keys <- get_local ;;
     group_wrapped_keys' <-
       lift (assign_member group_wrapped_keys group_id member envelope) ;;
     set_local group_wrapped_keys')%st
    is_KeyError
    (fun _ => in_world (print (WarnMemberKeyNotFound member group_id))).

(** One turn of [for group_id in groups]. *)
Definition process_group (public_key_store : PublicKeyStore) (server : group_server)
    (K_T : bytes) (tx_id group_id : string) : st (pydict * world) unit :=
  try_except
    (resp <- lift (server group_id) ;;
     if negb (Z.eqb (status_code resp) 200) then
       in_world (print (WarnGroupFetchFailed group_id))
     else
       let group_key := derive_group_key K_T group_id tx_id in
       group_wrapped_keys <- get_local ;;
       set_local (dict_set group_wrapped_keys group_id
                    (VDict [("members"%string, VDict [])])) ;;;
       for_each (members resp) (wrap_for_member public_key_store group_key group_id))%st
    (fun _ => true)
    (fun e => in_world (print (WarnGroupError group_id e))).

(** The dict comprehension that copies [wrapped_keys] into the document. *)
Fixpoint copy_wrapped_keys (wrapped_keys : pydict) : outcome pydict :=
  match wrapped_keys with
  | [] => Returns []
  | (company, wk) :: rest =>
      (ephemeral_public_key <- py_getitem wk "ephemeral_public_key" ;;
       encrypted_key <- py_getitem wk "encrypted_key" ;;
       rest' <- copy_wrapped_keys rest ;;
       Returns ((company,
                 VDict [("ephemeral_public_key"%string, ephemeral_public_key);
                        ("encrypted_key"%string, encrypted_key)]) :: rest'))%out
  end.

(** [if recipients:] / [if groups:] on an optional list. *)
Definition given {A : Type} (l : option (list A)) : list A :=
  match l with
  | Some xs => xs
  | None => []
  end.

Definition protect (transaction_data : pydict) (seller_name buyer_name : string)
    (key_manager : KeyManager) (public_key_store : PublicKeyStore)
    (recipients groups : option (list string)) (server : group_server)
    : st world value :=
  (_ <- lift (require_fields required_fields transaction_data) ;;
   seller <- lift (py_getitem (VDict transaction_data) "seller") ;;
   if negb (eq_str seller seller_name) then
     sraise (ProtectionError (SellerNameMismatch seller_name seller))
   else
   buyer <- lift (py_getitem (VDict transaction_data) "buyer") ;;
   if negb (eq_str buyer buyer_name) then
     sraise (ProtectionError (BuyerNameMismatch buyer_name buyer))
   else
   K_T <- generate_symmetric_key ;;
   let plaintext := utf8_encode (json_dumps_sorted (VDict transaction_data)) in
   encrypted_tx <- encrypt_aes_gcm K_T plaintext ;;
   let tx_hash := hash_data plaintext in
   seller_sign_key <- lift (load_signing_private_key key_manager seller_name) ;;
   let seller_signature := sign_data seller_sign_key tx_hash in
   seller_enc_pub_key <-
     lift (get_encryption_public_key public_key_store (VStr seller_name)) ;;
   seller_wk <- wrap_key_x25519 seller_enc_pub_key K_T ;;
   let wrapped_keys := [(seller_name, seller_wk)] in
   buyer_enc_pub_key <-
     lift (get_encryption_public_key public_key_store (VStr buyer_name)) ;;
   buyer_wk <- wrap_key_x25519 buyer_enc_pub_key K_T ;;
   let wrapped_keys := dict_set wrapped_keys buyer_name buyer_wk in
   wrapped_keys <-
     for_each_acc (given recipients) wrapped_keys
       (wrap_for_recipient public_key_store K_T) ;;
   group_wrapped_keys <-
     match given groups with
     | [] => sret []
     | group_ids =>
         tx_id_value <- lift (py_getitem (VDict transaction_data) "id") ;;
         let tx_id := py_str tx_id_value in
         with_local []
           (for_each group_ids (process_group public_key_store server K_T tx_id))
     end ;;
   transaction_id <- lift (py_getitem (VDict transaction_data) "id") ;;
   wrapped_keys_copy <- lift (copy_wrapped_keys wrapped_keys) ;;
   sret (VDict
     [("version", VStr "1.0");
      ("transaction_id", transaction_id);
      ("encrypted_transaction", encrypted_tx);
      ("signatures",
        VDict [("seller", VDict [("company", VStr seller_name);
                                 ("signature", b64text seller_signature)]);
               ("buyer", VNone)]);
      ("wrapped_keys", VDict wrapped_keys_copy);
      ("group_wrapped_keys", VDict group_wrapped_keys);
      ("transaction_hash", b64text tx_hash)]%string))%st.

Definition buyer_sign (protected_doc : value) (buyer_name : string)
    (key_manager : KeyManager) : outcome value :=
  (tx_hash_b64 <- py_getitem protected_doc "transaction_hash" ;;
   tx_hash <- py_b64decode tx_hash_b64 ;;
   buyer_sign_key <- load_signing_private_key key_manager buyer_name ;;
   let buyer_signature := sign_data buyer_sign_key tx_hash in
   signatures <- py_getitem protected_doc "signatures" ;;
   signatures' <-
     py_setitem signatures "buyer"
       (VDict [("company", VStr buyer_name);
               ("signature", b64text buyer_signature)]%string) ;;
   (* the nested dictionary was mutated in place: the document sees it *)
   py_setitem protected_doc "signatures" signatures')%out.

(** The entries of [results["errors"]] and [results["warnings"]], one
    constructor per message of the source. *)
Inductive check_message : Type :=
| UnknownVersion (version : value)
    (* "Unknown version: {protected_doc.get('version')}" *)
| SellerSignatureFailed     (* "Seller signature verification failed" *)
| CannotVerifySeller (company : value)
    (* "Cannot verify seller signature: public key not found for {seller_company}" *)
| SellerSignatureMissing    (* "Seller signature missing" *)
| BuyerSignatureFailed      (* "Buyer signature verification failed" *)
| CannotVerifyBuyer (company : value)
    (* "Cannot verify buyer signature: public key not found for {buyer_company}" *)
| BuyerSignatureNotYetAdded (* "Buyer signature not yet added" *)
| EncryptedTransactionMissingFields
    (* "Encrypted transaction missing required fields" *)
| VerificationError (e : exn).
    (* "Verification error: {str(e)}" *)

Record results : Type := {
  valid : bool;
  errors : list check_message;
  warnings : list check_message;
  details : pydict
}.

Definition initial_results : results :=
  {| valid := true; errors := []; warnings := []; details := [] |}.

Definition set_valid (b : bool) : st results unit :=
  fun r => (Returns tt,
            {| valid := b; errors := errors r; warnings := warnings r;
               details := details r |}).

Definition add_error (m : check_message) : st results unit :=
  fun r => (Returns tt,
            {| valid := valid r; errors := errors r ++ [m]; warnings := warnings r;
               details := details r |}).

Definition add_warning (m : check_message) : st results unit :=
  fun r => (Returns tt,
            {| valid := valid r; errors := errors r; warnings := warnings r ++ [m];
               details := details r |}).

Definition set_detail (k : string) (v : value) : st results unit :=
  fun r => (Returns tt,
            {| valid := valid r; errors := errors r; warnings := warnings r;
               details := dict_set (details r) k v |}).

(** [all(k in v for k in ks)] *)
Fixpoint all_in (ks : list string) (v : value) : outcome bool :=
  match ks with
  | [] => Returns true
  | k :: rest =>
      (b <- py_contains v k ;;
       if b then all_in rest v else Returns false)%out
  end.

(** The body of the [try] block of [check]. *)
Definition check_body (protected_doc : value) (public_key_store : PublicKeyStore)
    : st results unit :=
  (version <- lift (py_get protected_doc "version" VNone) ;;
   (if negb (eq_str version "1.0") then add_warning (UnknownVersion version)
    else sret tt) ;;;
   tx_hash <- lift (h <- py_getitem protected_doc "transaction_hash" ;;
                    py_b64decode h)%out ;;
   seller_sig_data <- lift (s <- py_getitem protected_doc "signatures" ;;
                            py_getitem s "seller")%out ;;
   (if truthy seller_sig_data then
      seller_company <- lift (py_getitem seller_sig_data "company") ;;
      seller_signature <- lift (s <- py_getitem seller_sig_data "signature" ;;
                                py_b64decode s)%out ;;
      try_except
        (seller_pub_key <-
           lift (get_signing_public_key public_key_store seller_company) ;;
         if verify_signature seller_pub_key seller_signature tx_hash then
           set_detail "seller_signature" (VStr "valid")
         else
           set_valid false ;;;
           add_error SellerSignatureFailed ;;;
           set_detail "seller_signature" (VStr "invalid"))
        is_KeyError
        (fun _ =>
           add_warning (CannotVerifySeller seller_company) ;;;
           set_detail "seller_signature" (VStr "cannot_verify"))
    else
      add_error SellerSignatureMissing ;;;
      set_valid false) ;;;
   buyer_sig_data <- lift (s <- py_getitem protected_doc "signatures" ;;
                           py_getitem s "buyer")%out ;;
   (if truthy buyer_sig_data then
      buyer_company <- lift (py_getitem buyer_sig_data "company") ;;
      buyer_signature <- lift (s <- py_getitem buyer_sig_data "signature" ;;
                               py_b64decode s)%out ;;
      try_except
        (buyer_pub_key <-
           lift (get_signing_public_key public_key_store buyer_company) ;;
         if verify_signature buyer_pub_key buyer_signature tx_hash then
           set_detail "buyer_signature" (VStr "valid")
         else
           set_valid false ;;;
           add_error BuyerSignatureFailed ;;;
           set_detail "buyer_signature" (VStr "invalid"))
        is_KeyError
        (fun _ =>
           add_warning (CannotVerifyBuyer buyer_company) ;;;
           set_detail "buyer_signature" (VStr "cannot_verify"))
    else
      add_warning BuyerSignatureNotYetAdded ;;;
      set_detail "buyer_signature" (VStr "missing")) ;;;
   wrapped <- lift (py_get protected_doc "wrapped_keys" (VDict [])) ;;
   n_wrapped <- lift (py_len wrapped) ;;
   set_detail "individual_recipients" (VInt n_wrapped) ;;;
   group_wrapped <- lift (py_get protected_doc "group_wrapped_keys" (VDict [])) ;;
   n_groups <- lift (py_len group_wrapped) ;;
   set_detail "groups" (VInt n_groups) ;;;
   encrypted_tx <- lift (py_getitem protected_doc "encrypted_transaction") ;;
   present <- lift (all_in ["ciphertext"; "nonce"]%string encrypted_tx) ;;
   if negb present then
     set_valid false ;;;
     add_error EncryptedTransactionMissingFields
   else sret tt)%st.

(** [check]: the body runs under [try: ... except Exception as e:], and
    [results] is returned in either case. *)
Definition check (protected_doc : value) (public_key_store : PublicKeyStore)
    : outcome results :=
  match
    try_except (check_body protected_doc public_key_store)
      (fun _ => true)
      (fun e => set_valid false ;;; add_error (VerificationError e))%st
      initial_results
  with
  | (Returns _, res) => Returns res
  | (Raises e, _) => Raises e
  end.

(** The body of [for group_id, group_data in ....items()] in [unprotect]:
    the first group that lists the company ends the call with an error. *)
Fixpoint scan_groups (items : list (string * value)) (company_name : string)
    (key_manager : KeyManager) : outcome unit :=
  match items with
  | [] => Returns tt
  | (group_id, group_data) :: rest =>
      (group_members <- py_get group_data "members" (VDict []) ;;
       listed <- py_contains group_members company_name ;;
       if listed then
         group_members' <- py_getitem group_data "members" ;;
         wrapped_group_key <- py_getitem group_members' company_name ;;
         enc_private_key <- load_encryption_private_key key_manager company_name ;;
         group_key <- unwrap_key_x25519 enc_private_key wrapped_group_key ;;
         Raises (ProtectionError (GroupDecryptionNotImplemented group_id))
       else scan_groups rest company_name key_manager)%out
  end.

Definition unprotect (protected_doc : value) (company_name : string)
    (key_manager : KeyManager) : outcome value :=
  (wrapped <- py_get protected_doc "wrapped_keys" (VDict []) ;;
   listed <- py_contains wrapped company_name ;;
   found <-
     (if listed then
        wrapped' <- py_getitem protected_doc "wrapped_keys" ;;
        wrapped_key_data <- py_getitem wrapped' company_name ;;
        enc_private_key <- load_encryption_private_key key_manager company_name ;;
        K_T <- unwrap_key_x25519 enc_private_key wrapped_key_data ;;
        Returns (Some K_T, VStr "individual")
      else Returns (None, VNone)) ;;
   _ <-
     match fst found with
     | None =>
         group_wrapped <- py_get protected_doc "group_wrapped_keys" (VDict []) ;;
         items <- py_items group_wrapped ;;
         scan_groups items company_name key_manager
     | Some _ => Returns tt
     end ;;
   match fst found with
   | None => Raises (ProtectionError (NoAccessGranted company_name))
   | Some K_T =>
       encrypted_tx <- py_getitem protected_doc "encrypted_transaction" ;;
       plaintext <- decrypt_aes_gcm K_T encrypted_tx ;;
       text <- match utf8_decode plaintext with
               | Some s => Returns s
               | None => Raises UnicodeDecodeError
               end ;;
       transaction_data <- json_loads text ;;
       Returns (VDict [("transaction", transaction_data);
                       ("access_method", snd found);
                       ("verified", VBool true)]%string)
   end)%out.

End Library.

(** ** [app/main.py]: the endpoints that take documents *)

(** The [detail] of the [HTTPException]s these endpoints raise, one
    constructor per message of the source. *)
Inductive http_detail : Type :=
| MissingTransactionId
    (* "Protected document missing transaction_id" *)
| TransactionAlreadyExists (transaction_id : value)
    (* "Transaction {transaction_id} already exists" *)
| FailedToStoreTransaction (e : exn)
    (* "Failed to store transaction: {str(e)}" *)
| TransactionNotFound (transaction_id : Z)
    (* "Transaction {transaction_id} not found" *)
| AlreadySignedByBuyer
    (* "Transaction already signed by buyer" *)
| FailedToUpdateTransaction
    (* "Failed to update transaction" *)
| FailedToAddBuyerSignature (e : exn).
    (* "Failed to add buyer signature: {str(e)}" *)

(** What a handler ends with: the body it returns, under the status code
    of its route, or an [HTTPException]. *)
Inductive http_response : Type :=
| Body (status : Z) (body : value)
| HTTPException (status : Z) (detail : http_detail).

(** [app/db.py] as these endpoints use it, over a database state [S].
    [get_transaction] returns the row as a dictionary whose
    [protected_document] is the stored document, or [None]. *)
Record Database (S : Type) : Type := {
  db_get_transaction : value -> st S (option value);
  db_create_transaction : value -> value -> value -> value -> st S Z;
  db_update_transaction_buyer_signature : Z -> value -> st S bool
}.

Arguments db_get_transaction {S}.
Arguments db_create_transaction {S}.
Arguments db_update_transaction_buyer_signature {S}.

(** [try: body except HTTPException: raise
     except Exception as e: raise HTTPException(500, failed(e))]. *)
Definition endpoint {S : Type} (body : st S http_response) (failed : exn -> http_detail)
    : S -> http_response * S :=
  fun s =>
    match body s with
    | (Returns r, s') => (r, s')
    | (Raises e, s') => (HTTPException 500 (failed e), s')
    end.

(** [if existing:] on what [get_transaction] returned. *)
Definition row_present (row : option value) : bool :=
  match row with
  | Some r => truthy r
  | None => false
  end.

Definition create_transaction {S : Type} (db : Database S) (protected_doc : pydict)
    : S -> http_response * S :=
  endpoint
    (transaction_id <- lift (py_get (VDict protected_doc) "transaction_id" VNone) ;;
     if negb (truthy transaction_id) then
       sret (HTTPException 400 MissingTransactionId)
     else
     seller <- lift (signatures <- py_get (VDict protected_doc) "signatures" (VDict []) ;;
                     seller_sig <- py_get signatures "seller" (VDict []) ;;
                     py_get seller_sig "company" VNone)%out ;;
     buyer_sig <- lift (signatures <- py_get (VDict protected_doc) "signatures" (VDict []) ;;
                        py_get signatures "buyer" VNone)%out ;;
     buyer <- lift (if truthy buyer_sig then py_get buyer_sig "company" VNone
                    else Returns VNone) ;;
     existing <- db_get_transaction db transaction_id ;;
     if row_present existing then
       sret (HTTPException 409 (TransactionAlreadyExists transaction_id))
     else
     db_id <- db_create_transaction db transaction_id (VDict protected_doc) seller buyer ;;
     sret (Body 201
             (VDict [("id", VInt db_id);
                     ("transaction_id", transaction_id);
                     ("message", VStr "Transaction stored successfully")]%string)))%st
    FailedToStoreTransaction.

(** A request field declared [Dict[str, str]], as a value. *)
Definition str_dict (d : list (string * string)) : value :=
  VDict (map (fun kv => (fst kv, VStr (snd kv))) d).

Definition buyer_sign_transaction {S : Type} (db : Database S) (transaction_id : Z)
    (buyer_signature : list (string * string)) : S -> http_response * S :=
  endpoint
    (transaction <- db_get_transaction db (VInt transaction_id) ;;
     match transaction with
     | None => sret (HTTPException 404 (TransactionNotFound transaction_id))
     | Some row =>
         if negb (truthy row) then
           sret (HTTPException 404 (TransactionNotFound transaction_id))
         else
         buyer_signed <- lift (py_get row "buyer_signed" VNone) ;;
         if truthy buyer_signed then
           sret (HTTPException 409 AlreadySignedByBuyer)
         else
         protected_doc <- lift (py_getitem row "protected_document") ;;
         signatures <- lift (py_getitem protected_doc "signatures") ;;
         signatures' <- lift (py_setitem signatures "buyer" (str_dict buyer_signature)) ;;
         (* the nested dictionary was mutated in place: the document sees it *)
         protected_doc' <- lift (py_setitem protected_doc "signatures" signatures') ;;
         success <- db_update_transaction_buyer_signature db transaction_id protected_doc' ;;
         if negb success then
           sret (HTTPException 500 FailedToUpdateTransaction)
         else
           sret (Body 200
                   (VDict [("transaction_id", VInt transaction_id);
                           ("message", VStr "Buyer signature added successfully")]%string))
     end)%st
    FailedToAddBuyerSignature.

(* ================================================================== *)
(** * Part IV. A reference instance of the primitives *)
(* ================================================================== *)

Definition byte_of_N (n : N) : byte :=
  match Byte.of_N n with
  | Some b => b
  | None => x00
  end.

(** ** SHA-256 (FIPS 180-4), on bytes *)
Module SHA256.

Local Open Scope N_scope.

Definition mask32 : N := 0xffffffff.
Definition add32 (x y : N) : N := N.land (x + y) mask32.
Definition rotr (n x : N) : N :=
  N.lor (N.shiftr x n) (N.land (N.shiftl x (32 - n)) mask32).
Definition Ch (x y z : N) : N := N.lxor (N.land x y) (N.land (N.lxor x mask32) z).
Definition Maj (x y z : N) : N :=
  N.lxor (N.lxor (N.land x y) (N.land x z)) (N.land y z).
Definition Sigma0 (x : N) : N := N.lxor (N.lxor (rotr 2 x) (rotr 13 x)) (rotr 22 x).
Definition Sigma1 (x : N) : N := N.lxor (N.lxor (rotr 6 x) (rotr 11 x)) (rotr 25 x).
Definition sigma0 (x : N) : N := N.lxor (N.lxor (rotr 7 x) (rotr 18 x)) (N.shiftr x 3).
Definition sigma1 (x : N) : N := N.lxor (N.lxor (rotr 17 x) (rotr 19 x)) (N.shiftr x 10).

(** The constants are defined as the standard does: the first 32 bits
    of the fractional parts of the cube roots (round constants) and of
    the square roots (initial hash value) of the first primes. *)
Definition is_prime (k : N) : bool :=
  forallb (fun d => negb (k mod N.of_nat d =? 0)) (seq 2 (N.to_nat k - 2)).

Definition primes : list N :=
  filter is_prime (map N.of_nat (seq 2 310)).

(** Integer cube root, by bisection between [lo] and [hi]. *)
Fixpoint cube_root (fuel : nat) (lo hi n : N) : N :=
  match fuel with
  | O => lo
  | S f =>
      let mid := (lo + hi + 1) / 2 in
      if mid * mid * mid <=? n then cube_root f mid hi n
      else cube_root f lo (mid - 1) n
  end.

Definition K : list N :=
  Eval vm_compute in
    map (fun p => N.land (cube_root 48 0 (2 ^ 44) (p * 2 ^ 96)) mask32)
        (firstn 64 primes).

Definition H0 : list N :=
  Eval vm_compute in
    map (fun p => N.land (N.sqrt (p * 2 ^ 64)) mask32) (firstn 8 primes).

(** [n] bytes of [x], most significant first. *)
Fixpoint be_bytes (n : nat) (x : N) : list N :=
  match n with
  | O => []
  | S n' => N.land (N.shiftr x (8 * N.of_nat n')) 0xff :: be_bytes n' x
  end.

Definition pad (msg : list N) : list N :=
  let len := List.length msg in
  let zeros := Nat.modulo (119 - Nat.modulo len 64) 64 in
  msg ++ [0x80] ++ repeat 0 zeros ++ be_bytes 8 (8 * N.of_nat len).

Fixpoint words (fuel : nat) (l : list N) : list N :=
  match fuel, l with
  | S f, a :: b :: c :: d :: rest =>
      (((a * 256 + b) * 256 + c) * 256 + d) :: words f rest
  | _, _ => []
  end.

(** The message schedule, most recent word first. *)
Fixpoint schedule (n : nat) (w : list N) : list N :=
  match n with
  | O => w
  | S n' =>
      schedule n'
        (add32 (add32 (sigma1 (nth 1 w 0)) (nth 6 w 0))
               (add32 (sigma0 (nth 14 w 0)) (nth 15 w 0)) :: w)
  end.

Definition round (s : list N) (kw : N * N) : list N :=
  match s with
  | [a; b; c; d; e; f; g; h] =>
      let t1 := add32 (add32 (add32 h (Sigma1 e)) (add32 (Ch e f g) (fst kw))) (snd kw) in
      let t2 := add32 (Sigma0 a) (Maj a b c) in
      [add32 t1 t2; a; b; c; add32 d t1; e; f; g]
  | _ => s
  end.

Definition compress (h : list N) (block : list N) : list N :=
  let w := rev (schedule 48 (rev block)) in
  map (fun xy => add32 (fst xy) (snd xy))
      (combine h (fold_left round (combine K w) h)).

Fixpoint blocks (fuel : nat) (h : list N) (ws : list N) : list N :=
  match fuel, ws with
  | S f, _ :: _ => blocks f (compress h (firstn 16 ws)) (skipn 16 ws)
  | _, _ => h
  end.

Definition digest (msg : bytes) : bytes :=
  let padded := pad (map Byte.to_N msg) in
  let ws := words (List.length padded) padded in
  map byte_of_N (flat_map (be_bytes 4) (blocks (List.length ws) H0 ws)).

End SHA256.

(** ** Base64 (RFC 4648, standard alphabet with padding)

    The decoder is the strict one: it accepts exactly the padded
    encodings, where [base64.b64decode] also skips stray characters. *)
Module Base64.

Local Open Scope N_scope.

Definition pad_char : ascii := "="%char.

Definition alphabet (n : N) : ascii :=
  if n <? 26 then ascii_of_N (65 + n)
  else if n <? 52 then ascii_of_N (71 + n)
  else if n <? 62 then ascii_of_N (n - 4)
  else if n =? 62 then "+"%char
  else "/"%char.

Definition sextet (c : ascii) : option N :=
  let n := N_of_ascii c in
  if (65 <=? n) && (n <=? 90) then Some (n - 65)
  else if (97 <=? n) && (n <=? 122) then Some (n - 71)
  else if (48 <=? n) && (n <=? 57) then Some (n + 4)
  else if n =? 43 then Some 62
  else if n =? 47 then Some 63
  else None.

Fixpoint encode (b : bytes) : chars :=
  match b with
  | [] => []
  | [x] =>
      let x := Byte.to_N x in
      [alphabet (x / 4); alphabet ((x mod 4) * 16); pad_char; pad_char]
  | [x; y] =>
      let x := Byte.to_N x in
      let y := Byte.to_N y in
      [alphabet (x / 4); alphabet ((x mod 4) * 16 + y / 16);
       alphabet ((y mod 16) * 4); pad_char]
  | x :: y :: z :: rest =>
      let x := Byte.to_N x in
      let y := Byte.to_N y in
      let z := Byte.to_N z in
      alphabet (x / 4) :: alphabet ((x mod 4) * 16 + y / 16) ::
      alphabet ((y mod 16) * 4 + z / 64) :: alphabet (z mod 64) :: encode rest
  end.

Fixpoint decode (s : chars) : option bytes :=
  match s with
  | [] => Some []
  | a :: b :: c :: d :: rest =>
      match sextet a, sextet b with
      | Some p, Some q =>
          let x := byte_of_N (p * 4 + q / 16) in
          if Ascii.eqb d pad_char then
            match rest with
            | [] =>
                if Ascii.eqb c pad_char then Some [x]
                else match sextet c with
                     | Some r => Some [x; byte_of_N ((q mod 16) * 16 + r / 4)]
                     | None => None
                     end
            | _ :: _ => None
            end
          else
            match sextet c, sextet d, decode rest with
            | Some r, Some t, Some tail =>
                Some (x :: byte_of_N ((q mod 16) * 16 + r / 4) ::
                      byte_of_N ((r mod 4) * 64 + t) :: tail)
            | _, _, _ => None
            end
      | _, _ => None
      end
  | _ => None
  end.

End Base64.

(** ** Stand-ins for the curve, the KDF and the AEAD

    They satisfy the contracts of [PrimitiveLaws] and make the code
    executable; they are not cryptography. *)
Module StandIn.

Definition byte_add (a b : byte) : byte :=
  byte_of_N ((Byte.to_N a + Byte.to_N b) mod 256).

Fixpoint bytes_eqb (a b : bytes) : bool :=
  match a, b with
  | [], [] => true
  | x :: a', y :: b' => Byte.eqb x y && bytes_eqb a' b'
  | _, _ => false
  end.

Fixpoint zip_add (a b : bytes) : bytes :=
  match a, b with
  | x :: a', y :: b' => byte_add x y :: zip_add a' b'
  | _, _ => []
  end.

Definition pad32 (b : bytes) : bytes := firstn 32 (b ++ repeat x00 32).

Definition public_key (base : byte) (sk : bytes) : bytes := map (byte_add base) sk.

Definition exchange (sk peer : bytes) : option bytes :=
  if Nat.eqb (List.length sk) (List.length peer)
  then Some (zip_add (public_key x09 sk) peer)
  else None.

Definition hkdf (info ikm : bytes) : bytes :=
  zip_add (pad32 ikm) (pad32 (SHA256.digest info)).

Definition seal (key nonce plaintext : bytes) : bytes := key ++ nonce ++ plaintext.

Fixpoint strip (p b : bytes) : option bytes :=
  match p, b with
  | [], _ => Some b
  | x :: p', y :: b' => if Byte.eqb x y then strip p' b' else None
  | _ :: _, [] => None
  end.

Definition open (key nonce ciphertext : bytes) : option bytes :=
  strip (key ++ nonce) ciphertext.

Definition sign (sk msg : bytes) : bytes :=
  public_key x01 sk ++ SHA256.digest msg.

Definition verify (pk signature msg : bytes) : bool :=
  bytes_eqb signature (pk ++ SHA256.digest msg).

End StandIn.

(** The instance: SHA-256 and Base64 as specified, stand-ins elsewhere. *)
Definition reference : Primitives := {|
  sha256 := SHA256.digest;
  b64encode := fun b => string_of_list_ascii (Base64.encode b);
  b64decode := fun s => Base64.decode (list_ascii_of_string s);
  ed25519_public_key := StandIn.public_key x01;
  ed25519_sign := StandIn.sign;
  ed25519_verify := StandIn.verify;
  x25519_public_key := StandIn.public_key x09;
  x25519_exchange := StandIn.exchange;
  hkdf_sha256 := StandIn.hkdf;
  aesgcm_encrypt := StandIn.seal;
  aesgcm_decrypt := StandIn.open
|}.

(** ** A second AEAD stand-in, with a 16-byte tag

    As AES-GCM does, it lengthens the plaintext by 16 bytes; the tag
    depends on the nonce and on the first half of the key. *)
Module ShortTag.

Definition tag (key nonce : bytes) : bytes :=
  StandIn.zip_add (firstn 16 (StandIn.pad32 key)) (firstn 16 (StandIn.pad32 nonce)).

Definition seal (key nonce plaintext : bytes) : bytes := tag key nonce ++ plaintext.

Definition open (key nonce ciphertext : bytes) : option bytes :=
  StandIn.strip (tag key nonce) ciphertext.

End ShortTag.


(** ** A deployment to run the code on: the scenario of [setup.py] *)
Module Demo.

Local Open Scope string_scope.

#[local] Existing Instance reference.

Definition seller_co : string := "ChingChongExtractions".
Definition buyer_co : string := "LaysChips".
Definition auditor_co : string := "AuditorCorp".

(** The private-key files under [keys/]. *)
Definition key_manager : KeyManager := {|
  signing_private_file := fun name =>
    if String.eqb name seller_co then Some (repeat x11 32)
    else if String.eqb name buyer_co then Some (repeat x22 32)
    else if String.eqb name auditor_co then Some (repeat x33 32)
    else None;
  encryption_private_file := fun name =>
    if String.eqb name seller_co then Some (repeat x44 32)
    else if String.eqb name buyer_co then Some (repeat x55 32)
    else if String.eqb name auditor_co then Some (repeat x66 32)
    else None
|}.

(** [pks.add_company(km.export_public_keys(company))] for one company. *)
Definition register (store : PublicKeyStore) (company : string) : PublicKeyStore :=
  match export_public_keys key_manager company with
  | Returns (s, e) => add_company store company s e
  | Raises _ => store
  end.

Definition public_key_store : PublicKeyStore :=
  Eval vm_compute in
    fold_left register [seller_co; buyer_co; auditor_co] {| keys := [] |}.

(** The group server: [tech_partners] has the auditor as its member;
    any other group is answered with 404. *)
Definition server : group_server := fun group_id =>
  if String.eqb group_id "tech_partners"
  then Returns {| status_code := 200; members := [auditor_co] |}
  else Returns {| status_code := 404; members := [] |}.

Definition transaction : pydict :=
  [("id", VInt 123); ("timestamp", VInt 1766336340);
   ("seller", VStr seller_co); ("buyer", VStr buyer_co);
   ("product", VStr "Indium"); ("units", VInt 40000);
   ("amount", VInt 90000000)].

Definition boot : world := {|
  entropy := fun i => byte_of_N (N.of_nat (Nat.modulo (7 * i + 3) 256));
  drawn := 0;
  stdout := []
|}.

(** The fields of the document [protect] returns for [transaction],
    shared with the given groups and with no extra recipient. *)
Definition protected_fields (groups : option (list string)) : pydict :=
  match fst (protect transaction seller_co buyer_co key_manager public_key_store
               None groups server boot) with
  | Returns (VDict d) => d
  | _ => []
  end.

(** The directory a relative company name denotes under [keys/], on a
    file system where a leading ["./"] and a final ["/"] change
    nothing. *)
Fixpoint without_final_slash (name : string) : string :=
  match name with
  | EmptyString => EmptyString
  | String c rest =>
      match without_final_slash rest with
      | EmptyString => if Ascii.eqb c "/" then EmptyString else String c EmptyString
      | rest' => String c rest'
      end
  end.

Fixpoint without_leading_dot (name : string) : string :=
  match name with
  | String "." (String "/" rest) => without_leading_dot rest
  | _ => name
  end.

Definition company_dir (company_name : string) : string :=
  "keys/" ++ without_final_slash (without_leading_dot company_name).

End Demo.

(** ** Databases to run the endpoints on *)

(** A database that holds nothing and accepts everything, to run the
    endpoints on. *)
Definition empty_database : Database unit := {|
  db_get_transaction := fun _ => sret None;
  db_create_transaction := fun _ _ _ _ => sret 1%Z;
  db_update_transaction_buyer_signature := fun _ _ => sret true
|}.

(** One stored transaction, not yet countersigned; the state is the
    document last written. *)
Definition single_row_database (transaction_id : Z) (doc : value)
    : Database (option value) := {|
  db_get_transaction := fun tid s =>
    (Returns
       (match tid with
        | VInt n => if Z.eqb n transaction_id then
                      Some (VDict [("transaction_id", VInt transaction_id);
                                   ("protected_document", doc);
                                   ("buyer_signed", VBool false)]%string)
                    else None
        | _ => None
        end), s);
  db_create_transaction := fun _ _ _ _ => sret 1%Z;
  db_update_transaction_buyer_signature := fun tid d s =>
    if Z.eqb tid transaction_id then (Returns true, Some d) else (Returns false, s)
|}.

(* ================================================================== *)
(** * Notions used in the statements *)
(* ================================================================== *)

(** The [n] bytes the next draw returns, and the world after it. *)
Definition draw (w : world) (n : nat) : bytes :=
  map (entropy w) (seq (drawn w) n).

Definition advance (w : world) (n : nat) : world :=
  {| entropy := entropy w; drawn := drawn w + n; stdout := stdout w |}.

(** [w'] is [w] later: the same tape, and what [w] had printed is still
    the beginning of the output. *)
Definition later (w w' : world) : Prop :=
  entropy w' = entropy w /\ exists out, stdout w' = stdout w ++ out.

Section Shapes.

Context {P : Primitives}.

(** The dictionary [encrypt_aes_gcm] returns for a given nonce. *)
Definition sealed (key nonce plaintext : bytes) : value :=
  VDict [("ciphertext"%string, b64text (aesgcm_encrypt key nonce plaintext));
         ("nonce"%string, b64text nonce)].

(** The envelope [wrap_key_x25519] returns for a given ephemeral private
    key [e], shared secret [s] and nonce [n]. *)
Definition envelope (e s n payload : bytes) : value :=
  VDict [("ephemeral_public_key"%string, b64text (x25519_public_key e));
         ("encrypted_key"%string,
          sealed (hkdf_sha256 key_wrapping_info s) n payload)].

(** [env] is an envelope made for the public key [pk] and carrying
    [payload]. *)
Definition is_envelope_for (pk payload : bytes) (env : value) : Prop :=
  exists e s n,
    List.length e = 32 /\ List.length n = 12 /\
    x25519_exchange e pk = Some s /\
    env = envelope e s n payload.

(** An X25519 public key that belongs to some private key. *)
Definition honest_x25519 (pk : bytes) : Prop :=
  exists sk, List.length sk = 32 /\ pk = x25519_public_key sk.

(** The store resolves [name] to an honest encryption key / does not
    resolve it ([KeyError]). *)
Definition resolvable (store : PublicKeyStore) (name : string) : Prop :=
  exists pk, get_encryption_public_key store (VStr name) = Returns pk /\
             honest_x25519 pk.

Definition unresolvable (store : PublicKeyStore) (name : string) : Prop :=
  exists k, get_encryption_public_key store (VStr name) = Raises (KeyError k).

(** The company holds the encryption private key that the store
    advertises the public half of. *)
Definition holds_encryption_key (km : KeyManager) (store : PublicKeyStore)
    (name : string) : Prop :=
  exists sk, encryption_private_file km name = Some sk /\ List.length sk = 32 /\
             get_encryption_public_key store (VStr name) = Returns (x25519_public_key sk).

(** Likewise for the signing key pair. *)
Definition holds_signing_key (km : KeyManager) (store : PublicKeyStore)
    (name : string) : Prop :=
  exists sk, signing_private_file km name = Some sk /\ List.length sk = 32 /\
             get_signing_public_key store (VStr name) = Returns (ed25519_public_key sk).

(** A plaintext [protect] accepts for the given seller and buyer. *)
Definition valid_plaintext (transaction_data : pydict) (seller_name buyer_name : string)
    : Prop :=
  (forall field, In field required_fields -> dict_mem transaction_data field = true) /\
  dict_lookup transaction_data "seller" = Some (VStr seller_name) /\
  dict_lookup transaction_data "buyer" = Some (VStr buyer_name).

(** The value [buyer_sign] stores in [signatures.buyer]. *)
Definition buyer_entry (buyer_name : string) (sk tx_hash : bytes) : value :=
  VDict [("company"%string, VStr buyer_name);
         ("signature"%string, b64text (ed25519_sign sk tx_hash))].

(** The document [d] with [entry] in the buyer slot of its signatures
    [sigs]. *)
Definition with_buyer_slot (d sigs : pydict) (entry : value) : value :=
  VDict (dict_set d "signatures" (VDict (dict_set sigs "buyer" entry))).

(** A wrapped-keys entry: an envelope of [K_T] for the encryption key
    the store advertises for the company. *)
Definition entry_ok (store : PublicKeyStore) (K_T : bytes) (entry : string * value)
    : Prop :=
  exists pk, get_encryption_public_key store (VStr (fst entry)) = Returns pk /\
             is_envelope_for pk K_T (snd entry).

(** What [protect] needs from its environment to go through: a valid
    plaintext, the seller's signing key, the seller's and the buyer's
    encryption keys resolving, and every extra recipient either
    resolving or unknown to the store. *)
Definition protect_ready (transaction_data : pydict) (seller_name buyer_name : string)
    (km : KeyManager) (store : PublicKeyStore) (recipients : option (list string))
    : Prop :=
  valid_plaintext transaction_data seller_name buyer_name /\
  (exists sk, load_signing_private_key km seller_name = Returns sk) /\
  resolvable store seller_name /\
  resolvable store buyer_name /\
  (forall r, In r (given recipients) -> resolvable store r \/ unresolvable store r).

(** The document [protect] assembles. *)
Definition document (transaction_id encrypted_tx : value) (seller_name : string)
    (seller_signature tx_hash : bytes) (wrapped_keys group_wrapped_keys : pydict)
    : value :=
  VDict
    [("version", VStr "1.0");
     ("transaction_id", transaction_id);
     ("encrypted_transaction", encrypted_tx);
     ("signatures",
       VDict [("seller", VDict [("company", VStr seller_name);
                                ("signature", b64text seller_signature)]);
              ("buyer", VNone)]);
     ("wrapped_keys", VDict wrapped_keys);
     ("group_wrapped_keys", VDict group_wrapped_keys);
     ("transaction_hash", b64text tx_hash)]%string.

(** Canonical JSON as the specification words it: keys sorted, no
    insignificant whitespace. *)
Definition spec_canonical_json (v : value) : string :=
  string_of_list_ascii (dumps_with (lit ",") (lit ":") v).

(** The bytes [protect] encrypts and hashes. *)
Definition canonical_bytes (transaction_data : pydict) : bytes :=
  utf8_encode (json_dumps_sorted (VDict transaction_data)).

End Shapes.

(** ** JSON documents and what [json.loads] makes of them *)

(** The keys of a Python [dict] are pairwise distinct. *)
Fixpoint nodupb (l : list string) : bool :=
  match l with
  | [] => true
  | k :: r => negb (existsb (String.eqb k) r) && nodupb r
  end.

(** A value as Python can hold it: every dictionary in it, at any depth,
    has distinct keys. *)
Fixpoint well_formed (v : value) : bool :=
  match v with
  | VList l => forallb well_formed l
  | VDict d =>
      nodupb (map fst d) &&
      forallb (fun kx => match kx with (_, x) => well_formed x end) d
  | _ => true
  end.

(** The same value with the items of every dictionary in key order: what
    [json.loads(json.dumps(v, sort_keys=True))] builds.  Python's [==]
    on dictionaries does not look at the order of the items. *)
Fixpoint canonical (v : value) : value :=
  match v with
  | VList l => VList (map canonical l)
  | VDict d =>
      VDict (sort_items
               (map (fun kx => match kx with (k, x) => (k, canonical x) end) d))
  | _ => v
  end.

Definition map_values {A B : Type} (g : A -> B) (l : list (string * A))
    : list (string * B) :=
  map (fun kx => match kx with (k, x) => (k, g x) end) l.

(** Adjacent items are in key order. *)
Fixpoint ordered {A : Type} (l : list (string * A)) : Prop :=
  match l with
  | [] => True
  | (k, _) :: l' =>
      match l' with
      | [] => True
      | (k', _) :: _ => String.compare k k' <> Gt
      end /\ ordered l'
  end.

(** Number of nodes of a value, and of the values of a list or of a
    dictionary: the scanner spends at most two units of fuel per node. *)
Fixpoint value_size (v : value) : nat :=
  match v with
  | VList l => S (fold_right (fun x n => value_size x + n) 0 l)
  | VDict d => S (fold_right (fun kx n => match kx with (_, x) => value_size x end + n) 0 d)
  | _ => 1
  end.

Definition sum_sizes (l : list value) : nat :=
  fold_right (fun x n => value_size x + n) 0 l.

Definition sum_member_sizes (d : pydict) : nat :=
  fold_right (fun kx n => match kx with (_, x) => value_size x end + n) 0 d.

Definition sum_printed (m : list (string * chars)) : nat :=
  fold_right (fun kx n => List.length (snd kx) + n) 0 m.

(** What may follow a printed value: the end of the text, or the
    punctuation that closes or continues the enclosing container. *)
Definition delimited (rest : chars) : Prop :=
  match rest with
  | [] => True
  | c :: _ => c = ","%char \/ c = "]"%char \/ c = "}"%char
  end.

(** What a printed value may start with. *)
Definition value_start (c : ascii) : Prop :=
  is_ws c = false /\ Ascii.eqb c "]"%char = false /\ Ascii.eqb c "}"%char = false.

(** The scanner reads the text [json.dumps] printed for [x] back, up to
    key order, and stops right after it. *)
Definition reads_back (x : value) : Prop :=
  forall fuel rest,
    2 * value_size x <= fuel -> delimited rest ->
    scan_value fuel (dumps x ++ rest) = Some (canonical x, rest).

(** ** Group entries, signatures, and the [info] of the group keys *)

Section GroupShapes.
Context {P : Primitives}.

(** An entry of [group_wrapped_keys]: the group was answered with status
    200, the entry is [{"members": {...}}], and every member listed is
    one the server named and holds an envelope of the group key. *)
Definition group_entry_ok (store : PublicKeyStore) (server : group_server)
    (K_T : bytes) (tx_id : string) (entry : string * value) : Prop :=
  exists resp ms,
    server (fst entry) = Returns resp /\ status_code resp = 200%Z /\
    snd entry = VDict [("members"%string, VDict ms)] /\
    Forall (fun me => In (fst me) (members resp) /\
                      entry_ok store (derive_group_key K_T (fst entry) tx_id) me) ms.

End GroupShapes.

Section SnapshotDefs.
Context {P : Primitives}.

(** The entry of group [g] lists exactly the members the server named
    whose encryption key the store resolves. *)
Definition snapshot_of (store : PublicKeyStore) (resp : response) (gwk : pydict)
    (g : string) : Prop :=
  exists ms,
    dict_lookup gwk g = Some (VDict [("members"%string, VDict ms)]) /\
    forall m, dict_mem ms m = true <-> In m (members resp) /\ resolvable store m.

End SnapshotDefs.

Section Verdicts.

Context {P : Primitives}.

(** [role] is ["seller"] or ["buyer"]: the entry of [signatures] for it
    names a company whose stored key verifies the entry's signature over
    the document's [transaction_hash]. *)
Definition signature_verifies (doc : value) (store : PublicKeyStore) (role : string)
    : Prop :=
  exists tx_hash entry company signature pk,
    (h <- py_getitem doc "transaction_hash" ;; py_b64decode h)%out = Returns tx_hash /\
    (s <- py_getitem doc "signatures" ;; py_getitem s role)%out = Returns entry /\
    py_getitem entry "company" = Returns company /\
    (s <- py_getitem entry "signature" ;; py_b64decode s)%out = Returns signature /\
    get_signing_public_key store company = Returns pk /\
    verify_signature pk signature tx_hash = true.

End Verdicts.

Section InfoDefs.
Context {P : Primitives}.

(** The HKDF [info] of [derive_group_key]:
    [f"group:{group_id}:tx:{tx_id}".encode('utf-8')]. *)
Definition group_key_info (group_id tx_id : string) : bytes :=
  utf8_encode ("group:" ++ group_id ++ ":tx:" ++ tx_id).

(** No [':'] occurs in the string. *)
Definition colon_free (s : string) : bool :=
  forallb (fun c => negb (Ascii.eqb c ":"%char)) (lit s).

End InfoDefs.

(** ** Byte strings as numbers

    Little-endian, for counting how many byte strings of a length there
    are. *)
Fixpoint number_of_bytes (l : bytes) : N :=
  match l with
  | [] => 0%N
  | x :: l' => (Byte.to_N x + 256 * number_of_bytes l')%N
  end.

Fixpoint bytes_of_number (len : nat) (v : N) : bytes :=
  match len with
  | O => []
  | S len' => byte_of_N (v mod 256) :: bytes_of_number len' (v / 256)
  end.

(* ================================================================== *)
(** * Part V. Lemmas and theorems *)
(* ================================================================== *)

Unset Implicit Arguments.

Ltac divlia := zify; Z.to_euclidean_division_equations; lia.

(** The wrappers are reasoned about through their lemmas, not unfolded
    by [simpl]. *)
Arguments py_b64decode : simpl never.
Arguments b64text : simpl never.
Arguments key32 : simpl never.
Arguments AESGCM : simpl never.
Arguments encrypt_aes_gcm : simpl never.
Arguments decrypt_aes_gcm : simpl never.
Arguments wrap_key_x25519 : simpl never.
Arguments unwrap_key_x25519 : simpl never.
Arguments get_encryption_public_key : simpl never.
Arguments get_signing_public_key : simpl never.
Arguments json_dumps_sorted : simpl never.
Arguments json_loads : simpl never.
Arguments utf8_encode : simpl never.
Arguments utf8_decode : simpl never.
Arguments py_str : simpl never.

(** ** Bytes *)

Lemma byte_of_to_N (b : byte) : byte_of_N (Byte.to_N b) = b.
Proof. unfold byte_of_N. now rewrite Byte.of_to_N. Qed.

Lemma to_N_lt (b : byte) : (Byte.to_N b < 256)%N.
Proof. pose proof (Byte.to_N_bounded b). lia. Qed.

Lemma to_byte_of_N (n : N) : (n < 256)%N -> Byte.to_N (byte_of_N n) = n.
Proof.
  intros Hn. unfold byte_of_N.
  destruct (Byte.of_N n) as [b|] eqn:E.
  - now apply Byte.to_of_N.
  - apply Byte.of_N_None_iff in E. lia.
Qed.

Lemma urandom_length (n : nat) (w : world) b w' :
  urandom n w = (Returns b, w') -> List.length b = n.
Proof.
  unfold urandom. intros H. inversion H; subst.
  now rewrite length_map, length_seq.
Qed.

(** ** The reference instance satisfies the contracts *)

Module Base64Facts.
Import Base64.
Local Open Scope N_scope.

Lemma sextet_alphabet (n : N) : n < 64 -> sextet (alphabet n) = Some n.
Proof.
  intros Hn.
  destruct n as [|p]; [reflexivity|].
  do 7 (destruct p as [p|p|]; try reflexivity; try lia).
Qed.

Lemma alphabet_not_pad (n : N) : n < 64 -> Ascii.eqb (alphabet n) pad_char = false.
Proof.
  intros Hn.
  destruct n as [|p]; [reflexivity|].
  do 7 (destruct p as [p|p|]; try reflexivity; try lia).
Qed.

Lemma decode_encode_bounded (k : nat) :
  forall b : bytes, (List.length b <= k)%nat -> decode (encode b) = Some b.
Proof.
  induction k as [|k IH]; intros b Hk.
  - destruct b; [reflexivity | simpl in Hk; lia].
  - destruct b as [|x [|y [|z rest]]]; [reflexivity | | | ].
    + cbn [encode decode].
      pose proof (to_N_lt x) as Hx. set (X := Byte.to_N x) in *.
      rewrite !sextet_alphabet by divlia. cbn [Ascii.eqb pad_char].
      replace (Ascii.eqb "=" "=") with true by reflexivity.
      replace (X / 4 * 4 + X mod 4 * 16 / 16) with X by divlia.
      subst X. now rewrite byte_of_to_N.
    + cbn [encode decode].
      pose proof (to_N_lt x) as Hx. set (X := Byte.to_N x) in *.
      pose proof (to_N_lt y) as Hy. set (Y := Byte.to_N y) in *.
      rewrite !sextet_alphabet by divlia.
      replace (Ascii.eqb pad_char pad_char) with true by reflexivity.
      rewrite alphabet_not_pad by divlia.
      replace (X / 4 * 4 + (X mod 4 * 16 + Y / 16) / 16) with X by divlia.
      replace ((X mod 4 * 16 + Y / 16) mod 16 * 16 + Y mod 16 * 4 / 4) with Y by divlia.
      subst X Y. now rewrite !byte_of_to_N.
    + cbn [encode decode].
      pose proof (to_N_lt x) as Hx. set (X := Byte.to_N x) in *.
      pose proof (to_N_lt y) as Hy. set (Y := Byte.to_N y) in *.
      pose proof (to_N_lt z) as Hz. set (Z := Byte.to_N z) in *.
      rewrite !sextet_alphabet by divlia.
      rewrite alphabet_not_pad by divlia.
      rewrite IH by (simpl in Hk; lia).
      replace (X / 4 * 4 + (X mod 4 * 16 + Y / 16) / 16) with X by divlia.
      replace ((X mod 4 * 16 + Y / 16) mod 16 * 16 + (Y mod 16 * 4 + Z / 64) / 4)
        with Y by divlia.
      replace ((Y mod 16 * 4 + Z / 64) mod 4 * 64 + Z mod 64) with Z by divlia.
      subst X Y Z. now rewrite !byte_of_to_N.
Qed.

Lemma decode_encode (b : bytes) : decode (encode b) = Some b.
Proof. apply (decode_encode_bounded (List.length b)). lia. Qed.

End Base64Facts.

Module StandInFacts.
Import StandIn.

Lemma byte_add_comm (a b : byte) : byte_add a b = byte_add b a.
Proof. unfold byte_add. now rewrite N.add_comm. Qed.

Lemma byte_add_cancel (c x y : byte) : byte_add c x = byte_add c y -> x = y.
Proof.
  unfold byte_add. intros H.
  apply (f_equal Byte.to_N) in H.
  pose proof (to_N_lt c). pose proof (to_N_lt x). pose proof (to_N_lt y).
  rewrite !to_byte_of_N in H by divlia.
  rewrite <- (byte_of_to_N x), <- (byte_of_to_N y). f_equal. divlia.
Qed.

Lemma public_key_length base sk : List.length (public_key base sk) = List.length sk.
Proof. apply length_map. Qed.

Lemma zip_add_comm : forall a b, zip_add a b = zip_add b a.
Proof.
  induction a as [|x a IH]; destruct b as [|y b]; simpl; try reflexivity.
  now rewrite byte_add_comm, IH.
Qed.

Lemma zip_add_length : forall a b,
  List.length a = List.length b -> List.length (zip_add a b) = List.length a.
Proof.
  induction a as [|x a IH]; destruct b as [|y b]; simpl; intros H;
    try discriminate; try reflexivity.
  now rewrite IH by congruence.
Qed.

Lemma zip_add_cancel_l : forall c a b,
  List.length a = List.length c -> List.length b = List.length c ->
  zip_add c a = zip_add c b -> a = b.
Proof.
  induction c as [|x c IH]; intros [|y a] [|z b]; simpl; intros Ha Hb H;
    try discriminate; try reflexivity.
  inversion H as [[H1 H2]].
  apply byte_add_cancel in H1. subst z. f_equal.
  apply IH; congruence.
Qed.

Lemma zip_add_cancel_r a b c :
  List.length a = List.length c -> List.length b = List.length c ->
  zip_add a c = zip_add b c -> a = b.
Proof.
  intros Ha Hb. rewrite (zip_add_comm a), (zip_add_comm b).
  now apply zip_add_cancel_l.
Qed.

Lemma pad32_length b : List.length (pad32 b) = 32.
Proof.
  unfold pad32. rewrite length_firstn, length_app, repeat_length. lia.
Qed.

Lemma pad32_id b : List.length b = 32 -> pad32 b = b.
Proof.
  intros H. unfold pad32. rewrite <- H at 1.
  now rewrite firstn_app, firstn_all, Nat.sub_diag, firstn_0, app_nil_r.
Qed.

Lemma bytes_eqb_refl : forall b, bytes_eqb b b = true.
Proof.
  induction b as [|x b IH]; simpl; [reflexivity|].
  now rewrite (Byte.byte_dec_lb (eq_refl x)), IH.
Qed.

Lemma strip_app : forall p b, strip p (p ++ b) = Some b.
Proof.
  induction p as [|x p IH]; intros b; simpl; [reflexivity|].
  now rewrite (Byte.byte_dec_lb (eq_refl x)).
Qed.

Lemma strip_prefix_eq : forall p q b r,
  List.length p = List.length q -> strip p (q ++ b) = Some r -> p = q.
Proof.
  induction p as [|x p IH]; intros [|y q] b r Hl H; simpl in *;
    try discriminate; try reflexivity.
  destruct (Byte.eqb x y) eqn:E; [|discriminate].
  apply Byte.byte_dec_bl in E. subst y. f_equal.
  apply (IH q b r); congruence.
Qed.

End StandInFacts.

Lemma reference_laws : PrimitiveLaws reference.
Proof.
  constructor; simpl.
  - intros b. rewrite list_ascii_of_string_of_list_ascii.
    apply Base64Facts.decode_encode.
  - intros sk H. now rewrite StandInFacts.public_key_length.
  - intros sk m H. unfold StandIn.verify, StandIn.sign.
    apply StandInFacts.bytes_eqb_refl.
  - intros sk H. now rewrite StandInFacts.public_key_length.
  - intros a b Ha Hb.
    exists (StandIn.zip_add (StandIn.public_key x09 a) (StandIn.public_key x09 b)).
    unfold StandIn.exchange.
    rewrite !StandInFacts.public_key_length, Ha, Hb. simpl.
    repeat split.
    + rewrite StandInFacts.zip_add_length;
        rewrite !StandInFacts.public_key_length; congruence.
    + now rewrite StandInFacts.zip_add_comm.
  - intros info ikm. unfold StandIn.hkdf.
    rewrite StandInFacts.zip_add_length; rewrite !StandInFacts.pad32_length; reflexivity.
  - intros k n pt _ _. unfold StandIn.open, StandIn.seal.
    rewrite app_assoc. apply StandInFacts.strip_app.
Qed.


(** ** Running the primitives' wrappers *)

Section Wrapping.

Context {P : Primitives} {L : PrimitiveLaws P}.

Lemma draw_length w n : List.length (draw w n) = n.
Proof. unfold draw. now rewrite length_map, length_seq. Qed.

Lemma urandom_run n w : urandom n w = (Returns (draw w n), advance w n).
Proof. reflexivity. Qed.

Lemma later_refl w : later w w.
Proof. split; [reflexivity|]. exists []. now rewrite app_nil_r. Qed.

Lemma later_trans w1 w2 w3 : later w1 w2 -> later w2 w3 -> later w1 w3.
Proof.
  intros [E1 [o1 H1]] [E2 [o2 H2]]. split; [congruence|].
  exists (o1 ++ o2). now rewrite H2, H1, app_assoc.
Qed.

Lemma later_advance w n : later w (advance w n).
Proof. split; [reflexivity|]. exists []. simpl. now rewrite app_nil_r. Qed.

Lemma later_print w m r w' : print m w = (r, w') -> later w w' /\ In m (stdout w').
Proof.
  unfold print. intros H. inversion H; subst; simpl. repeat split.
  - now exists [m].
  - apply in_or_app. right. now left.
Qed.

Lemma later_In w w' m : later w w' -> In m (stdout w) -> In m (stdout w').
Proof. intros [_ [o H]] Hin. rewrite H. apply in_or_app. now left. Qed.

Lemma py_b64decode_b64text b : py_b64decode (b64text b) = Returns b.
Proof. unfold py_b64decode, b64text. now rewrite b64_roundtrip. Qed.

Lemma AESGCM_32 key : List.length key = 32 -> AESGCM key = Returns tt.
Proof. intros H. unfold AESGCM. now rewrite H. Qed.

Lemma key32_ok b : List.length b = 32 -> key32 b = Returns b.
Proof. intros H. unfold key32. now rewrite H. Qed.

Lemma key32_inv b k : key32 b = Returns k -> k = b /\ List.length b = 32.
Proof.
  unfold key32. destruct (Nat.eqb_spec (List.length b) 32); intros H;
    inversion H; subst; auto.
Qed.

Lemma encrypt_run key plaintext w :
  List.length key = 32 ->
  encrypt_aes_gcm key plaintext w = (Returns (sealed key (draw w 12) plaintext), advance w 12).
Proof.
  intros H. unfold encrypt_aes_gcm, sbind, lift. now rewrite (AESGCM_32 _ H).
Qed.

Lemma decrypt_sealed key nonce plaintext :
  List.length key = 32 -> List.length nonce = 12 ->
  decrypt_aes_gcm key (sealed key nonce plaintext) = Returns plaintext.
Proof.
  intros Hk Hn. unfold decrypt_aes_gcm, sealed.
  rewrite (AESGCM_32 _ Hk). simpl. rewrite !py_b64decode_b64text. simpl.
  now rewrite aesgcm_roundtrip.
Qed.

Lemma wrap_run pk payload w s :
  x25519_exchange (draw w 32) pk = Some s ->
  wrap_key_x25519 pk payload w =
    (Returns (envelope (draw w 32) s (draw (advance w 32) 12) payload),
     advance (advance w 32) 12).
Proof.
  intros H. unfold wrap_key_x25519, sbind, lift, sret, exchange.
  rewrite urandom_run, H, encrypt_run by apply hkdf_length. reflexivity.
Qed.

Lemma wrap_honest pk payload w :
  honest_x25519 pk ->
  exists env, wrap_key_x25519 pk payload w = (Returns env, advance (advance w 32) 12) /\
              is_envelope_for pk payload env.
Proof.
  intros [sk [Hsk ->]].
  destruct (x25519_agreement (draw w 32) sk (draw_length _ _) Hsk) as [s [_ [Hs _]]].
  eexists. split; [apply (wrap_run _ _ _ _ Hs)|].
  exists (draw w 32), s, (draw (advance w 32) 12).
  repeat split; auto using draw_length.
Qed.

Lemma unwrap_envelope r payload env :
  List.length r = 32 ->
  is_envelope_for (x25519_public_key r) payload env ->
  unwrap_key_x25519 r env = Returns payload.
Proof.
  intros Hr [e [s [n [He [Hn [Hs ->]]]]]].
  destruct (x25519_agreement e r He Hr) as [s' [_ [Hs1 Hs2]]].
  assert (s' = s) by congruence. subst s'.
  unfold unwrap_key_x25519, envelope, exchange. simpl.
  rewrite py_b64decode_b64text. simpl.
  rewrite key32_ok by now apply x25519_public_length. simpl.
  rewrite Hs2. simpl.
  apply decrypt_sealed; [apply hkdf_length | assumption].
Qed.


End Wrapping.

(** ** Key wrapping *)



(** *** Why a mismatching key is not always refused *)

Section Counting.

Local Open Scope N_scope.

Lemma pigeonhole : forall b a (g : N -> N),
  (forall x, x < a -> g x < b) ->
  (forall x y, x < a -> y < a -> g x = g y -> x = y) ->
  a <= b.
Proof.
  induction b as [|b IH] using N.peano_ind; intros a g Hr Hi.
  - destruct (N.eq_0_gt_0_cases a) as [->|Ha]; [lia|].
    specialize (Hr 0 Ha). lia.
  - destruct (N.eq_0_gt_0_cases a) as [->|Ha]; [lia|].
    set (a' := N.pred a).
    assert (Ea : a = N.succ a') by (unfold a'; lia).
    cut (a' <= b); [lia|].
    apply (IH a' (fun x => if g x =? N.succ b - 1 then g a' else g x)).
    + intros x Hx.
      assert (Hgx : g x < N.succ b) by (apply Hr; lia).
      assert (Hga : g a' < N.succ b) by (apply Hr; lia).
      destruct (N.eqb_spec (g x) (N.succ b - 1)) as [E|E]; [|lia].
      assert (g a' <> g x) by (intros E'; apply Hi in E'; lia).
      lia.
    + intros x y Hx Hy.
      assert (Hax : g a' <> g x) by (intros E'; apply Hi in E'; lia).
      assert (Hay : g a' <> g y) by (intros E'; apply Hi in E'; lia).
      destruct (N.eqb_spec (g x) (N.succ b - 1)) as [Ex|Ex];
        destruct (N.eqb_spec (g y) (N.succ b - 1)) as [Ey|Ey]; intros E.
      * apply Hi; lia.
      * congruence.
      * exfalso. apply Hay. congruence.
      * apply Hi; lia.
Qed.

Lemma number_of_bytes_lt : forall l, number_of_bytes l < 256 ^ N.of_nat (List.length l).
Proof.
  induction l as [|x l IH]; [simpl; lia|].
  change (number_of_bytes (x :: l)) with (Byte.to_N x + 256 * number_of_bytes l).
  change (List.length (x :: l)) with (S (List.length l)).
  rewrite Nnat.Nat2N.inj_succ, N.pow_succ_r'.
  pose proof (to_N_lt x). lia.
Qed.

Lemma number_of_bytes_inj : forall l1 l2,
  List.length l1 = List.length l2 -> number_of_bytes l1 = number_of_bytes l2 -> l1 = l2.
Proof.
  induction l1 as [|x l1 IH]; intros [|y l2] Hl H; try discriminate; [reflexivity|].
  change (Byte.to_N x + 256 * number_of_bytes l1 = Byte.to_N y + 256 * number_of_bytes l2) in H.
  pose proof (to_N_lt x). pose proof (to_N_lt y).
  assert (Hxy : Byte.to_N x = Byte.to_N y) by lia.
  assert (Hn : number_of_bytes l1 = number_of_bytes l2) by lia.
  f_equal.
  - rewrite <- (byte_of_to_N x), <- (byte_of_to_N y). now rewrite Hxy.
  - apply IH; [now inversion Hl | exact Hn].
Qed.

Lemma bytes_of_number_length : forall len v, List.length (bytes_of_number len v) = len.
Proof. induction len as [|len IH]; intros v; simpl; [reflexivity | now rewrite IH]. Qed.

Lemma number_of_bytes_of_number : forall len v,
  v < 256 ^ N.of_nat len -> number_of_bytes (bytes_of_number len v) = v.
Proof.
  induction len as [|len IH]; intros v Hv.
  - simpl in *. lia.
  - rewrite Nnat.Nat2N.inj_succ, N.pow_succ_r' in Hv.
    change (Byte.to_N (byte_of_N (v mod 256))
            + 256 * number_of_bytes (bytes_of_number len (v / 256)) = v).
    rewrite to_byte_of_N by (apply N.mod_lt; lia).
    rewrite IH by (apply N.Div0.div_lt_upper_bound; lia).
    pose proof (N.div_mod v 256). lia.
Qed.

(** No function sends the byte strings of one length one-to-one to
    those of a shorter length. *)
Lemma no_injection_to_shorter (m n : nat) (F : bytes -> bytes) :
  (n < m)%nat ->
  (forall l, List.length l = m -> List.length (F l) = n) ->
  (forall l1 l2, List.length l1 = m -> List.length l2 = m -> F l1 = F l2 -> l1 = l2) ->
  False.
Proof.
  intros Hnm Hlen Hinj.
  assert (H : 256 ^ N.of_nat m <= 256 ^ N.of_nat n).
  { apply (pigeonhole _ _ (fun v => number_of_bytes (F (bytes_of_number m v)))).
    - intros x Hx. rewrite <- (Hlen (bytes_of_number m x)) by apply bytes_of_number_length.
      apply number_of_bytes_lt.
    - intros x y Hx Hy E.
      apply number_of_bytes_inj in E;
        [|now rewrite !Hlen by apply bytes_of_number_length].
      apply Hinj in E; try apply bytes_of_number_length.
      rewrite <- (number_of_bytes_of_number m x Hx), <- (number_of_bytes_of_number m y Hy).
      now rewrite E. }
  assert (256 ^ N.of_nat n < 256 ^ N.of_nat m) by (apply N.pow_lt_mono_r; lia).
  lia.
Qed.

End Counting.

Section NoCommitment.

Context {P : Primitives} {L : PrimitiveLaws P}.

(** An AEAD whose ciphertext is 16 bytes longer than the plaintext, as
    AES-GCM's is, cannot make [decrypt_aes_gcm] fail under every key
    but the one that encrypted: for 32-byte keys and payloads there are
    more (key, payload) pairs than ciphertexts. *)
Lemma decrypt_accepts_another_key :
  (forall k n pt, List.length (aesgcm_encrypt k n pt) = List.length pt + 16) ->
  ~ (forall k k' n pt,
       List.length k = 32 -> List.length k' = 32 -> List.length n = 12 ->
       List.length pt = 32 -> k <> k' ->
       decrypt_aes_gcm k' (sealed k n pt) = Raises CryptoError).
Proof.
  intros Hlen Hcommit.
  set (n0 := repeat x00 12).
  assert (Hn0 : List.length n0 = 12) by apply repeat_length.
  assert (Hdec : forall k k' pt, List.length k' = 32 ->
            decrypt_aes_gcm k' (sealed k n0 pt) =
              match aesgcm_decrypt k' n0 (aesgcm_encrypt k n0 pt) with
              | Some p => Returns p
              | None => Raises CryptoError
              end).
  { intros k k' pt Hk'. unfold decrypt_aes_gcm, sealed.
    rewrite AESGCM_32 by assumption. simpl.
    rewrite !py_b64decode_b64text. reflexivity. }
  apply (no_injection_to_shorter 64 48
           (fun l => aesgcm_encrypt (firstn 32 l) n0 (skipn 32 l))); [lia| |].
  - intros l Hl. rewrite Hlen, length_skipn. lia.
  - intros l1 l2 Hl1 Hl2 E.
    assert (Hk1 : List.length (firstn 32 l1) = 32) by (rewrite length_firstn; lia).
    assert (Hk2 : List.length (firstn 32 l2) = 32) by (rewrite length_firstn; lia).
    assert (Hp1 : List.length (skipn 32 l1) = 32) by (rewrite length_skipn; lia).
    assert (Ek : firstn 32 l1 = firstn 32 l2).
    { destruct (list_eq_dec Byte.byte_eq_dec (firstn 32 l1) (firstn 32 l2)) as [Ek|Nk];
        [exact Ek|exfalso].
      pose proof (Hcommit _ _ n0 (skipn 32 l1) Hk1 Hk2 Hn0 Hp1 Nk) as Hc.
      rewrite Hdec in Hc by assumption.
      rewrite E, aesgcm_roundtrip in Hc by assumption. discriminate. }
    assert (Ep : skipn 32 l1 = skipn 32 l2).
    { pose proof (aesgcm_roundtrip (firstn 32 l1) n0 (skipn 32 l1) Hk1 Hn0) as R1.
      pose proof (aesgcm_roundtrip (firstn 32 l2) n0 (skipn 32 l2) Hk2 Hn0) as R2.
      cbv beta in E. rewrite E, Ek in R1. congruence. }
    transitivity (firstn 32 l1 ++ skipn 32 l1); [symmetry; apply firstn_skipn|].
    rewrite Ek, Ep. apply firstn_skipn.
Qed.

End NoCommitment.


(** ** [protect]: validation of the plaintext *)

Section Validation.

Context {P : Primitives}.

Lemma require_fields_present fields T :
  (forall f, In f fields -> dict_mem T f = true) ->
  require_fields fields T = Returns tt.
Proof.
  induction fields as [|f fs IH]; intros H; simpl; [reflexivity|].
  rewrite (H f) by now left. apply IH. intros g Hg. apply H. now right.
Qed.

(** The field reported is the first one, in the order of
    [required_fields], that the plaintext lacks. *)
Lemma require_fields_absent fields T :
  (exists f, In f fields /\ dict_mem T f = false) ->
  exists pre f post,
    fields = pre ++ f :: post /\
    (forall g, In g pre -> dict_mem T g = true) /\
    dict_mem T f = false /\
    require_fields fields T = Raises (ProtectionError (MissingRequiredField f)).
Proof.
  induction fields as [|f fs IH]; intros [g [Hin Hg]]; [destruct Hin|].
  simpl. destruct (dict_mem T f) eqn:E.
  - destruct IH as [pre [f' [post [-> [Hpre [Hf' Hr]]]]]].
    { destruct Hin as [->|Hin]; [congruence|]. now exists g. }
    exists (f :: pre), f', post. repeat split; auto.
    intros h [<-|Hh]; auto.
  - exists [], f, fs. repeat split; auto; intros h [].
Qed.

Lemma dict_mem_lookup T f : dict_mem T f = true -> exists v, dict_lookup T f = Some v.
Proof. unfold dict_mem. destruct (dict_lookup T f) as [v|]; [now exists v | discriminate]. Qed.

End Validation.

(** C6. [protect] raises [ProtectionError "Missing required field"]
    when a required field is absent (naming the first absent one), and
    [ProtectionError "Seller/Buyer name mismatch"] when the fields are
    all present and [plaintext.seller] (resp. [plaintext.buyer]) is not
    the argument; whenever a field is absent or a name differs, the call
    raises a [ProtectionError], returns no document, and leaves the
    world (randomness, output) untouched. *)
Theorem protect_rejects_invalid_plaintext (P : Primitives) :
  forall (T : pydict) (seller buyer : string) (km : KeyManager)
         (store : PublicKeyStore) (recipients groups : option (list string))
         (server : group_server) (w : world),
    let run := protect T seller buyer km store recipients groups server w in
    ((exists f, In f required_fields /\ dict_mem T f = false) ->
     exists f, In f required_fields /\ dict_mem T f = false /\
               run = (Raises (ProtectionError (MissingRequiredField f)), w)) /\
    ((forall f, In f required_fields -> dict_mem T f = true) ->
     forall v, dict_lookup T "seller" = Some v -> eq_str v seller = false ->
               run = (Raises (ProtectionError (SellerNameMismatch seller v)), w)) /\
    ((forall f, In f required_fields -> dict_mem T f = true) ->
     dict_lookup T "seller" = Some (VStr seller) ->
     forall v, dict_lookup T "buyer" = Some v -> eq_str v buyer = false ->
               run = (Raises (ProtectionError (BuyerNameMismatch buyer v)), w)) /\
    ((exists f, In f required_fields /\ dict_mem T f = false) \/
     dict_lookup T "seller" <> Some (VStr seller) \/
     dict_lookup T "buyer" <> Some (VStr buyer) ->
     exists m, run = (Raises (ProtectionError m), w)).
Proof.
  intros T seller buyer km store recipients groups server w run.
  assert (Hmissing :
    (exists f, In f required_fields /\ dict_mem T f = false) ->
    exists f, In f required_fields /\ dict_mem T f = false /\
              run = (Raises (ProtectionError (MissingRequiredField f)), w)).
  { intros H. destruct (require_fields_absent _ _ H) as [pre [f [post [E [_ [Hf Hr]]]]]].
    exists f. repeat split; auto.
    - rewrite E. apply in_or_app. right. now left.
    - unfold run, protect, sbind, lift. now rewrite Hr. }
  assert (Hseller :
    (forall f, In f required_fields -> dict_mem T f = true) ->
    forall v, dict_lookup T "seller" = Some v -> eq_str v seller = false ->
              run = (Raises (ProtectionError (SellerNameMismatch seller v)), w)).
  { intros Hall v Hv Hne. unfold run, protect, sbind, lift.
    rewrite (require_fields_present _ _ Hall). simpl. now rewrite Hv, Hne. }
  assert (Hbuyer :
    (forall f, In f required_fields -> dict_mem T f = true) ->
    dict_lookup T "seller" = Some (VStr seller) ->
    forall v, dict_lookup T "buyer" = Some v -> eq_str v buyer = false ->
              run = (Raises (ProtectionError (BuyerNameMismatch buyer v)), w)).
  { intros Hall Hs v Hv Hne. unfold run, protect, sbind, lift.
    rewrite (require_fields_present _ _ Hall). simpl.
    rewrite Hs. simpl. rewrite String.eqb_refl. simpl. now rewrite Hv, Hne. }
  repeat split; auto.
  intros H.
  destruct (forallb (dict_mem T) required_fields) eqn:Hall.
  - rewrite forallb_forall in Hall.
    destruct (dict_mem_lookup T "seller") as [vs Hvs]; [apply Hall; simpl; tauto|].
    destruct (dict_mem_lookup T "buyer") as [vb Hvb]; [apply Hall; simpl; tauto|].
    destruct (eq_str vs seller) eqn:Es.
    + assert (vs = VStr seller) as ->.
      { destruct vs; try discriminate. simpl in Es.
        apply String.eqb_eq in Es. now subst. }
      destruct (eq_str vb buyer) eqn:Eb.
      * assert (vb = VStr buyer) as ->.
        { destruct vb; try discriminate. simpl in Eb.
          apply String.eqb_eq in Eb. now subst. }
        exfalso. destruct H as [[f [Hf Hm]]|[H|H]]; try contradiction.
        rewrite (Hall f Hf) in Hm. discriminate.
      * eexists. eapply Hbuyer; eauto.
    + eexists. eapply Hseller; eauto.
  - assert (Hex : exists f, In f required_fields /\ dict_mem T f = false).
    { apply not_true_iff_false in Hall.
      rewrite forallb_forall in Hall.
      clear -Hall. induction required_fields as [|f fs IH].
      - exfalso. apply Hall. intros x [].
      - destruct (dict_mem T f) eqn:E.
        + destruct IH as [g [Hg Hm]].
          { intros Hfs. apply Hall. intros x [<-|Hx]; auto. }
          exists g. split; [now right | assumption].
        + exists f. split; [now left | assumption]. }
    destruct (Hmissing Hex) as [f [_ [_ Hr]]]. eexists. exact Hr.
Qed.

(** On the demonstration deployment: a plaintext with only [id], a wrong
    seller name, a wrong buyer name. *)
Lemma protect_rejects_invalid_plaintext_witness :
  (exists f, In f required_fields /\
     dict_mem [("id"%string, VInt 123)] f = false /\
     @protect reference [("id"%string, VInt 123)] Demo.seller_co Demo.buyer_co
       Demo.key_manager Demo.public_key_store None None Demo.server Demo.boot
       = (Raises (ProtectionError (MissingRequiredField f)), Demo.boot)) /\
  @protect reference Demo.transaction "Mallory" Demo.buyer_co
    Demo.key_manager Demo.public_key_store None None Demo.server Demo.boot
    = (Raises (ProtectionError (SellerNameMismatch "Mallory" (VStr Demo.seller_co))),
       Demo.boot) /\
  @protect reference Demo.transaction Demo.seller_co "Mallory"
    Demo.key_manager Demo.public_key_store None None Demo.server Demo.boot
    = (Raises (ProtectionError (BuyerNameMismatch "Mallory" (VStr Demo.buyer_co))),
       Demo.boot).
Proof.
  split; [|split].
  - pose proof (protect_rejects_invalid_plaintext reference
                  [("id"%string, VInt 123)] Demo.seller_co Demo.buyer_co
                  Demo.key_manager Demo.public_key_store None None Demo.server Demo.boot)
      as H.
    cbv zeta in H. destruct H as [H _]. apply H.
    exists "timestamp"%string. split; [simpl; tauto | reflexivity].
  - pose proof (protect_rejects_invalid_plaintext reference
                  Demo.transaction "Mallory"%string Demo.buyer_co
                  Demo.key_manager Demo.public_key_store None None Demo.server Demo.boot)
      as H.
    cbv zeta in H. destruct H as [_ [H _]]. apply H.
    + intros f Hf. simpl in Hf. decompose [or] Hf; subst; try reflexivity. contradiction.
    + reflexivity.
    + reflexivity.
  - pose proof (protect_rejects_invalid_plaintext reference
                  Demo.transaction Demo.seller_co "Mallory"%string
                  Demo.key_manager Demo.public_key_store None None Demo.server Demo.boot)
      as H.
    cbv zeta in H. destruct H as [_ [_ [H _]]]. apply H.
    + intros f Hf. simpl in Hf. decompose [or] Hf; subst; try reflexivity. contradiction.
    + reflexivity.
    + reflexivity.
    + reflexivity.
Defined.

(** ** Dictionaries *)

Lemma dict_lookup_set_eq d k v : dict_lookup (dict_set d k v) k = Some v.
Proof.
  induction d as [|[k' v'] d IH]; simpl.
  - now rewrite String.eqb_refl.
  - destruct (String.eqb k' k) eqn:E; simpl.
    + now rewrite String.eqb_refl.
    + now rewrite E.
Qed.

Lemma dict_lookup_set_ne d k v k' :
  k' <> k -> dict_lookup (dict_set d k v) k' = dict_lookup d k'.
Proof.
  intros Hne. induction d as [|[k0 v0] d IH]; simpl.
  - destruct (String.eqb_spec k k'); [congruence | reflexivity].
  - destruct (String.eqb_spec k0 k) as [->|Hk]; simpl.
    + destruct (String.eqb_spec k k'); [congruence | reflexivity].
    + destruct (String.eqb_spec k0 k'); [reflexivity | apply IH].
Qed.

Lemma dict_keys_set_present d k v :
  dict_mem d k = true -> dict_keys (dict_set d k v) = dict_keys d.
Proof.
  unfold dict_mem, dict_keys. induction d as [|[k0 v0] d IH]; simpl; [discriminate|].
  destruct (String.eqb_spec k0 k) as [->|Hk]; simpl; [reflexivity|].
  intros H. f_equal. now apply IH.
Qed.

Lemma dict_mem_set d k v k' :
  dict_mem (dict_set d k v) k' = (String.eqb k k' || dict_mem d k')%bool.
Proof.
  unfold dict_mem. destruct (String.eqb_spec k k') as [->|Hne].
  - now rewrite dict_lookup_set_eq.
  - rewrite dict_lookup_set_ne by congruence. reflexivity.
Qed.

Lemma dict_lookup_In d k v : dict_lookup d k = Some v -> In (k, v) d.
Proof.
  induction d as [|[k0 v0] d IH]; simpl; [discriminate|].
  destruct (String.eqb_spec k0 k) as [->|Hk].
  - intros H. inversion H. now left.
  - intros H. right. now apply IH.
Qed.

Lemma dict_set_Forall (Q : string * value -> Prop) d k v :
  Forall Q d -> Q (k, v) -> Forall Q (dict_set d k v).
Proof.
  intros Hd Hv. induction Hd as [|[k0 v0] d H0 Hd IH]; simpl.
  - now constructor.
  - destruct (String.eqb k0 k); constructor; auto.
Qed.

(** ** [buyer_sign] *)

Lemma buyer_sign_returns_iff (P : Primitives) doc buyer km doc' :
  buyer_sign doc buyer km = Returns doc' <->
  exists d sigs h tx_hash sk,
    doc = VDict d /\
    dict_lookup d "transaction_hash" = Some (VStr h) /\
    b64decode h = Some tx_hash /\
    dict_lookup d "signatures" = Some (VDict sigs) /\
    load_signing_private_key km buyer = Returns sk /\
    doc' = with_buyer_slot d sigs (buyer_entry buyer sk tx_hash).
Proof.
  split.
  - unfold buyer_sign. destruct doc as [| | | | |d]; simpl; try discriminate.
    destruct (dict_lookup d "transaction_hash") as [hv|] eqn:Eh; simpl; [|discriminate].
    unfold py_b64decode at 1.
    destruct hv as [| | |h| |]; simpl; try discriminate.
    destruct (b64decode h) as [tx_hash|] eqn:Ed; simpl; [|discriminate].
    destruct (load_signing_private_key km buyer) as [sk|] eqn:Ek; simpl; [|discriminate].
    destruct (dict_lookup d "signatures") as [sv|] eqn:Es; simpl; [|discriminate].
    destruct sv as [| | | | |sigs]; simpl; try discriminate.
    intros H. inversion H; subst.
    exists d, sigs, h, tx_hash, sk. repeat split; auto.
  - intros [d [sigs [h [tx_hash [sk [-> [Eh [Ed [Es [Ek ->]]]]]]]]]].
    unfold buyer_sign. simpl. rewrite Eh. simpl.
    unfold py_b64decode at 1. rewrite Ed. simpl. rewrite Ek. simpl.
    rewrite Es. reflexivity.
Qed.

(** C9. [buyer_sign] returns exactly when the document is a dictionary
    whose [transaction_hash] decodes, whose [signatures] is a
    dictionary, and the buyer's signing key loads; the document returned
    is the given one with [signatures.buyer] set to the buyer's name and
    its Ed25519 signature over the decoded [transaction_hash].  Every
    other top-level field (version, transaction_id,
    encrypted_transaction, transaction_hash, wrapped_keys,
    group_wrapped_keys) and every other entry of [signatures] (the
    seller's) is unchanged, and no field is added when the buyer slot
    exists.  A buyer signature already present does not matter: signing
    a signed document succeeds and the new entry replaces the old. *)
Theorem buyer_sign_frame (P : Primitives) :
  forall (doc : value) (buyer : string) (km : KeyManager),
    (forall doc',
       buyer_sign doc buyer km = Returns doc' <->
       exists d sigs h tx_hash sk,
         doc = VDict d /\
         dict_lookup d "transaction_hash" = Some (VStr h) /\
         b64decode h = Some tx_hash /\
         dict_lookup d "signatures" = Some (VDict sigs) /\
         load_signing_private_key km buyer = Returns sk /\
         doc' = with_buyer_slot d sigs (buyer_entry buyer sk tx_hash)) /\
    (forall d sigs entry,
       dict_lookup d "signatures" = Some (VDict sigs) ->
       (forall k, k <> "signatures"%string ->
          py_getitem (with_buyer_slot d sigs entry) k = py_getitem (VDict d) k) /\
       (forall k, k <> "buyer"%string ->
          dict_lookup (dict_set sigs "buyer" entry) k = dict_lookup sigs k) /\
       dict_lookup (dict_set sigs "buyer" entry) "buyer" = Some entry /\
       py_getitem (with_buyer_slot d sigs entry) "signatures"
         = Returns (VDict (dict_set sigs "buyer" entry)) /\
       py_items (with_buyer_slot d sigs entry)
         = Returns (dict_set d "signatures" (VDict (dict_set sigs "buyer" entry))) /\
       dict_keys (dict_set d "signatures" (VDict (dict_set sigs "buyer" entry)))
         = dict_keys d /\
       (dict_mem sigs "buyer" = true ->
          dict_keys (dict_set sigs "buyer" entry) = dict_keys sigs)) /\
    (forall doc1 buyer2 km2 sk2,
       buyer_sign doc buyer km = Returns doc1 ->
       load_signing_private_key km2 buyer2 = Returns sk2 ->
       exists doc2 sigs2 entry2,
         buyer_sign doc1 buyer2 km2 = Returns doc2 /\
         py_getitem doc2 "signatures" = Returns (VDict sigs2) /\
         dict_lookup sigs2 "buyer" = Some entry2 /\
         py_getitem entry2 "company" = Returns (VStr buyer2)).
Proof.
  intros doc buyer km.
  pose proof (buyer_sign_returns_iff P doc buyer km) as Hiff.
  split; [exact Hiff|]. split.
  - intros d sigs entry Hs. unfold with_buyer_slot. simpl. repeat split.
    + intros k Hk. now rewrite dict_lookup_set_ne.
    + intros k Hk. now rewrite dict_lookup_set_ne.
    + apply dict_lookup_set_eq.
    + now rewrite dict_lookup_set_eq.
    + apply dict_keys_set_present. unfold dict_mem. now rewrite Hs.
    + intros Hm. now apply dict_keys_set_present.
  - intros doc1 buyer2 km2 sk2 H1 H2.
    apply Hiff in H1.
    destruct H1 as [d [sigs [h [tx_hash [sk [-> [Eh [Ed [Es [Ek ->]]]]]]]]]].
    unfold with_buyer_slot, buyer_sign. simpl.
    rewrite dict_lookup_set_ne by discriminate. rewrite Eh. simpl.
    unfold py_b64decode at 1. rewrite Ed. simpl. rewrite H2. simpl.
    rewrite dict_lookup_set_eq. simpl.
    eexists. eexists. eexists. split; [reflexivity|]. simpl.
    rewrite dict_lookup_set_eq. split; [reflexivity|].
    split; [apply dict_lookup_set_eq | reflexivity].
Qed.

(** On the document of scenario S1: the buyer signs, then a second
    company signs over it. *)
Lemma buyer_sign_frame_witness :
  exists doc1 doc2 sigs2 entry2,
    @buyer_sign reference (VDict (Demo.protected_fields None)) Demo.buyer_co Demo.key_manager
      = Returns doc1 /\
    @buyer_sign reference doc1 Demo.auditor_co Demo.key_manager = Returns doc2 /\
    py_getitem doc2 "signatures" = Returns (VDict sigs2) /\
    dict_lookup sigs2 "buyer" = Some entry2 /\
    py_getitem entry2 "company" = Returns (VStr Demo.auditor_co).
Proof.
  destruct (buyer_sign_frame reference (VDict (Demo.protected_fields None))
              Demo.buyer_co Demo.key_manager) as [_ [_ H]].
  assert (E : exists doc1,
            @buyer_sign reference (VDict (Demo.protected_fields None)) Demo.buyer_co
              Demo.key_manager = Returns doc1)
    by (vm_compute; eexists; reflexivity).
  destruct E as [doc1 E1].
  destruct (H doc1 Demo.auditor_co Demo.key_manager (repeat x33 32) E1 eq_refl)
    as [doc2 [sigs2 [entry2 H2]]].
  exists doc1, doc2, sigs2, entry2. split; [exact E1 | exact H2].
Defined.

(** ** [check] *)

Ltac break_match :=
  match goal with
  | |- context [match ?x with _ => _ end] =>
      match x with
      | context [match _ with _ => _ end] => fail 1
      | _ => destruct x eqn:?
      end
  end.

(** Case analysis along every branch of a monadic computation. *)
Ltac run_cases :=
  repeat (first [ progress (unfold try_except, sbind, lift, sret in *)
                | break_match ];
          simpl in *; try discriminate);
  repeat match goal with
         | H : (_, _) = (_, _) |- _ => inversion H; subst; clear H
         end.

Lemma py_getitem_set_other d k x k' :
  k' <> k -> py_getitem (VDict (dict_set d k x)) k' = py_getitem (VDict d) k'.
Proof. intros H. unfold py_getitem. now rewrite dict_lookup_set_ne. Qed.

Lemma py_get_set_other d k x k' dflt :
  k' <> k -> py_get (VDict (dict_set d k x)) k' dflt = py_get (VDict d) k' dflt.
Proof. intros H. unfold py_get. now rewrite dict_lookup_set_ne. Qed.


Section CheckFacts.

Context {P : Primitives}.

#[local] Arguments py_getitem : simpl never.
#[local] Arguments py_get : simpl never.
#[local] Arguments py_len : simpl never.
#[local] Arguments all_in : simpl never.




(** A document signed by the seller only, whose fields have the
    expected shapes and whose seller signature verifies. *)
Lemma check_single_signed doc store tx_hash ssd c sig pk b wkv n gkv g enc :
  py_get doc "version" VNone = Returns (VStr "1.0") ->
  (h <- py_getitem doc "transaction_hash" ;; py_b64decode h)%out = Returns tx_hash ->
  (s <- py_getitem doc "signatures" ;; py_getitem s "seller")%out = Returns ssd ->
  truthy ssd = true ->
  py_getitem ssd "company" = Returns c ->
  (s <- py_getitem ssd "signature" ;; py_b64decode s)%out = Returns sig ->
  get_signing_public_key store c = Returns pk ->
  verify_signature pk sig tx_hash = true ->
  (s <- py_getitem doc "signatures" ;; py_getitem s "buyer")%out = Returns b ->
  truthy b = false ->
  py_get doc "wrapped_keys" (VDict []) = Returns wkv -> py_len wkv = Returns n ->
  py_get doc "group_wrapped_keys" (VDict []) = Returns gkv -> py_len gkv = Returns g ->
  py_getitem doc "encrypted_transaction" = Returns enc ->
  all_in ["ciphertext"; "nonce"]%string enc = Returns true ->
  check doc store =
    Returns {| valid := true; errors := [];
               warnings := [BuyerSignatureNotYetAdded];
               details := [("seller_signature", VStr "valid");
                           ("buyer_signature", VStr "missing");
                           ("individual_recipients", VInt n);
                           ("groups", VInt g)]%string |}.
Proof.
  intros Hver Hh Hs Hst Hc Hsig Hpk Hvf Hb Hbt Hwk Hn Hgk Hg Henc Hall.
  unfold check, try_except, check_body, sbind, lift, sret.
  rewrite Hver, Hh, Hs, Hst, Hc, Hsig, Hpk, Hvf, Hb, Hbt, Hwk, Hn, Hgk, Hg, Henc, Hall.
  reflexivity.
Qed.

(** The same document once the buyer has signed. *)
Lemma check_double_signed doc store tx_hash ssd c sig pk bsd c' sig' pk' wkv n gkv g enc :
  py_get doc "version" VNone = Returns (VStr "1.0") ->
  (h <- py_getitem doc "transaction_hash" ;; py_b64decode h)%out = Returns tx_hash ->
  (s <- py_getitem doc "signatures" ;; py_getitem s "seller")%out = Returns ssd ->
  truthy ssd = true ->
  py_getitem ssd "company" = Returns c ->
  (s <- py_getitem ssd "signature" ;; py_b64decode s)%out = Returns sig ->
  get_signing_public_key store c = Returns pk ->
  verify_signature pk sig tx_hash = true ->
  (s <- py_getitem doc "signatures" ;; py_getitem s "buyer")%out = Returns bsd ->
  truthy bsd = true ->
  py_getitem bsd "company" = Returns c' ->
  (s <- py_getitem bsd "signature" ;; py_b64decode s)%out = Returns sig' ->
  get_signing_public_key store c' = Returns pk' ->
  verify_signature pk' sig' tx_hash = true ->
  py_get doc "wrapped_keys" (VDict []) = Returns wkv -> py_len wkv = Returns n ->
  py_get doc "group_wrapped_keys" (VDict []) = Returns gkv -> py_len gkv = Returns g ->
  py_getitem doc "encrypted_transaction" = Returns enc ->
  all_in ["ciphertext"; "nonce"]%string enc = Returns true ->
  check doc store =
    Returns {| valid := true; errors := []; warnings := [];
               details := [("seller_signature", VStr "valid");
                           ("buyer_signature", VStr "valid");
                           ("individual_recipients", VInt n);
                           ("groups", VInt g)]%string |}.
Proof.
  intros Hver Hh Hs Hst Hc Hsig Hpk Hvf Hb Hbt Hc' Hsig' Hpk' Hvf' Hwk Hn Hgk Hg Henc Hall.
  unfold check, try_except, check_body, sbind, lift, sret.
  rewrite Hver, Hh, Hs, Hst, Hc, Hsig, Hpk, Hvf, Hb, Hbt, Hc', Hsig', Hpk', Hvf',
    Hwk, Hn, Hgk, Hg, Henc, Hall.
  reflexivity.
Qed.

End CheckFacts.



(** ** [unprotect] *)

Ltac run_cases_out :=
  repeat (first [ progress (unfold obind in *) | break_match ];
          simpl in *; try discriminate).

Section UnprotectFacts.

Context {P : Primitives}.

#[local] Arguments py_getitem : simpl never.
#[local] Arguments py_get : simpl never.
#[local] Arguments py_contains : simpl never.
#[local] Arguments py_items : simpl never.
#[local] Arguments py_len : simpl never.
#[local] Arguments all_in : simpl never.
#[local] Arguments load_encryption_private_key : simpl never.

(** The loop over the groups either raises or finds the company in no
    group: it never produces a key. *)
Lemma scan_groups_returns items c km :
  scan_groups items c km = Returns tt ->
  forall g gd, In (g, gd) items ->
    exists ms, py_get gd "members" (VDict []) = Returns ms /\
               py_contains ms c = Returns false.
Proof.
  induction items as [|[g0 gd0] items IH]; intros H g gd Hin; [destruct Hin|].
  simpl in H.
  destruct (py_get gd0 "members" (VDict [])) as [ms|] eqn:Em; simpl in H; [|discriminate].
  destruct (py_contains ms c) as [[|]|] eqn:Ec; simpl in H; try discriminate.
  - exfalso. revert H. run_cases_out.
  - destruct Hin as [Heq|Hin].
    + inversion Heq; subst. now exists ms.
    + exact (IH H g gd Hin).
Qed.

Lemma scan_groups_unlisted items c km :
  (forall g gd, In (g, gd) items ->
     exists ms, py_get gd "members" (VDict []) = Returns ms /\
                py_contains ms c = Returns false) ->
  scan_groups items c km = Returns tt.
Proof.
  induction items as [|[g0 gd0] items IH]; intros H; [reflexivity|].
  simpl. destruct (H g0 gd0) as [ms [Em Ec]]; [now left|].
  rewrite Em. simpl. rewrite Ec. simpl. apply IH.
  intros g gd Hin. apply (H g gd). now right.
Qed.

Lemma scan_groups_listed pre g gd post c km ms ms' env sk payload :
  (forall g' gd', In (g', gd') pre ->
     exists m, py_get gd' "members" (VDict []) = Returns m /\
               py_contains m c = Returns false) ->
  py_get gd "members" (VDict []) = Returns ms ->
  py_contains ms c = Returns true ->
  py_getitem gd "members" = Returns ms' ->
  py_getitem ms' c = Returns env ->
  load_encryption_private_key km c = Returns sk ->
  unwrap_key_x25519 sk env = Returns payload ->
  scan_groups (pre ++ (g, gd) :: post) c km =
    Raises (ProtectionError (GroupDecryptionNotImplemented g)).
Proof.
  intros Hpre Hm Hc Hm' He Hk Hu.
  induction pre as [|[g0 gd0] pre IH]; simpl.
  - rewrite Hm. simpl. rewrite Hc. simpl. rewrite Hm'. simpl.
    rewrite He. simpl. rewrite Hk. simpl. now rewrite Hu.
  - destruct (Hpre g0 gd0) as [m [Em Ec]]; [now left|].
    rewrite Em. simpl. rewrite Ec. simpl. apply IH.
    intros g' gd' Hin. apply (Hpre g' gd'). now right.
Qed.

Lemma unprotect_success doc c km r :
  unprotect doc c km = Returns r ->
  exists wk tx,
    py_get doc "wrapped_keys" (VDict []) = Returns wk /\
    py_contains wk c = Returns true /\
    r = VDict [("transaction", tx); ("access_method", VStr "individual");
               ("verified", VBool true)]%string.
Proof.
  unfold unprotect.
  destruct (py_get doc "wrapped_keys" (VDict [])) as [wk|] eqn:Ew; simpl; [|discriminate].
  destruct (py_contains wk c) as [[|]|] eqn:Ec; simpl; try discriminate.
  - intros H. revert H. run_cases_out.
    all: intros H; inversion H; subst; eauto.
  - run_cases_out.
Qed.

Lemma unprotect_no_access doc c km wk gwk items :
  py_get doc "wrapped_keys" (VDict []) = Returns wk ->
  py_contains wk c = Returns false ->
  py_get doc "group_wrapped_keys" (VDict []) = Returns gwk ->
  py_items gwk = Returns items ->
  (forall g gd, In (g, gd) items ->
     exists ms, py_get gd "members" (VDict []) = Returns ms /\
                py_contains ms c = Returns false) ->
  unprotect doc c km = Raises (ProtectionError (NoAccessGranted c)).
Proof.
  intros Hw Hc Hg Hi Hall. unfold unprotect.
  rewrite Hw. simpl. rewrite Hc. simpl. rewrite Hg. simpl. rewrite Hi. simpl.
  now rewrite (scan_groups_unlisted _ _ _ Hall).
Qed.

Lemma unprotect_group_only doc c km wk gwk pre g gd post ms ms' env sk payload :
  py_get doc "wrapped_keys" (VDict []) = Returns wk ->
  py_contains wk c = Returns false ->
  py_get doc "group_wrapped_keys" (VDict []) = Returns gwk ->
  py_items gwk = Returns (pre ++ (g, gd) :: post) ->
  (forall g' gd', In (g', gd') pre ->
     exists m, py_get gd' "members" (VDict []) = Returns m /\
               py_contains m c = Returns false) ->
  py_get gd "members" (VDict []) = Returns ms ->
  py_contains ms c = Returns true ->
  py_getitem gd "members" = Returns ms' ->
  py_getitem ms' c = Returns env ->
  load_encryption_private_key km c = Returns sk ->
  unwrap_key_x25519 sk env = Returns payload ->
  unprotect doc c km = Raises (ProtectionError (GroupDecryptionNotImplemented g)).
Proof.
  intros Hw Hc Hg Hi Hpre Hm Hl Hm' He Hk Hu. unfold unprotect.
  rewrite Hw. simpl. rewrite Hc. simpl. rewrite Hg. simpl. rewrite Hi. simpl.
  now rewrite (scan_groups_listed pre g gd post c km ms ms' env sk payload).
Qed.

Lemma unprotect_ignores_field d c km k x :
  k <> "wrapped_keys"%string -> k <> "group_wrapped_keys"%string ->
  k <> "encrypted_transaction"%string ->
  unprotect (VDict (dict_set d k x)) c km = unprotect (VDict d) c km.
Proof.
  intros H1 H2 H3. unfold unprotect.
  rewrite !py_get_set_other by congruence.
  rewrite !py_getitem_set_other by congruence.
  reflexivity.
Qed.

Lemma check_flags_missing_seller_signature d store b :
  exists r,
    check (VDict (dict_set d "signatures" (VDict [("seller", VNone); ("buyer", b)]%string)))
      store = Returns r /\
    valid r = false.
Proof.
  set (doc := VDict (dict_set d "signatures" _)).
  assert (Hs : (s <- py_getitem doc "signatures" ;; py_getitem s "seller")%out
               = Returns VNone).
  { unfold doc, py_getitem. now rewrite dict_lookup_set_eq. }
  unfold check, check_body, try_except, sbind, lift, sret.
  rewrite Hs. simpl. clearbody doc.
  run_cases.
  all: eexists; split; reflexivity.
Qed.

(** [decrypt_aes_gcm] returns only what the AEAD released under the key
    it was given, for the nonce and the ciphertext of the dictionary. *)
Lemma decrypt_returns_authenticated key enc plaintext :
  decrypt_aes_gcm key enc = Returns plaintext ->
  exists nonce ciphertext,
    (x <- py_getitem enc "nonce" ;; py_b64decode x)%out = Returns nonce /\
    (x <- py_getitem enc "ciphertext" ;; py_b64decode x)%out = Returns ciphertext /\
    aesgcm_decrypt key nonce ciphertext = Some plaintext.
Proof.
  unfold decrypt_aes_gcm.
  destruct (AESGCM key) as [[]|]; simpl; [|discriminate].
  destruct (py_getitem enc "nonce") as [nb|]; simpl; [|discriminate].
  destruct (py_b64decode nb) as [nonce|]; simpl; [|discriminate].
  destruct (py_getitem enc "ciphertext") as [cb|]; simpl; [|discriminate].
  destruct (py_b64decode cb) as [ct|]; simpl; [|discriminate].
  destruct (aesgcm_decrypt key nonce ct) as [pt|] eqn:E; [|discriminate].
  intros H. inversion H; subst. exists nonce, ct. repeat split. exact E.
Qed.

(** Every step a returning call of [unprotect] went through. *)
Lemma unprotect_returns doc c km r :
  unprotect doc c km = Returns r ->
  exists wk env sk K_T enc plaintext text tx,
    py_getitem doc "wrapped_keys" = Returns wk /\
    py_getitem wk c = Returns env /\
    load_encryption_private_key km c = Returns sk /\
    unwrap_key_x25519 sk env = Returns K_T /\
    py_getitem doc "encrypted_transaction" = Returns enc /\
    decrypt_aes_gcm K_T enc = Returns plaintext /\
    utf8_decode plaintext = Some text /\
    json_loads text = Returns tx /\
    r = VDict [("transaction", tx); ("access_method", VStr "individual");
               ("verified", VBool true)]%string.
Proof.
  unfold unprotect.
  destruct (py_get doc "wrapped_keys" (VDict [])) as [wk0|]; simpl; [|discriminate].
  destruct (py_contains wk0 c) as [[|]|]; simpl; try discriminate.
  - destruct (py_getitem doc "wrapped_keys") as [wk|] eqn:E1; simpl; [|discriminate].
    destruct (py_getitem wk c) as [env|] eqn:E2; simpl; [|discriminate].
    destruct (load_encryption_private_key km c) as [sk|] eqn:E3; simpl; [|discriminate].
    destruct (unwrap_key_x25519 sk env) as [K_T|] eqn:E4; simpl; [|discriminate].
    destruct (py_getitem doc "encrypted_transaction") as [enc|] eqn:E5; simpl;
      [|discriminate].
    destruct (decrypt_aes_gcm K_T enc) as [plaintext|] eqn:E6; simpl; [|discriminate].
    destruct (utf8_decode plaintext) as [text|] eqn:E7; simpl; [|discriminate].
    destruct (json_loads text) as [tx|] eqn:E8; simpl; [|discriminate].
    intros H. inversion H; subst.
    exists wk, env, sk, K_T, enc, plaintext, text, tx. repeat split; assumption.
  - destruct (py_get doc "group_wrapped_keys" (VDict [])) as [g|]; simpl; [|discriminate].
    destruct (py_items g) as [items|]; simpl; [|discriminate].
    destruct (scan_groups items c km) as [[]|]; simpl; discriminate.
Qed.

End UnprotectFacts.

(** C2 (the code departs from it). [unprotect] succeeds only through an
    entry of [wrapped_keys], with access method ["individual"]; a
    company listed in no envelope set gets "No access granted"; a
    company listed only in a group never succeeds: with a well-formed
    group envelope the call ends in "Group-based decryption not fully
    implemented" for the first group that lists it. *)
Theorem unprotect_group_path_never_succeeds (P : Primitives) :
  forall (doc : value) (c : string) (km : KeyManager),
    (forall r, unprotect doc c km = Returns r ->
       exists wk,
         py_get doc "wrapped_keys" (VDict []) = Returns wk /\
         py_contains wk c = Returns true /\
         py_getitem r "access_method" = Returns (VStr "individual")) /\
    (forall wk gwk items,
       py_get doc "wrapped_keys" (VDict []) = Returns wk ->
       py_contains wk c = Returns false ->
       py_get doc "group_wrapped_keys" (VDict []) = Returns gwk ->
       py_items gwk = Returns items ->
       (forall g gd, In (g, gd) items ->
          exists ms, py_get gd "members" (VDict []) = Returns ms /\
                     py_contains ms c = Returns false) ->
       unprotect doc c km = Raises (ProtectionError (NoAccessGranted c))) /\
    (forall wk gwk pre g gd post ms ms' env sk payload,
       py_get doc "wrapped_keys" (VDict []) = Returns wk ->
       py_contains wk c = Returns false ->
       py_get doc "group_wrapped_keys" (VDict []) = Returns gwk ->
       py_items gwk = Returns (pre ++ (g, gd) :: post) ->
       (forall g' gd', In (g', gd') pre ->
          exists m, py_get gd' "members" (VDict []) = Returns m /\
                    py_contains m c = Returns false) ->
       py_get gd "members" (VDict []) = Returns ms ->
       py_contains ms c = Returns true ->
       py_getitem gd "members" = Returns ms' ->
       py_getitem ms' c = Returns env ->
       load_encryption_private_key km c = Returns sk ->
       unwrap_key_x25519 sk env = Returns payload ->
       unprotect doc c km =
         Raises (ProtectionError (GroupDecryptionNotImplemented g))).
Proof.
  intros doc c km. split; [|split].
  - intros r H. destruct (unprotect_success _ _ _ _ H) as [wk [tx [Hw [Hc ->]]]].
    exists wk. repeat split; auto.
  - apply unprotect_no_access.
  - apply unprotect_group_only.
Qed.

(** On the demonstration deployment, sharing with the group
    [tech_partners]: a stranger, the group's member, and the buyer. *)
Lemma unprotect_group_path_never_succeeds_witness :
  @unprotect reference (VDict (Demo.protected_fields (Some ["tech_partners"]%string)))
    "RandomCo" Demo.key_manager
    = Raises (ProtectionError (NoAccessGranted "RandomCo")) /\
  @unprotect reference (VDict (Demo.protected_fields (Some ["tech_partners"]%string)))
    Demo.auditor_co Demo.key_manager
    = Raises (ProtectionError (GroupDecryptionNotImplemented "tech_partners")) /\
  exists wk,
    py_get (VDict (Demo.protected_fields None)) "wrapped_keys" (VDict []) = Returns wk /\
    py_contains wk Demo.buyer_co = Returns true.
Proof.
  split; [|split].
  - destruct (unprotect_group_path_never_succeeds reference
                (VDict (Demo.protected_fields (Some ["tech_partners"]%string)))
                "RandomCo"%string Demo.key_manager) as [_ [H _]].
    eapply H; try (vm_compute; reflexivity).
    intros g gd Hin. vm_compute in Hin. destruct Hin as [Hin|[]].
    inversion Hin; subst. eexists. split; vm_compute; reflexivity.
  - destruct (unprotect_group_path_never_succeeds reference
                (VDict (Demo.protected_fields (Some ["tech_partners"]%string)))
                Demo.auditor_co Demo.key_manager) as [_ [_ H]].
    eapply (H _ _ [] "tech_partners"%string _ []); try (vm_compute; reflexivity).
    intros g gd [].
  - destruct (unprotect_group_path_never_succeeds reference
                (VDict (Demo.protected_fields None))
                Demo.buyer_co Demo.key_manager) as [H _].
    destruct (H _ ltac:(vm_compute; reflexivity)) as [wk [Hw [Hc _]]].
    exists wk. split; assumption.
Defined.

(** C10. Whenever [unprotect] returns, the result has ["verified":
    True].  The one check behind it is the AEAD decryption: a returning
    call has unwrapped the caller's entry of [wrapped_keys] to a key
    under which AES-GCM released the plaintext for the nonce and the
    ciphertext of [encrypted_transaction], and the transaction it
    returns is that plaintext parsed.  The call reads neither
    [signatures] nor [transaction_hash]: replacing them by anything
    leaves the outcome unchanged.  In particular a document whose seller
    signature has been stripped, which [check] reports invalid,
    unprotects as before. *)
Theorem unprotect_verified_without_verification (P : Primitives) :
  (forall doc c km r,
     unprotect doc c km = Returns r ->
     py_getitem r "verified" = Returns (VBool true)) /\
  (forall doc c km r,
     unprotect doc c km = Returns r ->
     exists wk env sk K_T enc nonce ciphertext plaintext text tx,
       py_getitem doc "wrapped_keys" = Returns wk /\
       py_getitem wk c = Returns env /\
       load_encryption_private_key km c = Returns sk /\
       unwrap_key_x25519 sk env = Returns K_T /\
       py_getitem doc "encrypted_transaction" = Returns enc /\
       (x <- py_getitem enc "nonce" ;; py_b64decode x)%out = Returns nonce /\
       (x <- py_getitem enc "ciphertext" ;; py_b64decode x)%out = Returns ciphertext /\
       aesgcm_decrypt K_T nonce ciphertext = Some plaintext /\
       utf8_decode plaintext = Some text /\
       json_loads text = Returns tx /\
       py_getitem r "transaction" = Returns tx) /\
  (forall d c km x,
     unprotect (VDict (dict_set d "signatures" x)) c km = unprotect (VDict d) c km) /\
  (forall d c km x,
     unprotect (VDict (dict_set d "transaction_hash" x)) c km = unprotect (VDict d) c km) /\
  (forall d c km store b r,
     unprotect (VDict d) c km = Returns r ->
     let stripped :=
       VDict (dict_set d "signatures" (VDict [("seller", VNone); ("buyer", b)]%string)) in
     unprotect stripped c km = Returns r /\
     py_getitem r "verified" = Returns (VBool true) /\
     exists report, check stripped store = Returns report /\ valid report = false).
Proof.
  assert (Hv : forall doc c km r,
     unprotect doc c km = Returns r ->
     py_getitem r "verified" = Returns (VBool true)).
  { intros doc c km r H.
    destruct (unprotect_success _ _ _ _ H) as [wk [tx [_ [_ ->]]]]. reflexivity. }
  split; [exact Hv|]. split; [|split; [|split]].
  - intros doc c km r H.
    destruct (unprotect_returns _ _ _ _ H)
      as [wk [env [sk [K_T [enc [pt [text [tx [H1 [H2 [H3 [H4 [H5 [H6 [H7 [H8 ->]]]]]]]]]]]]]]]].
    destruct (decrypt_returns_authenticated _ _ _ H6) as [nonce [ct [Hn [Hc Ha]]]].
    exists wk, env, sk, K_T, enc, nonce, ct, pt, text, tx.
    repeat split; assumption || reflexivity.
  - intros. apply unprotect_ignores_field; discriminate.
  - intros. apply unprotect_ignores_field; discriminate.
  - intros d c km store b r H stripped. subst stripped. split; [|split].
    + rewrite unprotect_ignores_field by discriminate. exact H.
    + exact (Hv _ _ _ _ H).
    + apply check_flags_missing_seller_signature.
Qed.

(** On the document of scenario S1 with the seller signature stripped:
    the buyer's call returns as before, having decrypted under a key
    the AEAD accepted. *)
Lemma unprotect_verified_without_verification_witness :
  exists r report K_T nonce ciphertext plaintext,
    @unprotect reference (VDict (Demo.protected_fields None)) Demo.buyer_co Demo.key_manager
      = Returns r /\
    @unprotect reference
      (VDict (dict_set (Demo.protected_fields None) "signatures"
                (VDict [("seller", VNone); ("buyer", VNone)]%string)))
      Demo.buyer_co Demo.key_manager = Returns r /\
    py_getitem r "verified" = Returns (VBool true) /\
    @check reference
      (VDict (dict_set (Demo.protected_fields None) "signatures"
                (VDict [("seller", VNone); ("buyer", VNone)]%string)))
      Demo.public_key_store = Returns report /\
    valid report = false /\
    @aesgcm_decrypt reference K_T nonce ciphertext = Some plaintext.
Proof.
  destruct (unprotect_verified_without_verification reference) as [_ [Hd [_ [_ H]]]].
  assert (E : exists r,
            @unprotect reference (VDict (Demo.protected_fields None)) Demo.buyer_co
              Demo.key_manager = Returns r)
    by (vm_compute; eexists; reflexivity).
  destruct E as [r Hr].
  destruct (H _ _ _ Demo.public_key_store VNone r Hr) as [Hs [Hv [report [Hc Hf]]]].
  destruct (Hd _ _ _ _ Hs)
    as [wk [env [sk [K_T [enc [nonce [ct [pt [text [tx [_ [_ [_ [_ [_ [_ [_ [Ha _]]]]]]]]]]]]]]]]]].
  exists r, report, K_T, nonce, ct, pt. repeat split; assumption.
Defined.

(** ** [protect]: the loops over recipients and groups *)

Section ProtectLoops.

Context {P : Primitives} {L : PrimitiveLaws P}.

Lemma wrap_later pk payload w r w' :
  wrap_key_x25519 pk payload w = (r, w') -> later w w'.
Proof.
  unfold wrap_key_x25519, encrypt_aes_gcm, sbind, lift, sret, exchange.
  rewrite urandom_run.
  destruct (x25519_exchange (draw w 32) pk) as [s|]; simpl.
  - destruct (AESGCM (hkdf_sha256 key_wrapping_info s)); simpl;
      intros H; inversion H; subst;
      (split; [reflexivity | exists []; simpl; now rewrite app_nil_r]).
  - intros H; inversion H; subst. apply later_advance.
Qed.

Lemma resolvable_not_unresolvable store name :
  resolvable store name -> unresolvable store name -> False.
Proof. intros [pk [H _]] [k H']. congruence. Qed.

(** A recipient whose key resolves gets an envelope of [K_T]. *)
Lemma wrap_for_recipient_resolvable store K_T wk r w :
  resolvable store r ->
  exists env,
    wrap_for_recipient store K_T wk r w
      = (Returns (dict_set wk r env), advance (advance w 32) 12) /\
    entry_ok store K_T (r, env).
Proof.
  intros [pk [Hpk Hh]].
  destruct (wrap_honest pk K_T w Hh) as [env [Hw He]].
  exists env. split.
  - unfold wrap_for_recipient, try_except, sbind, lift, sret.
    now rewrite Hpk, Hw.
  - exists pk. now split.
Qed.

(** A recipient unknown to the store is skipped: a line is printed, and
    neither the dictionary nor the random tape moves. *)
Lemma wrap_for_recipient_unresolvable store K_T wk r w :
  unresolvable store r ->
  wrap_for_recipient store K_T wk r w
    = (Returns wk,
       {| entropy := entropy w; drawn := drawn w;
          stdout := stdout w ++ [WarnRecipientKeyNotFound r] |}).
Proof.
  intros [k Hk].
  unfold wrap_for_recipient, try_except, sbind, lift, sret.
  now rewrite Hk.
Qed.

Lemma recipients_loop store K_T rs :
  (forall r, In r rs -> resolvable store r \/ unresolvable store r) ->
  forall wk w,
    Forall (entry_ok store K_T) wk ->
    exists wk' w',
      for_each_acc rs wk (wrap_for_recipient store K_T) w = (Returns wk', w') /\
      Forall (entry_ok store K_T) wk' /\
      later w w' /\
      (forall name, dict_mem wk' name = true <->
                    dict_mem wk name = true \/ (In name rs /\ resolvable store name)) /\
      (forall r, In r rs -> unresolvable store r ->
                 In (WarnRecipientKeyNotFound r) (stdout w')).
Proof.
  induction rs as [|r rs IH]; intros Hrs wk w Hwk.
  - exists wk, w. simpl.
    split; [reflexivity|]. split; [exact Hwk|]. split; [apply later_refl|]. split.
    + intros name. split; [tauto|]. intros [H|[[] _]]. exact H.
    + intros r [].
  - assert (Hrs' : forall x, In x rs -> resolvable store x \/ unresolvable store x).
    { intros x Hx. apply Hrs. now right. }
    destruct (Hrs r (or_introl eq_refl)) as [Hres|Hun].
    + destruct (wrap_for_recipient_resolvable store K_T wk r w Hres) as [env [Hstep Hok]].
      destruct (IH Hrs' (dict_set wk r env) (advance (advance w 32) 12))
        as [wk' [w' [Hloop [Hall [Hlater [Hmem Hwarn]]]]]].
      { now apply dict_set_Forall. }
      exists wk', w'. simpl. unfold sbind at 1. rewrite Hstep.
      split; [exact Hloop|]. split; [exact Hall|]. split.
      { eauto using later_trans, later_advance. }
      split.
      * intros name. rewrite Hmem, dict_mem_set.
        destruct (String.eqb_spec r name) as [->|Hne]; simpl; [tauto|].
        split; [tauto|]. intros [H|[[H|H] H']]; [tauto|congruence|tauto].
      * intros x [<-|Hx] Hu; [|now apply Hwarn].
        exfalso. eauto using resolvable_not_unresolvable.
    + pose proof (wrap_for_recipient_unresolvable store K_T wk r w Hun) as Hstep.
      set (w1 := {| entropy := entropy w; drawn := drawn w;
                    stdout := stdout w ++ [WarnRecipientKeyNotFound r] |}) in *.
      assert (Hl1 : later w w1) by (split; [reflexivity | now exists [WarnRecipientKeyNotFound r]]).
      destruct (IH Hrs' wk w1 Hwk) as [wk' [w' [Hloop [Hall [Hlater [Hmem Hwarn]]]]]].
      exists wk', w'. simpl. unfold sbind at 1. rewrite Hstep.
      split; [exact Hloop|]. split; [exact Hall|]. split.
      { eauto using later_trans. }
      split.
      * intros name. rewrite Hmem. split; [tauto|].
        intros [H|[[<-|H] H']]; [tauto| |tauto].
        exfalso. eauto using resolvable_not_unresolvable.
      * intros x [<-|Hx] Hu; [|now apply Hwarn].
        apply (later_In w1 w'); [exact Hlater|].
        subst w1. simpl. apply in_or_app. right. now left.
Qed.

(** Copying well-formed envelopes into the document changes nothing. *)
Lemma copy_wrapped_keys_id store K_T wk :
  Forall (entry_ok store K_T) wk -> copy_wrapped_keys wk = Returns wk.
Proof.
  induction 1 as [|[name env] wk [pk [_ [e [s [n [_ [_ [_ Henv]]]]]]]] _ IH];
    [reflexivity|].
  simpl in Henv. subst env. simpl. now rewrite IH.
Qed.

End ProtectLoops.

Section GroupLoops.

Context {P : Primitives}.

Variable store : PublicKeyStore.
Variable server : group_server.
Variable K_T : bytes.
Variable tx_id : string.

Lemma print_later m w : later w (snd (print m w)) /\ In m (stdout (snd (print m w))).
Proof.
  simpl. repeat split.
  - now exists [m].
  - apply in_or_app. right. now left.
Qed.

Lemma assign_member_keys gwk g m env gwk' :
  assign_member gwk g m env = Returns gwk' ->
  forall k, dict_mem gwk' k = true -> dict_mem gwk k = true \/ k = g.
Proof.
  unfold assign_member. intros H. revert H. run_cases_out.
  intros H k. inversion H; subst. rewrite dict_mem_set.
  destruct (String.eqb_spec g k); simpl; auto.
Qed.

(** One member: the world only moves forward, and the only key of
    [group_wrapped_keys] that can appear is the group's. *)
Lemma wrap_for_member_effect gk g m gwk w r gwk' w' :
  wrap_for_member store gk g m (gwk, w) = (r, (gwk', w')) ->
  later w w' /\
  (forall k, dict_mem gwk' k = true -> dict_mem gwk k = true \/ k = g).
Proof.
  unfold wrap_for_member, try_except, sbind, lift, in_world, get_local, set_local, sret.
  simpl.
  destruct (get_encryption_public_key store (VStr m)) as [pk|e] eqn:Ek.
  - destruct (wrap_key_x25519 pk gk w) as [r1 w1] eqn:Ew.
    apply wrap_later in Ew. destruct r1 as [env|e]; simpl.
    + destruct (assign_member gwk g m env) as [gwk2|e] eqn:Ea; simpl.
      * intros H; inversion H; subst. split; [assumption|].
        eapply assign_member_keys; eauto.
      * destruct (is_KeyError e); simpl; intros H; inversion H; subst.
        -- split; [|auto]. eapply later_trans; [eassumption|].
           apply (print_later (WarnMemberKeyNotFound m g) w1).
        -- auto.
    + destruct (is_KeyError e); simpl; intros H; inversion H; subst.
      * split; [|auto]. eapply later_trans; [eassumption|].
        apply (print_later (WarnMemberKeyNotFound m g) w1).
      * auto.
  - destruct (is_KeyError e); simpl; intros H; inversion H; subst.
    + split; [|auto]. apply (print_later (WarnMemberKeyNotFound m g) w).
    + split; [apply later_refl | auto].
Qed.

Lemma members_loop_effect gk g ms :
  forall gwk w r gwk' w',
    for_each ms (wrap_for_member store gk g) (gwk, w) = (r, (gwk', w')) ->
    later w w' /\
    (forall k, dict_mem gwk' k = true -> dict_mem gwk k = true \/ k = g).
Proof.
  induction ms as [|m ms IH]; intros gwk w r gwk' w'; simpl.
  - unfold sret. intros H; inversion H; subst. split; [apply later_refl | auto].
  - unfold sbind.
    destruct (wrap_for_member store gk g m (gwk, w)) as [r1 [gwk1 w1]] eqn:E1.
    apply wrap_for_member_effect in E1. destruct E1 as [Hl1 Hk1].
    destruct r1 as [[]|e].
    + intros H. apply IH in H. destruct H as [Hl2 Hk2]. split.
      * eapply later_trans; eassumption.
      * intros k Hk. destruct (Hk2 k Hk) as [H|H]; auto.
    + intros H; inversion H; subst. auto.
Qed.

(** One group: the call never raises; a key appears in
    [group_wrapped_keys] only for a group the server answered with
    status 200, and any other status leaves a printed warning. *)
Lemma process_group_effect g gwk w :
  exists gwk' w',
    process_group store server K_T tx_id g (gwk, w) = (Returns tt, (gwk', w')) /\
    later w w' /\
    (forall k, dict_mem gwk' k = true ->
       dict_mem gwk k = true \/
       (k = g /\ exists resp, server g = Returns resp /\ status_code resp = 200%Z)) /\
    (forall resp, server g = Returns resp -> status_code resp <> 200%Z ->
       gwk' = gwk /\ In (WarnGroupFetchFailed g) (stdout w')).
Proof.
  unfold process_group, try_except, sbind, lift, in_world, get_local, set_local.
  simpl.
  destruct (server g) as [resp|e] eqn:Es; simpl.
  - destruct (Z.eqb_spec (status_code resp) 200) as [E200|N200]; simpl.
    + destruct (for_each (members resp)
                  (wrap_for_member store (derive_group_key K_T g tx_id) g)
                  (dict_set gwk g (VDict [("members"%string, VDict [])]), w))
        as [r [gwk1 w1]] eqn:El.
      apply members_loop_effect in El. destruct El as [Hl Hk].
      assert (Hkeys : forall k, dict_mem gwk1 k = true ->
                dict_mem gwk k = true \/
                (k = g /\ exists resp0, Returns resp = Returns resp0 /\
                                        status_code resp0 = 200%Z)).
      { intros k Hm. destruct (Hk k Hm) as [H|H].
        - rewrite dict_mem_set in H.
          destruct (String.eqb_spec g k) as [<-|Hne]; simpl in H; eauto.
        - eauto. }
      destruct r as [[]|e]; simpl.
      * exists gwk1, w1. split; [reflexivity|]. split; [exact Hl|].
        split; [exact Hkeys|].
        intros resp0 Hr Hn; inversion Hr; subst; congruence.
      * eexists; eexists. split; [reflexivity|]. split; [|split; [exact Hkeys|]].
        -- eapply later_trans; [exact Hl|].
           apply (print_later (WarnGroupError g e) w1).
        -- intros resp0 Hr Hn; inversion Hr; subst; congruence.
    + eexists; eexists. split; [reflexivity|].
      split; [apply (print_later (WarnGroupFetchFailed g) w)|].
      split; [auto|].
      intros resp0 Hr Hn. split; [reflexivity|].
      apply (print_later (WarnGroupFetchFailed g) w).
  - eexists; eexists. split; [reflexivity|].
    split; [apply (print_later (WarnGroupError g e) w)|].
    split; [auto|]. intros resp0 Hr. discriminate.
Qed.

Lemma groups_loop gs :
  forall gwk w,
    exists gwk' w',
      for_each gs (process_group store server K_T tx_id) (gwk, w)
        = (Returns tt, (gwk', w')) /\
      later w w' /\
      (forall k, dict_mem gwk' k = true ->
         dict_mem gwk k = true \/
         (In k gs /\ exists resp, server k = Returns resp /\ status_code resp = 200%Z)) /\
      (forall g resp, In g gs -> server g = Returns resp -> status_code resp <> 200%Z ->
         In (WarnGroupFetchFailed g) (stdout w')).
Proof.
  induction gs as [|g gs IH]; intros gwk w.
  - exists gwk, w. simpl. split; [reflexivity|]. split; [apply later_refl|].
    split; [auto|]. intros g resp [].
  - destruct (process_group_effect g gwk w) as [gwk1 [w1 [Hstep [Hl1 [Hk1 Hw1]]]]].
    destruct (IH gwk1 w1) as [gwk2 [w2 [Hloop [Hl2 [Hk2 Hw2]]]]].
    exists gwk2, w2. simpl. unfold sbind at 1. rewrite Hstep.
    split; [exact Hloop|]. split; [eapply later_trans; eassumption|]. split.
    + intros k Hk. destruct (Hk2 k Hk) as [H|[H H']].
      * destruct (Hk1 k H) as [H1|[-> H1]]; [now left|]. right. split; [now left|assumption].
      * right. split; [now right | assumption].
    + intros g0 resp [<-|Hin] Hr Hn.
      * apply (later_In w1 w2); [exact Hl2|]. now apply (Hw1 resp).
      * now apply (Hw2 g0 resp).
Qed.

End GroupLoops.

(** ** [protect]: the document it returns *)

Section ProtectRun.

Context {P : Primitives} {L : PrimitiveLaws P}.

Lemma sbind_ok {S A B : Type} (c : st S A) (k : A -> st S B) s a s' :
  c s = (Returns a, s') -> sbind c k s = k a s'.
Proof. intros H. unfold sbind. now rewrite H. Qed.

Lemma lift_ok {S A : Type} (c : outcome A) (s : S) a :
  c = Returns a -> lift c s = (Returns a, s).
Proof. intros ->. reflexivity. Qed.

Lemma eq_str_refl s : eq_str (VStr s) s = true.
Proof. apply String.eqb_refl. Qed.

Lemma groups_run store server K_T T groups w :
  (exists idv, dict_lookup T "id" = Some idv) ->
  exists gwk w',
    match given groups with
    | [] => sret []
    | group_ids =>
        (tx_id_value <- lift (py_getitem (VDict T) "id") ;;
         let tx_id := py_str tx_id_value in
         with_local []
           (for_each group_ids (process_group store server K_T tx_id)))%st
    end w = (Returns gwk, w') /\
    later w w' /\
    (forall g, dict_mem gwk g = true ->
       In g (given groups) /\
       exists resp, server g = Returns resp /\ status_code resp = 200%Z) /\
    (forall g resp, In g (given groups) -> server g = Returns resp ->
       status_code resp <> 200%Z -> In (WarnGroupFetchFailed g) (stdout w')).
Proof.
  intros [idv Hid].
  destruct (given groups) as [|g gs] eqn:Eg.
  - exists [], w. split; [reflexivity|]. split; [apply later_refl|]. split.
    + intros g H. discriminate.
    + intros g resp [].
  - destruct (groups_loop store server K_T (py_str idv) (g :: gs) [] w)
      as [gwk [w' [Hloop [Hl [Hk Hw]]]]].
    exists gwk, w'. split.
    + unfold sbind, lift, with_local. simpl py_getitem. rewrite Hid.
      cbv zeta.
      match goal with
      | |- context [for_each ?a ?b ?c] =>
          replace (for_each a b c) with (Returns tt, (gwk, w'))
            by (symmetry; exact Hloop)
      end.
      reflexivity.
    + split; [exact Hl|]. split; [|exact Hw].
      intros k Hm. destruct (Hk k Hm) as [H|H]; [discriminate | exact H].
Qed.

Lemma protect_run T seller buyer km store recipients groups server w sk :
  valid_plaintext T seller buyer ->
  load_signing_private_key km seller = Returns sk ->
  resolvable store seller ->
  resolvable store buyer ->
  (forall r, In r (given recipients) -> resolvable store r \/ unresolvable store r) ->
  let K_T := draw w 32 in
  let nonce := draw (advance w 32) 12 in
  let M := canonical_bytes T in
  exists idv wk gwk w',
    dict_lookup T "id" = Some idv /\
    protect T seller buyer km store recipients groups server w =
      (Returns (document idv (sealed K_T nonce M) seller
                  (ed25519_sign sk (sha256 M)) (sha256 M) wk gwk), w') /\
    Forall (entry_ok store K_T) wk /\
    (forall name, dict_mem wk name = true <->
       name = seller \/ name = buyer \/
       (In name (given recipients) /\ resolvable store name)) /\
    (forall r, In r (given recipients) -> unresolvable store r ->
       In (WarnRecipientKeyNotFound r) (stdout w')) /\
    (forall g, dict_mem gwk g = true ->
       In g (given groups) /\
       exists resp, server g = Returns resp /\ status_code resp = 200%Z) /\
    (forall g resp, In g (given groups) -> server g = Returns resp ->
       status_code resp <> 200%Z -> In (WarnGroupFetchFailed g) (stdout w')) /\
    later w w'.
Proof.
  intros [Hfields [Hseller Hbuyer]] Hsk Hrs Hrb Hrec K_T nonce M.
  destruct (dict_mem_lookup T "id") as [idv Hid]; [apply Hfields; simpl; tauto|].
  set (w1 := advance (advance w 32) 12).
  pose proof Hrs as [pks [Hpks Hhs]]. pose proof Hrb as [pkb [Hpkb Hhb]].
  destruct (wrap_honest pks K_T w1 Hhs) as [envs [Hws Hes]].
  set (w2 := advance (advance w1 32) 12) in *.
  destruct (wrap_honest pkb K_T w2 Hhb) as [envb [Hwb Heb]].
  set (w3 := advance (advance w2 32) 12) in *.
  assert (Hwk0 : Forall (entry_ok store K_T) (dict_set [(seller, envs)] buyer envb)).
  { apply dict_set_Forall.
    - constructor; [|constructor]. exists pks. now split.
    - exists pkb. now split. }
  destruct (recipients_loop store K_T (given recipients) Hrec _ w3 Hwk0)
    as [wk [w4 [Hloop [Hall [Hl4 [Hmem Hwarn]]]]]].
  destruct (groups_run store server K_T T groups w4 (ex_intro _ idv Hid))
    as [gwk [w5 [Hgroups [Hl5 [Hgk Hgw]]]]].
  exists idv, wk, gwk, w5.
  split; [exact Hid|]. split.
  - unfold protect.
    erewrite sbind_ok
      by (apply lift_ok, require_fields_present; exact Hfields).
    erewrite sbind_ok by (apply lift_ok; unfold py_getitem; now rewrite Hseller).
    rewrite eq_str_refl. cbn [negb].
    erewrite sbind_ok by (apply lift_ok; unfold py_getitem; now rewrite Hbuyer).
    rewrite eq_str_refl. cbn [negb].
    erewrite sbind_ok by apply urandom_run.
    erewrite sbind_ok by (apply encrypt_run, draw_length).
    erewrite sbind_ok by (apply lift_ok; exact Hsk).
    erewrite sbind_ok by (apply lift_ok; exact Hpks).
    erewrite sbind_ok by exact Hws.
    erewrite sbind_ok by (apply lift_ok; exact Hpkb).
    erewrite sbind_ok by exact Hwb.
    erewrite sbind_ok by exact Hloop.
    erewrite sbind_ok by exact Hgroups.
    erewrite sbind_ok by (apply lift_ok; unfold py_getitem; now rewrite Hid).
    erewrite sbind_ok
      by (apply lift_ok; exact (copy_wrapped_keys_id store K_T wk Hall)).
    reflexivity.
  - split; [exact Hall|]. split.
    + intros name. rewrite Hmem, dict_mem_set. unfold dict_mem. simpl.
      destruct (String.eqb_spec buyer name) as [->|Hb];
        destruct (String.eqb_spec seller name) as [Hs|Hs]; simpl;
        intuition congruence.
    + split; [exact (fun r Hin Hu => later_In _ _ _ Hl5 (Hwarn r Hin Hu))|].
      split; [exact Hgk|]. split; [exact Hgw|].
      eapply later_trans; [|exact Hl5].
      eapply later_trans; [|exact Hl4].
      split; [reflexivity|]. exists []. simpl. now rewrite app_nil_r.
Qed.

End ProtectRun.

(** ** [protect]: hash, identifier, warnings, signatures *)

Section ProtectClaims.

Context {P : Primitives} {L : PrimitiveLaws P}.

Lemma holds_signing_key_loads km store name :
  holds_signing_key km store name ->
  exists sk, load_signing_private_key km name = Returns sk /\
             List.length sk = 32 /\
             get_signing_public_key store (VStr name) = Returns (ed25519_public_key sk).
Proof.
  intros [sk [Hf [Hl Hp]]]. exists sk. repeat split; auto.
  unfold load_signing_private_key. rewrite Hf. now apply key32_ok.
Qed.

Lemma holds_encryption_key_loads km store name :
  holds_encryption_key km store name ->
  exists sk, load_encryption_private_key km name = Returns sk /\
             List.length sk = 32 /\
             get_encryption_public_key store (VStr name) = Returns (x25519_public_key sk).
Proof.
  intros [sk [Hf [Hl Hp]]]. exists sk. repeat split; auto.
  unfold load_encryption_private_key. rewrite Hf. now apply key32_ok.
Qed.

Lemma protect_ready_run T seller buyer km store recipients groups server w :
  protect_ready T seller buyer km store recipients ->
  exists sk idv wk gwk w',
    load_signing_private_key km seller = Returns sk /\
    dict_lookup T "id" = Some idv /\
    protect T seller buyer km store recipients groups server w =
      (Returns (document idv
                  (sealed (draw w 32) (draw (advance w 32) 12) (canonical_bytes T))
                  seller
                  (ed25519_sign sk (sha256 (canonical_bytes T)))
                  (sha256 (canonical_bytes T)) wk gwk), w') /\
    Forall (entry_ok store (draw w 32)) wk /\
    (forall name, dict_mem wk name = true <->
       name = seller \/ name = buyer \/
       (In name (given recipients) /\ resolvable store name)) /\
    (forall r, In r (given recipients) -> unresolvable store r ->
       In (WarnRecipientKeyNotFound r) (stdout w')) /\
    (forall g, dict_mem gwk g = true ->
       In g (given groups) /\
       exists resp, server g = Returns resp /\ status_code resp = 200%Z) /\
    (forall g resp, In g (given groups) -> server g = Returns resp ->
       status_code resp <> 200%Z -> In (WarnGroupFetchFailed g) (stdout w')) /\
    later w w'.
Proof.
  intros [Hvalid [[sk Hsk] [Hrs [Hrb Hrec]]]].
  destruct (protect_run T seller buyer km store recipients groups server w sk
              Hvalid Hsk Hrs Hrb Hrec) as [idv [wk [gwk [w' H]]]].
  exists sk, idv, wk, gwk, w'. tauto.
Qed.

Lemma check_protected store idv enc_key nonce M seller sk wk gwk :
  List.length sk = 32 ->
  get_signing_public_key store (VStr seller) = Returns (ed25519_public_key sk) ->
  check (document idv (sealed enc_key nonce M) seller
           (ed25519_sign sk (sha256 M)) (sha256 M) wk gwk) store =
    Returns {| valid := true; errors := [];
               warnings := [BuyerSignatureNotYetAdded];
               details := [("seller_signature", VStr "valid");
                           ("buyer_signature", VStr "missing");
                           ("individual_recipients", VInt (Z.of_nat (List.length wk)));
                           ("groups", VInt (Z.of_nat (List.length gwk)))]%string |}.
Proof.
  intros Hl Hpk.
  eapply check_single_signed; try reflexivity.
  - simpl. apply py_b64decode_b64text.
  - simpl. apply py_b64decode_b64text.
  - exact Hpk.
  - unfold verify_signature. now apply ed25519_sign_verify.
Qed.

Lemma check_countersigned store idv enc_key nonce M seller sk wk gwk signer sk' :
  List.length sk = 32 ->
  get_signing_public_key store (VStr seller) = Returns (ed25519_public_key sk) ->
  List.length sk' = 32 ->
  get_signing_public_key store (VStr signer) = Returns (ed25519_public_key sk') ->
  check (VDict
           (dict_set
              [("version", VStr "1.0"); ("transaction_id", idv);
               ("encrypted_transaction", sealed enc_key nonce M);
               ("signatures",
                 VDict [("seller", VDict [("company", VStr seller);
                                          ("signature",
                                           b64text (ed25519_sign sk (sha256 M)))]);
                        ("buyer", VNone)]);
               ("wrapped_keys", VDict wk);
               ("group_wrapped_keys", VDict gwk);
               ("transaction_hash", b64text (sha256 M))]%string
              "signatures"
              (VDict (dict_set
                        [("seller", VDict [("company", VStr seller);
                                           ("signature",
                                            b64text (ed25519_sign sk (sha256 M)))]);
                         ("buyer", VNone)]%string
                        "buyer" (buyer_entry signer sk' (sha256 M)))))) store =
    Returns {| valid := true; errors := []; warnings := [];
               details := [("seller_signature", VStr "valid");
                           ("buyer_signature", VStr "valid");
                           ("individual_recipients", VInt (Z.of_nat (List.length wk)));
                           ("groups", VInt (Z.of_nat (List.length gwk)))]%string |}.
Proof.
  intros Hl Hpk Hl' Hpk'.
  eapply check_double_signed; try reflexivity.
  - simpl. apply py_b64decode_b64text.
  - simpl. apply py_b64decode_b64text.
  - exact Hpk.
  - unfold verify_signature. now apply ed25519_sign_verify.
  - simpl. apply py_b64decode_b64text.
  - exact Hpk'.
  - unfold verify_signature. now apply ed25519_sign_verify.
Qed.

End ProtectClaims.

(** ** The demonstration deployment is ready for [protect] *)

Module DemoFacts.

Import Demo.
Local Open Scope string_scope.
#[local] Existing Instance reference.

Lemma seller_resolvable : resolvable public_key_store seller_co.
Proof.
  exists (x25519_public_key (repeat x44 32)). split; [reflexivity|].
  exists (repeat x44 32). split; reflexivity.
Qed.

Lemma buyer_resolvable : resolvable public_key_store buyer_co.
Proof.
  exists (x25519_public_key (repeat x55 32)). split; [reflexivity|].
  exists (repeat x55 32). split; reflexivity.
Qed.

Lemma auditor_resolvable : resolvable public_key_store auditor_co.
Proof.
  exists (x25519_public_key (repeat x66 32)). split; [reflexivity|].
  exists (repeat x66 32). split; reflexivity.
Qed.

Lemma ghost_unresolvable : unresolvable public_key_store "Ghost".
Proof. exists (VStr "Ghost"). reflexivity. Qed.

Lemma transaction_valid : valid_plaintext transaction seller_co buyer_co.
Proof.
  split; [|split; reflexivity].
  intros f Hf. simpl in Hf.
  repeat (destruct Hf as [<-|Hf]; [reflexivity|]). destruct Hf.
Qed.

Lemma ready_plain :
  protect_ready transaction seller_co buyer_co key_manager public_key_store None.
Proof.
  split; [exact transaction_valid|].
  split; [exists (repeat x11 32); reflexivity|].
  split; [exact seller_resolvable|].
  split; [exact buyer_resolvable|].
  intros r [].
Qed.

Lemma ready_with_ghost :
  protect_ready transaction seller_co buyer_co key_manager public_key_store
    (Some ["Ghost"; auditor_co]).
Proof.
  split; [exact transaction_valid|].
  split; [exists (repeat x11 32); reflexivity|].
  split; [exact seller_resolvable|].
  split; [exact buyer_resolvable|].
  intros r [<-|[<-|[]]].
  - right. exact ghost_unresolvable.
  - left. exact auditor_resolvable.
Qed.

Lemma seller_signs : holds_signing_key key_manager public_key_store seller_co.
Proof. exists (repeat x11 32). repeat split; reflexivity. Qed.

Lemma buyer_signs : holds_signing_key key_manager public_key_store buyer_co.
Proof. exists (repeat x22 32). repeat split; reflexivity. Qed.

Lemma buyer_decrypts : holds_encryption_key key_manager public_key_store buyer_co.
Proof. exists (repeat x55 32). repeat split; reflexivity. Qed.

End DemoFacts.

(** C4 (as amended). For a valid plaintext in a working environment,
    [protect] returns a document whose [transaction_hash] is the Base64
    text of SHA-256 over the UTF-8 bytes of
    [json.dumps(T, sort_keys=True)] -- keys sorted, output with the
    default [", "] and [": "] separators -- and whose [transaction_id]
    is [T["id"]]. *)
Theorem protect_hash_and_id (P : Primitives) (L : PrimitiveLaws P) :
  forall (T : pydict) (seller buyer : string) (km : KeyManager)
         (store : PublicKeyStore) (recipients groups : option (list string))
         (server : group_server) (w : world),
    protect_ready T seller buyer km store recipients ->
    exists doc w',
      protect T seller buyer km store recipients groups server w = (Returns doc, w') /\
      py_getitem doc "transaction_hash" =
        Returns (VStr (b64encode (sha256 (utf8_encode
                   (string_of_list_ascii
                      (dumps_with (lit ", ") (lit ": ") (VDict T))))))) /\
      py_getitem doc "transaction_id" = py_getitem (VDict T) "id".
Proof.
  intros T seller buyer km store recipients groups server w Hready.
  destruct (protect_ready_run T seller buyer km store recipients groups server w Hready)
    as [sk [idv [wk [gwk [w' [Hsk [Hid [Hrun _]]]]]]]].
  eexists; eexists. split; [exact Hrun|]. split; [reflexivity|].
  simpl. now rewrite Hid.
Qed.

Lemma protect_hash_and_id_witness :
  exists doc w',
    @protect reference Demo.transaction Demo.seller_co Demo.buyer_co Demo.key_manager
      Demo.public_key_store None None Demo.server Demo.boot = (Returns doc, w') /\
    py_getitem doc "transaction_hash" =
      Returns (VStr (@b64encode reference (@sha256 reference (utf8_encode
                 (string_of_list_ascii
                    (dumps_with (lit ", ") (lit ": ") (VDict Demo.transaction))))))) /\
    py_getitem doc "transaction_id" = py_getitem (VDict Demo.transaction) "id".
Proof.
  apply (protect_hash_and_id reference reference_laws).
  exact DemoFacts.ready_plain.
Defined.

(** C4, the claim as stated fails: for the plaintext of scenario S1 the
    hash in the document is that of the text with [", "] and [": "],
    not that of the whitespace-free canonical form. *)
Lemma protect_hash_is_not_of_compact_json :
  exists doc w',
    @protect reference Demo.transaction Demo.seller_co Demo.buyer_co Demo.key_manager
      Demo.public_key_store None None Demo.server Demo.boot = (Returns doc, w') /\
    py_getitem doc "transaction_hash" =
      Returns (VStr "IZmD3T7IMUGtxb+vq7slrrqwg0NSJHYRdJnYlETStSM=") /\
    @b64encode reference
      (@sha256 reference (utf8_encode (spec_canonical_json (VDict Demo.transaction))))
      = "We4Mp7jsjpc/xTZxXk4fBGfFxEflgrJ4D09A+IvAkc0="%string /\
    py_getitem doc "transaction_hash" <>
      Returns (VStr (@b64encode reference
                 (@sha256 reference
                    (utf8_encode (spec_canonical_json (VDict Demo.transaction)))))).
Proof.
  eexists; eexists. split; [vm_compute; reflexivity|].
  split; [vm_compute; reflexivity|].
  split; [vm_compute; reflexivity|].
  vm_compute. discriminate.
Qed.

(** C8 (as amended). With an optional recipient the store does not know,
    or a group the server does not answer with status 200, [protect]
    still returns a document; it holds no envelope for that recipient
    and no entry for that group; the warning is printed on standard
    output; and the document has exactly its seven fields, none of which
    carries warnings. *)
Theorem protect_skips_and_prints (P : Primitives) (L : PrimitiveLaws P) :
  forall (T : pydict) (seller buyer : string) (km : KeyManager)
         (store : PublicKeyStore) (recipients groups : option (list string))
         (server : group_server) (w : world),
    protect_ready T seller buyer km store recipients ->
    exists d wk gwk w',
      protect T seller buyer km store recipients groups server w
        = (Returns (VDict d), w') /\
      dict_keys d = ["version"; "transaction_id"; "encrypted_transaction";
                     "signatures"; "wrapped_keys"; "group_wrapped_keys";
                     "transaction_hash"]%string /\
      dict_lookup d "wrapped_keys" = Some (VDict wk) /\
      dict_lookup d "group_wrapped_keys" = Some (VDict gwk) /\
      (forall r, In r (given recipients) -> unresolvable store r ->
         dict_mem wk r = false /\ In (WarnRecipientKeyNotFound r) (stdout w')) /\
      (forall g resp, In g (given groups) -> server g = Returns resp ->
         status_code resp <> 200%Z ->
         dict_mem gwk g = false /\ In (WarnGroupFetchFailed g) (stdout w')).
Proof.
  intros T seller buyer km store recipients groups server w Hready.
  destruct (protect_ready_run T seller buyer km store recipients groups server w Hready)
    as [sk [idv [wk [gwk [w' [Hsk [Hid [Hrun [_ [Hmem [Hwr [Hgk [Hgw _]]]]]]]]]]]]].
  destruct Hready as [_ [_ [Hrs [Hrb _]]]].
  eexists; exists wk, gwk, w'. split; [exact Hrun|].
  split; [reflexivity|]. split; [reflexivity|]. split; [reflexivity|]. split.
  - intros r Hin Hu. split; [|now apply Hwr].
    destruct (dict_mem wk r) eqn:E; [|reflexivity].
    exfalso. apply Hmem in E. destruct E as [->|[->|[_ Hres]]];
      eauto using resolvable_not_unresolvable.
  - intros g resp Hin Hs Hn. split; [|now apply (Hgw g resp)].
    destruct (dict_mem gwk g) eqn:E; [|reflexivity].
    exfalso. destruct (Hgk g E) as [_ [resp' [Hs' H200]]]. congruence.
Qed.

Lemma protect_skips_and_prints_witness :
  exists d wk gwk w',
    @protect reference Demo.transaction Demo.seller_co Demo.buyer_co Demo.key_manager
      Demo.public_key_store (Some ["Ghost"; Demo.auditor_co]%string)
      (Some ["nogroup"; "tech_partners"]%string) Demo.server Demo.boot
      = (Returns (VDict d), w') /\
    dict_keys d = ["version"; "transaction_id"; "encrypted_transaction";
                   "signatures"; "wrapped_keys"; "group_wrapped_keys";
                   "transaction_hash"]%string /\
    dict_lookup d "wrapped_keys" = Some (VDict wk) /\
    dict_lookup d "group_wrapped_keys" = Some (VDict gwk) /\
    (forall r, In r ["Ghost"; Demo.auditor_co]%string ->
       @unresolvable reference Demo.public_key_store r ->
       dict_mem wk r = false /\ In (WarnRecipientKeyNotFound r) (stdout w')) /\
    (forall g resp, In g ["nogroup"; "tech_partners"]%string ->
       Demo.server g = Returns resp -> status_code resp <> 200%Z ->
       dict_mem gwk g = false /\ In (WarnGroupFetchFailed g) (stdout w')).
Proof.
  apply (protect_skips_and_prints reference reference_laws).
  exact DemoFacts.ready_with_ghost.
Defined.

(** C8, the claim as stated fails: called with the unknown recipient
    "Ghost" and the unknown group "nogroup", [protect] returns the very
    document it returns without them; the two warnings are on standard
    output only. *)
Lemma protect_warnings_are_not_returned :
  exists doc w1 w2,
    @protect reference Demo.transaction Demo.seller_co Demo.buyer_co Demo.key_manager
      Demo.public_key_store (Some ["Ghost"]%string) (Some ["nogroup"]%string)
      Demo.server Demo.boot = (Returns doc, w1) /\
    @protect reference Demo.transaction Demo.seller_co Demo.buyer_co Demo.key_manager
      Demo.public_key_store None None Demo.server Demo.boot = (Returns doc, w2) /\
    stdout w1 = [WarnRecipientKeyNotFound "Ghost"; WarnGroupFetchFailed "nogroup"] /\
    stdout w2 = [] /\
    option_map dict_keys (match doc with VDict d => Some d | _ => None end)
      = Some ["version"; "transaction_id"; "encrypted_transaction"; "signatures";
              "wrapped_keys"; "group_wrapped_keys"; "transaction_hash"]%string.
Proof.
  eexists; eexists; eexists.
  split; [vm_compute; reflexivity|].
  split; [vm_compute; reflexivity|].
  repeat split.
Qed.

(** C3. For a valid plaintext, in an environment where [protect] goes
    through and the store advertises the public half of the seller's
    signing key, [check] on the protected document reports
    [seller_signature = "valid"] (and the document valid, the buyer
    signature "missing"); once a company whose signing key the store
    advertises -- the buyer -- has applied [buyer_sign], [check]
    reports both signatures "valid". *)
Theorem check_reports_valid_signatures (P : Primitives) (L : PrimitiveLaws P) :
  forall (T : pydict) (seller buyer : string) (km : KeyManager)
         (store : PublicKeyStore) (recipients groups : option (list string))
         (server : group_server) (w : world),
    protect_ready T seller buyer km store recipients ->
    holds_signing_key km store seller ->
    exists doc w' r,
      protect T seller buyer km store recipients groups server w = (Returns doc, w') /\
      check doc store = Returns r /\
      valid r = true /\
      dict_lookup (details r) "seller_signature" = Some (VStr "valid") /\
      dict_lookup (details r) "buyer_signature" = Some (VStr "missing") /\
      forall (signer : string) (km' : KeyManager),
        holds_signing_key km' store signer ->
        exists doc2 r2,
          buyer_sign doc signer km' = Returns doc2 /\
          check doc2 store = Returns r2 /\
          valid r2 = true /\
          dict_lookup (details r2) "seller_signature" = Some (VStr "valid") /\
          dict_lookup (details r2) "buyer_signature" = Some (VStr "valid").
Proof.
  intros T seller buyer km store recipients groups server w Hready Hsign.
  destruct (protect_ready_run T seller buyer km store recipients groups server w Hready)
    as [sk [idv [wk [gwk [w' [Hsk [Hid [Hrun _]]]]]]]].
  destruct (holds_signing_key_loads km store seller Hsign) as [sk0 [Hsk0 [Hl Hpk]]].
  assert (sk0 = sk) by congruence. subst sk0.
  eexists; exists w'; eexists.
  split; [exact Hrun|].
  split; [now apply check_protected|].
  split; [reflexivity|]. split; [reflexivity|]. split; [reflexivity|].
  intros signer km' Hsigner.
  destruct (holds_signing_key_loads km' store signer Hsigner) as [sk' [Hsk' [Hl' Hpk']]].
  eexists; eexists. split.
  - apply buyer_sign_returns_iff.
    eexists; eexists; eexists; exists (sha256 (canonical_bytes T)), sk'.
    split; [reflexivity|]. split; [reflexivity|].
    split; [apply b64_roundtrip|]. split; [reflexivity|].
    split; [exact Hsk' | reflexivity].
  - split; [now apply check_countersigned|].
    split; [reflexivity|]. split; reflexivity.
Qed.

Lemma check_reports_valid_signatures_witness :
  exists doc w' r,
    @protect reference Demo.transaction Demo.seller_co Demo.buyer_co Demo.key_manager
      Demo.public_key_store None None Demo.server Demo.boot = (Returns doc, w') /\
    @check reference doc Demo.public_key_store = Returns r /\
    valid r = true /\
    dict_lookup (details r) "seller_signature" = Some (VStr "valid") /\
    dict_lookup (details r) "buyer_signature" = Some (VStr "missing") /\
    forall (signer : string) (km' : KeyManager),
      @holds_signing_key reference km' Demo.public_key_store signer ->
      exists doc2 r2,
        @buyer_sign reference doc signer km' = Returns doc2 /\
        @check reference doc2 Demo.public_key_store = Returns r2 /\
        valid r2 = true /\
        dict_lookup (details r2) "seller_signature" = Some (VStr "valid") /\
        dict_lookup (details r2) "buyer_signature" = Some (VStr "valid").
Proof.
  apply (check_reports_valid_signatures reference reference_laws).
  - exact DemoFacts.ready_plain.
  - exact DemoFacts.seller_signs.
Defined.

(** ** [json.loads] after [json.dumps], and the round trip *)

(** *** An induction principle that reaches inside lists and dictionaries *)

Lemma value_ind' (Q : value -> Prop) :
  Q VNone -> (forall b, Q (VBool b)) -> (forall n, Q (VInt n)) -> (forall s, Q (VStr s)) ->
  (forall l, Forall Q l -> Q (VList l)) ->
  (forall d, Forall (fun kx => Q (snd kx)) d -> Q (VDict d)) ->
  forall v, Q v.
Proof.
  intros HN HB HI HS HL HD.
  fix IH 1. intros [| b | n | s | l | d];
    [exact HN | apply HB | apply HI | apply HS | | ].
  - apply HL. induction l as [|x l IHl]; constructor; [apply IH | exact IHl].
  - apply HD. induction d as [|[k x] d IHd]; constructor; [apply IH | exact IHd].
Qed.

(** *** Strings: [scan_string] undoes [json_string] *)

Lemma scan_string_escape (c : ascii) (tl : chars) :
  scan_string (json_escape_char c ++ tl) = cons_char c (scan_string tl).
Proof.
  destruct c as [[] [] [] [] [] [] [] []]; reflexivity.
Qed.

Lemma scan_string_json (s : string) (rest : chars) :
  scan_string (flat_map json_escape_char (lit s) ++ dquote :: rest) = Some (s, rest).
Proof.
  induction s as [|c s IH]; [reflexivity|].
  change (lit (String c s)) with (c :: lit s). simpl flat_map.
  rewrite <- app_assoc, scan_string_escape, IH. reflexivity.
Qed.

(** *** Numbers: [scan_number] undoes [decimal] *)

Lemma delimited_no_digit rest :
  delimited rest -> span_digits rest = ([], rest) /\ float_tail rest = false.
Proof.
  destruct rest as [|c r]; [split; reflexivity|].
  intros [ -> | [ -> | -> ] ]; split; try reflexivity; destruct r; reflexivity.
Qed.

Lemma to_uint_head (p : positive) :
  Pos.to_uint p <> Decimal.Nil /\ forall d, Pos.to_uint p <> Decimal.D0 d.
Proof.
  split; [apply DecimalPos.Unsigned.to_uint_nonnil|].
  intros d E.
  pose proof (DecimalZ.to_of (Z.to_int (Z.pos p))) as H.
  rewrite DecimalZ.of_to in H. simpl in H. rewrite E in H.
  unfold Decimal.norm, Decimal.unorm in H.
  destruct (Decimal.nzhead (Decimal.D0 d)) eqn:En.
  all: inversion H; subst.
  - now apply (DecimalPos.Unsigned.to_uint_nonzero p).
  - eapply DecimalFacts.nzhead_nonzero; eassumption.
Qed.

Lemma span_digits_uint (u : Decimal.uint) (rest : chars) :
  delimited rest ->
  span_digits (lit (NilEmpty.string_of_uint u) ++ rest)
    = (lit (NilEmpty.string_of_uint u), rest).
Proof.
  intros Hd. induction u; simpl;
    try (unfold lit in IHu |- *; simpl; rewrite IHu; reflexivity).
  now apply delimited_no_digit.
Qed.

Lemma int_of_digits_pos (u : Decimal.uint) :
  u <> Decimal.Nil ->
  int_of_digits false (lit (NilEmpty.string_of_uint u)) = Some (Z.of_uint u) /\
  int_of_digits true (lit (NilEmpty.string_of_uint u)) = Some (- Z.of_uint u)%Z.
Proof.
  intros Hu. unfold int_of_digits, lit.
  assert (Hz : NilZero.string_of_uint u = NilEmpty.string_of_uint u)
    by (destruct u; try reflexivity; congruence).
  split.
  - rewrite string_of_list_ascii_of_string, <- Hz.
    change (NilZero.string_of_uint u) with (NilZero.string_of_int (Decimal.Pos u)).
    rewrite NilZero.isi by congruence. reflexivity.
  - change (string_of_list_ascii ("-"%char :: list_ascii_of_string (NilEmpty.string_of_uint u)))
      with (String "-" (string_of_list_ascii (list_ascii_of_string (NilEmpty.string_of_uint u)))).
    rewrite string_of_list_ascii_of_string, <- Hz.
    change (String "-" (NilZero.string_of_uint u))
      with (NilZero.string_of_int (Decimal.Neg u)).
    rewrite NilZero.isi by congruence. reflexivity.
Qed.

Lemma scan_number_decimal (z : Z) (rest : chars) :
  delimited rest -> scan_number (decimal z ++ rest) = Some (z, rest).
Proof.
  intros Hd. destruct (delimited_no_digit rest Hd) as [Hs Hf].
  unfold decimal. destruct z as [|p|p].
  - simpl. unfold scan_number. simpl. now rewrite Hf.
  - simpl Z.to_int. simpl NilZero.string_of_int.
    destruct (to_uint_head p) as [Hn Hz].
    pose proof (span_digits_uint (Pos.to_uint p) rest Hd) as Hsp.
    destruct (int_of_digits_pos (Pos.to_uint p) Hn) as [Hi _].
    assert (Hzu : Z.of_uint (Pos.to_uint p) = Z.pos p).
    { unfold Z.of_uint. now rewrite DecimalPos.Unsigned.of_to. }
    rewrite Hzu in Hi. clear Hzu.
    unfold NilZero.string_of_uint.
    destruct (Pos.to_uint p) eqn:Eu; try congruence; try (exfalso; eapply Hz; reflexivity).
    all: unfold scan_number; unfold lit in *; simpl in Hsp |- *;
         rewrite Hsp; rewrite Hf; simpl in Hi; rewrite Hi; reflexivity.
  - simpl Z.to_int. simpl NilZero.string_of_int.
    destruct (to_uint_head p) as [Hn Hz].
    pose proof (span_digits_uint (Pos.to_uint p) rest Hd) as Hsp.
    destruct (int_of_digits_pos (Pos.to_uint p) Hn) as [_ Hi].
    assert (Hzu : (- Z.of_uint (Pos.to_uint p))%Z = Z.neg p).
    { unfold Z.of_uint. now rewrite DecimalPos.Unsigned.of_to. }
    rewrite Hzu in Hi. clear Hzu.
    unfold NilZero.string_of_uint.
    destruct (Pos.to_uint p) eqn:Eu; try congruence; try (exfalso; eapply Hz; reflexivity).
    all: unfold scan_number; unfold lit in *; simpl in Hsp |- *;
         rewrite Hsp; rewrite Hf; simpl in Hi; rewrite Hi; reflexivity.
Qed.

(** *** Sorting the items of a dictionary *)

Lemma insert_item_map {A B : Type} (g : A -> B) k x (l : list (string * A)) :
  insert_item k (g x) (map_values g l) = map_values g (insert_item k x l).
Proof.
  induction l as [|[k' y] l IH]; simpl; [reflexivity|].
  destruct (String.compare k k'); simpl; try reflexivity. now rewrite IH.
Qed.

Lemma sort_items_map {A B : Type} (g : A -> B) (l : list (string * A)) :
  sort_items (map_values g l) = map_values g (sort_items l).
Proof.
  induction l as [|[k x] l IH]; simpl; [reflexivity|].
  now rewrite IH, insert_item_map.
Qed.

Lemma insert_item_Forall {A : Type} (Q : string * A -> Prop) k x l :
  Q (k, x) -> Forall Q l -> Forall Q (insert_item k x l).
Proof.
  intros Hx Hl. induction Hl as [|[k' y] l Hy Hl IH]; simpl.
  - now constructor.
  - destruct (String.compare k k'); repeat constructor; auto.
Qed.

Lemma sort_items_Forall {A : Type} (Q : string * A -> Prop) l :
  Forall Q l -> Forall Q (sort_items l).
Proof.
  induction 1 as [|[k x] l Hx Hl IH]; simpl; [constructor|].
  now apply insert_item_Forall.
Qed.

Lemma insert_item_keys_In {A : Type} k (x : A) l k' :
  In k' (map fst (insert_item k x l)) <-> k' = k \/ In k' (map fst l).
Proof.
  induction l as [|[k0 y] l IH]; simpl.
  - intuition.
  - destruct (String.compare k k0); simpl; rewrite ?IH; intuition.
Qed.

Lemma insert_item_NoDup {A : Type} k (x : A) l :
  ~ In k (map fst l) -> NoDup (map fst l) -> NoDup (map fst (insert_item k x l)).
Proof.
  induction l as [|[k0 y] l IH]; simpl; intros Hk Hn.
  - constructor; [intros [] | constructor].
  - inversion Hn as [|? ? Hk0 Hl]; subst.
    destruct (String.compare k k0); simpl.
    + constructor; [simpl; tauto | now constructor].
    + constructor; [simpl; tauto | now constructor].
    + constructor.
      * rewrite insert_item_keys_In. intros [->|H]; tauto.
      * apply IH; tauto.
Qed.

Lemma sort_items_keys_In {A : Type} (l : list (string * A)) k :
  In k (map fst (sort_items l)) <-> In k (map fst l).
Proof.
  induction l as [|[k0 x] l IH]; simpl; [tauto|].
  rewrite insert_item_keys_In, IH. intuition.
Qed.

Lemma sort_items_NoDup {A : Type} (l : list (string * A)) :
  NoDup (map fst l) -> NoDup (map fst (sort_items l)).
Proof.
  induction l as [|[k x] l IH]; simpl; intros Hn; [constructor|].
  inversion Hn; subst. apply insert_item_NoDup; [|now apply IH].
  now rewrite sort_items_keys_In.
Qed.

Lemma nodupb_NoDup l : nodupb l = true -> NoDup l.
Proof.
  induction l as [|k l IH]; simpl; [constructor|].
  intros H. apply andb_true_iff in H. destruct H as [H1 H2].
  constructor; [|now apply IH].
  intros Hin. apply negb_true_iff in H1.
  assert (existsb (String.eqb k) l = true); [|congruence].
  apply existsb_exists. exists k. split; [assumption | apply String.eqb_refl].
Qed.

(** *** [dict(pairs)] on distinct keys *)

Lemma dict_set_fresh d k v : ~ In k (map fst d) -> dict_set d k v = d ++ [(k, v)].
Proof.
  induction d as [|[k' v'] d IH]; simpl; intros H; [reflexivity|].
  destruct (String.eqb_spec k' k) as [->|Hne]; [tauto|].
  rewrite IH by tauto. reflexivity.
Qed.

Lemma dict_of_pairs_distinct l : NoDup (map fst l) -> dict_of_pairs l = l.
Proof.
  unfold dict_of_pairs.
  assert (H : forall acc, NoDup (map fst (acc ++ l)) ->
            fold_left (fun d kx => dict_set d (fst kx) (snd kx)) l acc = acc ++ l).
  { induction l as [|[k v] l IH]; intros acc Hn; simpl.
    - now rewrite app_nil_r.
    - rewrite dict_set_fresh.
      + rewrite IH; rewrite <- app_assoc; [reflexivity | exact Hn].
      + rewrite map_app in Hn. simpl in Hn.
        apply NoDup_remove_2 in Hn. intros Hin. apply Hn.
        apply in_or_app. now left. }
  intros Hn. apply (H []). exact Hn.
Qed.

(** *** The scanner, one step at a time *)

Lemma scan_value_string f r :
  scan_value (S f) (dquote :: r) =
    match scan_string r with
    | Some (x, rest) => Some (VStr x, rest)
    | None => None
    end.
Proof. reflexivity. Qed.

Lemma scan_value_number f c tl :
  c = "-"%char \/ is_digit c = true ->
  scan_value (S f) (c :: tl) =
    match scan_number (c :: tl) with
    | Some (n, rest) => Some (VInt n, rest)
    | None => None
    end.
Proof.
  intros [->|H]; [reflexivity|].
  destruct c as [[] [] [] [] [] [] [] []]; try discriminate H; reflexivity.
Qed.

Lemma scan_value_list f r :
  scan_value (S f) ("["%char :: r) =
    match skip_ws r with
    | c1 :: r1 =>
        if Ascii.eqb c1 "]"%char then Some (VList [], r1)
        else match scan_elements f (c1 :: r1) with
             | Some (vs, rest) => Some (VList vs, rest)
             | None => None
             end
    | [] => None
    end.
Proof. reflexivity. Qed.

Lemma scan_value_dict f r :
  scan_value (S f) ("{"%char :: r) =
    match skip_ws r with
    | c1 :: r1 =>
        if Ascii.eqb c1 "}"%char then Some (VDict [], r1)
        else match scan_members f (c1 :: r1) with
             | Some (pairs, rest) => Some (VDict (dict_of_pairs pairs), rest)
             | None => None
             end
    | [] => None
    end.
Proof. reflexivity. Qed.

Lemma scan_elements_step f s :
  scan_elements (S f) s =
    match scan_value f s with
    | Some (v, r) =>
        match skip_ws r with
        | c :: r1 =>
            if Ascii.eqb c ","%char then
              match scan_elements f (skip_ws r1) with
              | Some (vs, rest) => Some (v :: vs, rest)
              | None => None
              end
            else if Ascii.eqb c "]"%char then Some ([v], r1)
            else None
        | [] => None
        end
    | None => None
    end.
Proof. reflexivity. Qed.

Lemma scan_members_step f r :
  scan_members (S f) (dquote :: r) =
    match scan_string r with
    | Some (k, r1) =>
        match skip_ws r1 with
        | c :: r2 =>
            if Ascii.eqb c ":"%char then
              match scan_value f (skip_ws r2) with
              | Some (v, r3) =>
                  match skip_ws r3 with
                  | c3 :: r4 =>
                      if Ascii.eqb c3 ","%char then
                        match scan_members f (skip_ws r4) with
                        | Some (pairs, rest) => Some ((k, v) :: pairs, rest)
                        | None => None
                        end
                      else if Ascii.eqb c3 "}"%char then Some ([(k, v)], r4)
                      else None
                  | [] => None
                  end
              | None => None
              end
            else None
        | [] => None
        end
    | None => None
    end.
Proof. reflexivity. Qed.

(** *** What a printed value starts with *)

Lemma decimal_head z :
  exists c tl, decimal z = c :: tl /\ (c = "-"%char \/ is_digit c = true).
Proof.
  unfold decimal. destruct z as [|p|p]; simpl.
  - eexists; eexists; split; [reflexivity | now right].
  - destruct (to_uint_head p) as [Hn _]. unfold NilZero.string_of_uint.
    destruct (Pos.to_uint p); try congruence;
      (eexists; eexists; split; [reflexivity | now right]).
  - eexists; eexists; split; [reflexivity | now left].
Qed.

Lemma dumps_head v : exists c tl, dumps v = c :: tl /\ value_start c.
Proof.
  destruct v as [| [] | z | s | l | d]; unfold dumps; simpl;
    try (eexists; eexists; split; [reflexivity | repeat split]).
  destruct (decimal_head z) as [c [tl [E H]]]. exists c, tl. split; [exact E|].
  destruct H as [->|H]; [repeat split|].
  destruct c as [[] [] [] [] [] [] [] []]; try discriminate H; repeat split.
Qed.

Lemma skip_ws_start c tl : is_ws c = false -> skip_ws (c :: tl) = c :: tl.
Proof. intros H. simpl. now rewrite H. Qed.

Lemma skip_ws_dumps v r : skip_ws (dumps v ++ r) = dumps v ++ r.
Proof.
  destruct (dumps_head v) as [c [tl [E [H _]]]]. rewrite E. simpl. now rewrite H.
Qed.

(** *** Lists, dictionaries, and the whole value *)

Lemma value_size_pos v : 1 <= value_size v.
Proof. destruct v; simpl; lia. Qed.

Lemma insert_item_size k x d :
  sum_member_sizes (insert_item k x d) = value_size x + sum_member_sizes d.
Proof.
  induction d as [|[k' y] d IH]; simpl; [reflexivity|].
  destruct (String.compare k k'); simpl; try reflexivity.
  fold (sum_member_sizes (insert_item k x d)). rewrite IH.
  fold (sum_member_sizes d). lia.
Qed.

Lemma sort_items_size d : sum_member_sizes (sort_items d) = sum_member_sizes d.
Proof.
  induction d as [|[k x] d IH]; simpl; [reflexivity|].
  rewrite insert_item_size, IH. reflexivity.
Qed.

Lemma join_head x l rest :
  exists c tl, join item_separator (map dumps (x :: l)) ++ rest = c :: tl /\ value_start c.
Proof.
  destruct (dumps_head x) as [c [tl [E H]]].
  destruct l as [|y l]; simpl; rewrite E; simpl; eexists; eexists; split;
    try reflexivity; exact H.
Qed.

Lemma scan_elements_more f s v r vs rest :
  scan_value f s = Some (v, item_separator ++ r) ->
  scan_elements f (skip_ws r) = Some (vs, rest) ->
  scan_elements (S f) s = Some (v :: vs, rest).
Proof.
  intros Hv Hr. rewrite scan_elements_step, Hv.
  change (skip_ws (item_separator ++ r)) with (","%char :: " "%char :: r).
  change (skip_ws (" "%char :: r)) with (skip_ws r).
  cbv beta iota. change (Ascii.eqb ","%char ","%char) with true. cbv iota.
  change (skip_ws (" "%char :: r)) with (skip_ws r). now rewrite Hr.
Qed.

Lemma scan_elements_last f s v rest :
  scan_value f s = Some (v, "]"%char :: rest) ->
  scan_elements (S f) s = Some ([v], rest).
Proof. intros Hv. rewrite scan_elements_step, Hv. reflexivity. Qed.

Lemma scan_members_key f k s :
  scan_members (S f) (json_string k ++ key_separator ++ s) =
    match scan_value f (skip_ws s) with
    | Some (v, r3) =>
        match skip_ws r3 with
        | c3 :: r4 =>
            if Ascii.eqb c3 ","%char then
              match scan_members f (skip_ws r4) with
              | Some (pairs, rest) => Some ((k, v) :: pairs, rest)
              | None => None
              end
            else if Ascii.eqb c3 "}"%char then Some ([(k, v)], r4)
            else None
        | [] => None
        end
    | None => None
    end.
Proof.
  unfold json_string.
  change ((dquote :: flat_map json_escape_char (lit k) ++ [dquote]) ++ key_separator ++ s)
    with (dquote :: (flat_map json_escape_char (lit k) ++ [dquote]) ++ key_separator ++ s).
  rewrite scan_members_step, <- app_assoc.
  change ([dquote] ++ key_separator ++ s) with (dquote :: key_separator ++ s).
  rewrite scan_string_json. reflexivity.
Qed.

Lemma scan_members_more f k s v r pairs rest :
  scan_value f (skip_ws s) = Some (v, item_separator ++ r) ->
  scan_members f (skip_ws r) = Some (pairs, rest) ->
  scan_members (S f) (json_string k ++ key_separator ++ s) = Some ((k, v) :: pairs, rest).
Proof.
  intros Hv Hr. rewrite scan_members_key, Hv.
  change (skip_ws (item_separator ++ r)) with (","%char :: " "%char :: r).
  cbv beta iota. change (Ascii.eqb ","%char ","%char) with true. cbv iota.
  change (skip_ws (" "%char :: r)) with (skip_ws r). now rewrite Hr.
Qed.

Lemma scan_members_last f k s v rest :
  scan_value f (skip_ws s) = Some (v, "}"%char :: rest) ->
  scan_members (S f) (json_string k ++ key_separator ++ s) = Some ([(k, v)], rest).
Proof. intros Hv. rewrite scan_members_key, Hv. reflexivity. Qed.

Lemma scan_elements_join l :
  Forall reads_back l -> l <> [] ->
  forall fuel rest,
    2 * sum_sizes l + 1 <= fuel ->
    scan_elements fuel (join item_separator (map dumps l) ++ "]"%char :: rest)
      = Some (map canonical l, rest).
Proof.
  induction 1 as [|x l Hx Hl IH]; [congruence|]. intros _ fuel rest Hf.
  destruct fuel as [|f]; [lia|].
  simpl in Hf. fold (sum_sizes l) in Hf.
  pose proof (value_size_pos x).
  destruct l as [|y l].
  - apply scan_elements_last. simpl join. apply Hx; simpl; auto; lia.
  - change (join item_separator (map dumps (x :: y :: l)))
      with (dumps x ++ item_separator ++ join item_separator (map dumps (y :: l))).
    rewrite <- !app_assoc.
    eapply scan_elements_more.
    + apply Hx; simpl; auto; lia.
    + destruct (join_head y l ("]"%char :: rest)) as [c [tl [E [Hws _]]]].
      rewrite E at 1. rewrite (skip_ws_start c tl Hws), <- E.
      apply IH; [congruence | lia].
Qed.

Lemma members_head k x m rest :
  exists tl,
    join item_separator (map (json_member key_separator) (map_values dumps ((k, x) :: m))) ++ rest
      = dquote :: tl.
Proof.
  destruct m as [|[k' y] m]; simpl; unfold json_member, json_string; simpl;
    eexists; reflexivity.
Qed.

Lemma scan_members_join m :
  Forall (fun kx => reads_back (snd kx)) m -> m <> [] ->
  forall fuel rest,
    2 * sum_member_sizes m + 1 <= fuel ->
    scan_members fuel
      (join item_separator (map (json_member key_separator) (map_values dumps m))
         ++ "}"%char :: rest)
      = Some (map_values canonical m, rest).
Proof.
  induction 1 as [|[k x] m Hx Hm IH]; [congruence|]. intros _ fuel rest Hf.
  destruct fuel as [|f]; [lia|].
  simpl in Hf, Hx. fold (sum_member_sizes m) in Hf.
  pose proof (value_size_pos x).
  destruct m as [|[k' y] m].
  - simpl join. unfold json_member. simpl fst. simpl snd. rewrite <- !app_assoc.
    apply scan_members_last. rewrite skip_ws_dumps. apply Hx; simpl; auto; lia.
  - change (join item_separator
              (map (json_member key_separator) (map_values dumps ((k, x) :: (k', y) :: m))))
      with ((json_string k ++ key_separator ++ dumps x) ++ item_separator ++
            join item_separator
              (map (json_member key_separator) (map_values dumps ((k', y) :: m)))).
    rewrite <- !app_assoc.
    eapply scan_members_more.
    + rewrite skip_ws_dumps. apply Hx; simpl; auto; lia.
    + destruct (members_head k' y m ("}"%char :: rest)) as [tl E].
      rewrite E at 1. rewrite (skip_ws_start dquote tl eq_refl), <- E.
      apply IH; [congruence | lia].
Qed.

Lemma forallb_Forall_wf (l : list value) (Q : value -> Prop) :
  Forall (fun x => well_formed x = true -> Q x) l ->
  forallb well_formed l = true -> Forall Q l.
Proof.
  induction 1 as [|x l Hx Hl IH]; simpl; intros H; constructor;
    apply andb_true_iff in H; destruct H; auto.
Qed.

Lemma forallb_Forall_members (d : pydict) (Q : value -> Prop) :
  Forall (fun kx => well_formed (snd kx) = true -> Q (snd kx)) d ->
  forallb (fun kx => match kx with (_, x) => well_formed x end) d = true ->
  Forall (fun kx => Q (snd kx)) d.
Proof.
  induction 1 as [|[k x] l Hx Hl IH]; simpl; intros H; constructor;
    apply andb_true_iff in H; destruct H; auto.
Qed.

Lemma map_values_keys {A B : Type} (g : A -> B) l : map fst (map_values g l) = map fst l.
Proof. induction l as [|[k x] l IH]; simpl; congruence. Qed.

Theorem scan_value_dumps v : well_formed v = true -> reads_back v.
Proof.
  induction v as [| b | z | s | l IH | d IH] using value_ind';
    intros Hwf fuel rest Hf Hd;
    (destruct fuel as [|f]; [simpl in Hf; lia|]).
  - reflexivity.
  - destruct b; reflexivity.
  - change (dumps (VInt z)) with (decimal z).
    destruct (decimal_head z) as [c [tl [E Hc]]].
    rewrite E. change ((c :: tl) ++ rest) with (c :: tl ++ rest).
    rewrite scan_value_number by exact Hc.
    change (c :: tl ++ rest) with ((c :: tl) ++ rest). rewrite <- E.
    now rewrite scan_number_decimal.
  - change (dumps (VStr s)) with (dquote :: flat_map json_escape_char (lit s) ++ [dquote]).
    change ((dquote :: flat_map json_escape_char (lit s) ++ [dquote]) ++ rest)
      with (dquote :: (flat_map json_escape_char (lit s) ++ [dquote]) ++ rest).
    rewrite scan_value_string, <- app_assoc.
    change ([dquote] ++ rest) with (dquote :: rest).
    now rewrite scan_string_json.
  - simpl in Hwf. pose proof (forallb_Forall_wf l reads_back IH Hwf) as Hl.
    change (dumps (VList l)) with ("["%char :: join item_separator (map dumps l) ++ ["]"%char]).
    change (("["%char :: join item_separator (map dumps l) ++ ["]"%char]) ++ rest)
      with ("["%char :: (join item_separator (map dumps l) ++ ["]"%char]) ++ rest).
    rewrite scan_value_list, <- app_assoc.
    change (["]"%char] ++ rest) with ("]"%char :: rest).
    destruct l as [|x l]; [reflexivity|].
    destruct (join_head x l ("]"%char :: rest)) as [c [tl [E [Hws [Hb _]]]]].
    rewrite E at 1. rewrite (skip_ws_start c tl Hws), Hb, <- E.
    rewrite (scan_elements_join _ Hl); [reflexivity | congruence |].
    change (value_size (VList (x :: l))) with (S (sum_sizes (x :: l))) in Hf. lia.
  - simpl in Hwf. apply andb_true_iff in Hwf. destruct Hwf as [Hk Hwf].
    pose proof (forallb_Forall_members d reads_back IH Hwf) as Hl.
    change (dumps (VDict d))
      with ("{"%char ::
            join item_separator
              (map (json_member key_separator) (sort_items (map_values dumps d)))
            ++ ["}"%char]).
    change (canonical (VDict d)) with (VDict (sort_items (map_values canonical d))).
    rewrite !sort_items_map.
    change (("{"%char :: ?a ++ ["}"%char]) ++ rest) with ("{"%char :: (a ++ ["}"%char]) ++ rest).
    simpl app at 1.
    rewrite scan_value_dict, <- app_assoc.
    change (["}"%char] ++ rest) with ("}"%char :: rest).
    apply (sort_items_Forall (fun kx => reads_back (snd kx))) in Hl.
    assert (Hn : NoDup (map fst (sort_items d)))
      by (apply sort_items_NoDup, nodupb_NoDup, Hk).
    assert (Hs : 2 * sum_member_sizes (sort_items d) + 1 <= f).
    { rewrite sort_items_size.
      change (value_size (VDict d)) with (S (sum_member_sizes d)) in Hf. lia. }
    destruct (sort_items d) as [|[k x] m]; [reflexivity|].
    destruct (members_head k x m ("}"%char :: rest)) as [tl E].
    rewrite E at 1. rewrite (skip_ws_start dquote tl eq_refl).
    change (Ascii.eqb dquote "}"%char) with false. cbv iota. rewrite <- E.
    rewrite (scan_members_join _ Hl); [| congruence | exact Hs].
    rewrite dict_of_pairs_distinct; [reflexivity|].
    now rewrite map_values_keys.
Qed.

(** *** The fuel [json_loads] gives is enough *)

Lemma join_length_ge sep (parts : list chars) :
  fold_right (fun p n => List.length p + n) 0 parts <= List.length (join sep parts).
Proof.
  induction parts as [|p parts IH]; simpl; [lia|].
  destruct parts as [|q parts]; [simpl; lia|].
  rewrite !length_app. simpl in IH |- *. lia.
Qed.

Lemma insert_item_printed k (x : chars) m :
  sum_printed (insert_item k x m) = List.length x + sum_printed m.
Proof.
  induction m as [|[k' y] m IH]; simpl; [reflexivity|].
  destruct (String.compare k k'); simpl; try reflexivity.
  fold (sum_printed (insert_item k x m)). rewrite IH.
  fold (sum_printed m). lia.
Qed.

Lemma sort_items_printed m : sum_printed (sort_items m) = sum_printed m.
Proof.
  induction m as [|[k x] m IH]; simpl; [reflexivity|].
  rewrite insert_item_printed, IH. reflexivity.
Qed.

Lemma members_length_ge (m : list (string * chars)) :
  sum_printed m <=
  fold_right (fun p n => List.length p + n) 0 (map (json_member key_separator) m).
Proof.
  induction m as [|[k x] m IH]; [simpl; lia|].
  change (sum_printed ((k, x) :: m)) with (List.length x + sum_printed m).
  change (map (json_member key_separator) ((k, x) :: m))
    with ((json_string k ++ key_separator ++ x) :: map (json_member key_separator) m).
  cbn [fold_right]. rewrite !length_app. lia.
Qed.

Lemma value_size_dumps v : value_size v <= List.length (dumps v).
Proof.
  induction v as [| b | z | s | l IH | d IH] using value_ind'.
  - simpl. lia.
  - destruct b; simpl; lia.
  - destruct (decimal_head z) as [c [tl [E _]]]. change (dumps (VInt z)) with (decimal z).
    rewrite E. simpl. lia.
  - simpl. lia.
  - change (dumps (VList l)) with ("["%char :: join item_separator (map dumps l) ++ ["]"%char]).
    change (value_size (VList l)) with (S (sum_sizes l)).
    simpl List.length. rewrite length_app.
    pose proof (join_length_ge item_separator (map dumps l)) as Hj.
    assert (Hs : sum_sizes l <= fold_right (fun p n => List.length p + n) 0 (map dumps l)).
    { clear Hj. induction IH as [|x l Hx Hl IHl]; simpl; [lia|].
      fold (sum_sizes l). lia. }
    simpl. lia.
  - change (dumps (VDict d))
      with ("{"%char ::
            join item_separator
              (map (json_member key_separator) (sort_items (map_values dumps d)))
            ++ ["}"%char]).
    change (value_size (VDict d)) with (S (sum_member_sizes d)).
    simpl List.length. rewrite length_app.
    pose proof (join_length_ge item_separator
                  (map (json_member key_separator) (sort_items (map_values dumps d)))) as Hj.
    pose proof (members_length_ge (sort_items (map_values dumps d))) as Hm.
    rewrite sort_items_printed in Hm.
    assert (Hs : sum_member_sizes d <= sum_printed (map_values dumps d)).
    { clear Hj Hm. induction IH as [|[k x] l Hx Hl IHl]; simpl; [lia|].
      fold (sum_member_sizes l). fold (sum_printed (map_values dumps l)).
      simpl in Hx. lia. }
    simpl. lia.
Qed.

Theorem json_loads_dumps v :
  well_formed v = true -> json_loads (json_dumps_sorted v) = Returns (canonical v).
Proof.
  intros Hwf. unfold json_loads, json_dumps_sorted, lit.
  rewrite list_ascii_of_string_of_list_ascii.
  pose proof (skip_ws_dumps v []) as Hs. rewrite app_nil_r in Hs. rewrite Hs.
  pose proof (scan_value_dumps v Hwf (2 * List.length (dumps v) + 2) [])
    as H.
  rewrite app_nil_r in H. rewrite H; [reflexivity | | exact I].
  pose proof (value_size_dumps v). lia.
Qed.

(** *** UTF-8 *)

Lemma utf8_decode_char c b :
  utf8_decode (utf8_encode_char c ++ b) = option_map (String c) (utf8_decode b).
Proof.
  destruct c as [[] [] [] [] [] [] [] []]; reflexivity.
Qed.

Theorem utf8_decode_encode s : utf8_decode (utf8_encode s) = Some s.
Proof.
  induction s as [|c s IH]; [reflexivity|].
  change (utf8_encode (String c s)) with (utf8_encode_char c ++ utf8_encode s).
  now rewrite utf8_decode_char, IH.
Qed.

(** *** Sorting twice, and printing the canonical form *)

Lemma insert_item_ordered {A : Type} k (x : A) l :
  ordered l -> ordered (insert_item k x l).
Proof.
  induction l as [|[k' y] l IH]; intros Ho; [simpl; auto|].
  simpl insert_item. destruct (String.compare k k') eqn:E.
  - split; [congruence | exact Ho].
  - split; [congruence | exact Ho].
  - destruct Ho as [Hh Ht]. specialize (IH Ht). split; [|exact IH].
    destruct l as [|[k2 z] l].
    + simpl. rewrite String.compare_antisym, E. discriminate.
    + simpl insert_item. destruct (String.compare k k2); try exact Hh.
      all: rewrite String.compare_antisym, E; discriminate.
Qed.

Lemma sort_items_ordered {A : Type} (l : list (string * A)) : ordered (sort_items l).
Proof.
  induction l as [|[k x] l IH]; [exact I|]. now apply insert_item_ordered.
Qed.

Lemma sort_items_id {A : Type} (l : list (string * A)) : ordered l -> sort_items l = l.
Proof.
  induction l as [|[k x] l IH]; [reflexivity|]. intros [Hh Ht].
  simpl. rewrite IH by exact Ht. destruct l as [|[k' y] l]; [reflexivity|].
  simpl. destruct (String.compare k k'); congruence.
Qed.

Lemma sort_items_twice {A : Type} (l : list (string * A)) :
  sort_items (sort_items l) = sort_items l.
Proof. apply sort_items_id, sort_items_ordered. Qed.

Lemma map_values_compose {A B C : Type} (g : A -> B) (h : B -> C) l :
  map_values h (map_values g l) = map_values (fun x => h (g x)) l.
Proof. induction l as [|[k x] l IH]; simpl; [reflexivity|]. now rewrite <- IH. Qed.

Theorem dumps_canonical v : dumps (canonical v) = dumps v.
Proof.
  induction v as [| b | z | s | l IH | d IH] using value_ind'; try reflexivity.
  - change (canonical (VList l)) with (VList (map canonical l)).
    change (dumps (VList (map canonical l)))
      with ("["%char :: join item_separator (map dumps (map canonical l)) ++ ["]"%char]).
    change (dumps (VList l)) with ("["%char :: join item_separator (map dumps l) ++ ["]"%char]).
    do 3 f_equal. rewrite map_map. apply map_ext_Forall. exact IH.
  - change (canonical (VDict d)) with (VDict (sort_items (map_values canonical d))).
    change (dumps (VDict d))
      with ("{"%char ::
            join item_separator
              (map (json_member key_separator) (sort_items (map_values dumps d)))
            ++ ["}"%char]).
    change (dumps (VDict (sort_items (map_values canonical d))))
      with ("{"%char ::
            join item_separator
              (map (json_member key_separator)
                 (sort_items (map_values dumps (sort_items (map_values canonical d)))))
            ++ ["}"%char]).
    do 4 f_equal.
    rewrite <- sort_items_map, sort_items_twice, map_values_compose. f_equal.
    clear -IH. induction IH as [|[k x] l Hx Hl IHl]; simpl; [reflexivity|].
    simpl in Hx. now rewrite Hx, IHl.
Qed.

(** *** The individual path of [unprotect] *)
Section RoundTrip.

Context {P : Primitives} {L : PrimitiveLaws P}.

#[local] Arguments load_encryption_private_key : simpl never.
#[local] Arguments decrypt_aes_gcm : simpl never.
#[local] Arguments unwrap_key_x25519 : simpl never.

Lemma unprotect_individual idv K_T nonce M seller sg h wk gwk R km env sk text tx :
  dict_lookup wk R = Some env ->
  load_encryption_private_key km R = Returns sk ->
  unwrap_key_x25519 sk env = Returns K_T ->
  List.length K_T = 32 -> List.length nonce = 12 ->
  utf8_decode M = Some text ->
  json_loads text = Returns tx ->
  unprotect (document idv (sealed K_T nonce M) seller sg h wk gwk) R km =
    Returns (VDict [("transaction", tx); ("access_method", VStr "individual");
                    ("verified", VBool true)]%string).
Proof.
  intros He Hk Hu HK Hn Ht Hj.
  unfold unprotect, document. simpl py_get. cbn [obind py_contains].
  unfold dict_mem. rewrite He. cbn [obind]. simpl py_getitem. cbn [obind].
  unfold py_getitem at 1. rewrite He. cbn [obind].
  rewrite Hk. cbn [obind]. rewrite Hu. cbn [obind fst snd].
  rewrite (decrypt_sealed K_T nonce M HK Hn). cbn [obind].
  rewrite Ht. cbn [obind]. rewrite Hj. reflexivity.
Qed.

End RoundTrip.

(** X1. Round trip through the individual path.  For a valid plaintext [T]
    (a Python dictionary, so with distinct keys at every depth) and an
    environment in which [protect] goes through, [protect] returns a
    document that every company with an entry in [wrapped_keys] -- the
    seller, the buyer, and each named recipient the store resolves --
    decrypts with its own encryption private key: [unprotect] returns
    ["transaction"] equal to [T] with its items in key order (which
    serialises to the very text that was encrypted), ["access_method"]
    ["individual"] and ["verified": True].  This is the part of the
    round trip the code provides; holders of a group envelope are the
    ones it leaves out. *)
Theorem individual_holder_round_trip (P : Primitives) (L : PrimitiveLaws P) :
  forall T seller buyer km store recipients groups server w,
    protect_ready T seller buyer km store recipients ->
    well_formed (VDict T) = true ->
    exists doc w',
      protect T seller buyer km store recipients groups server w = (Returns doc, w') /\
      json_dumps_sorted (canonical (VDict T)) = json_dumps_sorted (VDict T) /\
      forall R kmR,
        (R = seller \/ R = buyer \/ (In R (given recipients) /\ resolvable store R)) ->
        holds_encryption_key kmR store R ->
        unprotect doc R kmR =
          Returns (VDict [("transaction", canonical (VDict T));
                          ("access_method", VStr "individual");
                          ("verified", VBool true)]%string).
Proof.
  intros T seller buyer km store recipients groups server w Hready Hwf.
  destruct (protect_ready_run T seller buyer km store recipients groups server w Hready)
    as [sk [idv [wk [gwk [w' [_ [_ [Hrun [Hall [Hmem _]]]]]]]]]].
  eexists. exists w'. split; [exact Hrun|]. split.
  - unfold json_dumps_sorted. now rewrite dumps_canonical.
  - intros R kmR HR Hholds.
    apply Hmem in HR. destruct (dict_mem_lookup wk R HR) as [env He].
    destruct (holds_encryption_key_loads kmR store R Hholds) as [skR [Hload [Hlen Hpk]]].
    pose proof (dict_lookup_In _ _ _ He) as Hin.
    rewrite Forall_forall in Hall. destruct (Hall _ Hin) as [pk [Hpk' Henv]].
    simpl in Hpk', Henv. rewrite Hpk in Hpk'. inversion Hpk'; subst pk.
    eapply unprotect_individual.
    + exact He.
    + exact Hload.
    + now apply unwrap_envelope.
    + apply draw_length.
    + apply draw_length.
    + apply utf8_decode_encode.
    + now apply json_loads_dumps.
Qed.

Lemma individual_holder_round_trip_witness :
  exists doc w',
    @protect reference Demo.transaction Demo.seller_co Demo.buyer_co Demo.key_manager
      Demo.public_key_store (Some ["Ghost"; Demo.auditor_co]%string) None
      Demo.server Demo.boot = (Returns doc, w') /\
    json_dumps_sorted (canonical (VDict Demo.transaction))
      = json_dumps_sorted (VDict Demo.transaction) /\
    forall R kmR,
      (R = Demo.seller_co \/ R = Demo.buyer_co \/
       (In R (given (Some ["Ghost"; Demo.auditor_co]%string)) /\
        @resolvable reference Demo.public_key_store R)) ->
      @holds_encryption_key reference kmR Demo.public_key_store R ->
      @unprotect reference doc R kmR =
        Returns (VDict [("transaction", canonical (VDict Demo.transaction));
                        ("access_method", VStr "individual");
                        ("verified", VBool true)]%string).
Proof.
  apply (individual_holder_round_trip reference reference_laws).
  - exact DemoFacts.ready_with_ghost.
  - reflexivity.
Defined.

(** ** The group path on a concrete run *)

(** C1 (the code departs from it). [protect], asked to share the
    transaction of scenario S1 with the group "tech_partners" whose only
    member is "AuditorCorp", returns a document that holds an envelope
    for "AuditorCorp" under that group; the envelope opens, with the
    auditor's private key, to the group key
    [HKDF(K_T, "group:tech_partners:tx:123")]; and yet
    [unprotect(doc, "AuditorCorp")] raises "Group-based decryption not
    fully implemented" instead of returning the plaintext. *)
Theorem group_member_cannot_unprotect :
  exists doc w' env,
    @protect reference Demo.transaction Demo.seller_co Demo.buyer_co Demo.key_manager
      Demo.public_key_store None (Some ["tech_partners"]%string)
      Demo.server Demo.boot = (Returns doc, w') /\
    (gwk <- py_getitem doc "group_wrapped_keys" ;;
     gd <- py_getitem gwk "tech_partners" ;;
     ms <- py_getitem gd "members" ;;
     py_getitem ms Demo.auditor_co)%out = Returns env /\
    @load_encryption_private_key Demo.key_manager Demo.auditor_co
      = Returns (repeat x66 32) /\
    @unwrap_key_x25519 reference (repeat x66 32) env
      = Returns (@derive_group_key reference (draw Demo.boot 32) "tech_partners" "123") /\
    @unprotect reference doc Demo.auditor_co Demo.key_manager
      = Raises (ProtectionError (GroupDecryptionNotImplemented "tech_partners")).
Proof.
  eexists; eexists; eexists.
  split; [vm_compute; reflexivity|].
  split; [vm_compute; reflexivity|].
  split; [vm_compute; reflexivity|].
  split; vm_compute; reflexivity.
Qed.

(* ================================================================== *)
(** * Part VI. More of the code *)
(* ================================================================== *)

(** ** [protect]: who is addressed, and with which keys *)

Lemma sbind_returns {S A B : Type} (c : st S A) (k : A -> st S B) s b s' :
  sbind c k s = (Returns b, s') ->
  exists a s1, c s = (Returns a, s1) /\ k a s1 = (Returns b, s').
Proof.
  unfold sbind. destruct (c s) as [[a|e] s1]; intros H; [eauto | discriminate].
Qed.

Lemma lift_returns {S A : Type} (c : outcome A) (s : S) a s' :
  lift c s = (Returns a, s') -> c = Returns a /\ s' = s.
Proof. unfold lift. destruct c; intros H; inversion H; auto. Qed.

Section GroupInvariant.

Context {P : Primitives} {L : PrimitiveLaws P}.

Variable store : PublicKeyStore.
Variable server : group_server.
Variable K_T : bytes.
Variable tx_id : string.

Lemma wrap_returns pk payload w env w' :
  wrap_key_x25519 pk payload w = (Returns env, w') ->
  is_envelope_for pk payload env.
Proof.
  unfold wrap_key_x25519, encrypt_aes_gcm, sbind, lift, sret, exchange.
  rewrite urandom_run.
  destruct (x25519_exchange (draw w 32) pk) as [s|] eqn:Es; simpl; [|discriminate].
  destruct (AESGCM (hkdf_sha256 key_wrapping_info s)); simpl; [|discriminate].
  intros H. inversion H; subst.
  exists (draw w 32), s, (draw (advance w 32) 12).
  repeat split; auto using draw_length.
Qed.

Lemma assign_member_ok gwk g m env gwk' resp :
  Forall (group_entry_ok store server K_T tx_id) gwk ->
  server g = Returns resp -> In m (members resp) ->
  entry_ok store (derive_group_key K_T g tx_id) (m, env) ->
  assign_member gwk g m env = Returns gwk' ->
  Forall (group_entry_ok store server K_T tx_id) gwk'.
Proof.
  intros Hall Hs Hm He. unfold assign_member, py_getitem at 1.
  destruct (dict_lookup gwk g) as [gd|] eqn:Eg; simpl; [|discriminate].
  pose proof (dict_lookup_In _ _ _ Eg) as Hin.
  pose proof Hall as Hall'. rewrite Forall_forall in Hall'.
  pose proof (Hall' _ Hin) as [resp' [ms [Hs' [H200 [Hgd Hms]]]]].
  simpl in Hs', Hgd, Hms. subst gd. simpl.
  intros H. inversion H; subst. apply dict_set_Forall; [exact Hall|].
  exists resp', (dict_set ms m env). simpl.
  split; [exact Hs'|]. split; [exact H200|]. split; [reflexivity|].
  apply dict_set_Forall; [exact Hms|]. simpl.
  split; [congruence | exact He].
Qed.

Lemma wrap_for_member_ok g m resp gwk w r gwk' w' :
  server g = Returns resp -> In m (members resp) ->
  Forall (group_entry_ok store server K_T tx_id) gwk ->
  wrap_for_member store (derive_group_key K_T g tx_id) g m (gwk, w) = (r, (gwk', w')) ->
  Forall (group_entry_ok store server K_T tx_id) gwk'.
Proof.
  intros Hs Hm Hall.
  unfold wrap_for_member, try_except, sbind, lift, in_world, get_local, set_local, sret.
  simpl.
  destruct (get_encryption_public_key store (VStr m)) as [pk|e] eqn:Ek.
  - destruct (wrap_key_x25519 pk (derive_group_key K_T g tx_id) w) as [r1 w1] eqn:Ew.
    destruct r1 as [env|e]; simpl.
    + apply wrap_returns in Ew.
      destruct (assign_member gwk g m env) as [gwk2|e] eqn:Ea; simpl.
      * intros H; inversion H; subst.
        eapply assign_member_ok; eauto. exists pk. now split.
      * destruct (is_KeyError e); simpl; intros H; inversion H; subst; exact Hall.
    + destruct (is_KeyError e); simpl; intros H; inversion H; subst; exact Hall.
  - destruct (is_KeyError e); simpl; intros H; inversion H; subst; exact Hall.
Qed.

Lemma members_loop_ok g resp ms :
  server g = Returns resp -> incl ms (members resp) ->
  forall gwk w r gwk' w',
    Forall (group_entry_ok store server K_T tx_id) gwk ->
    for_each ms (wrap_for_member store (derive_group_key K_T g tx_id) g) (gwk, w)
      = (r, (gwk', w')) ->
    Forall (group_entry_ok store server K_T tx_id) gwk'.
Proof.
  intros Hs. induction ms as [|m ms IH]; intros Hincl gwk w r gwk' w' Hall; simpl.
  - unfold sret. intros H; inversion H; subst. exact Hall.
  - unfold sbind.
    destruct (wrap_for_member store (derive_group_key K_T g tx_id) g m (gwk, w))
      as [r1 [gwk1 w1]] eqn:E1.
    eapply wrap_for_member_ok in E1; eauto; [|apply Hincl; now left].
    destruct r1 as [[]|e].
    + apply IH; [|exact E1]. intros x Hx. apply Hincl. now right.
    + intros H; inversion H; subst. exact E1.
Qed.

Lemma process_group_ok g gwk w r gwk' w' :
  Forall (group_entry_ok store server K_T tx_id) gwk ->
  process_group store server K_T tx_id g (gwk, w) = (r, (gwk', w')) ->
  Forall (group_entry_ok store server K_T tx_id) gwk'.
Proof.
  intros Hall.
  unfold process_group, try_except, sbind, lift, in_world, get_local, set_local.
  simpl.
  destruct (server g) as [resp|e] eqn:Es; simpl.
  - destruct (Z.eqb_spec (status_code resp) 200) as [E200|N200]; simpl.
    + destruct (for_each (members resp)
                  (wrap_for_member store (derive_group_key K_T g tx_id) g)
                  (dict_set gwk g (VDict [("members"%string, VDict [])]), w))
        as [r1 [gwk1 w1]] eqn:El.
      eapply members_loop_ok in El; eauto using incl_refl.
      * destruct r1 as [[]|e]; simpl; intros H; inversion H; subst; exact El.
      * apply dict_set_Forall; [exact Hall|].
        exists resp, []. simpl. repeat split; auto.
    + intros H; inversion H; subst. exact Hall.
  - intros H; inversion H; subst. exact Hall.
Qed.

Lemma groups_loop_ok gs :
  forall gwk w r gwk' w',
    Forall (group_entry_ok store server K_T tx_id) gwk ->
    for_each gs (process_group store server K_T tx_id) (gwk, w) = (r, (gwk', w')) ->
    Forall (group_entry_ok store server K_T tx_id) gwk'.
Proof.
  induction gs as [|g gs IH]; intros gwk w r gwk' w' Hall; simpl.
  - unfold sret. intros H; inversion H; subst. exact Hall.
  - unfold sbind.
    destruct (process_group store server K_T tx_id g (gwk, w)) as [r1 [gwk1 w1]] eqn:E1.
    apply process_group_ok in E1; [|exact Hall].
    destruct r1 as [[]|e].
    + now apply IH.
    + intros H; inversion H; subst. exact E1.
Qed.

End GroupInvariant.

Section ProtectReturns.

Context {P : Primitives} {L : PrimitiveLaws P}.

Lemma wrap_for_recipient_returns store K_T wk r w wk' w' :
  wrap_for_recipient store K_T wk r w = (Returns wk', w') ->
  Forall (entry_ok store K_T) wk ->
  Forall (entry_ok store K_T) wk' /\
  (forall name, dict_mem wk' name = true ->
     dict_mem wk name = true \/
     (name = r /\ exists pk, get_encryption_public_key store (VStr r) = Returns pk)).
Proof.
  unfold wrap_for_recipient, try_except, sbind, lift, sret.
  destruct (get_encryption_public_key store (VStr r)) as [pk|e] eqn:Ek.
  - destruct (wrap_key_x25519 pk K_T w) as [[env|e] w1] eqn:Ew.
    + intros H Hall. inversion H; subst. apply wrap_returns in Ew. split.
      * apply dict_set_Forall; [exact Hall|]. exists pk. now split.
      * intros name. rewrite dict_mem_set.
        destruct (String.eqb_spec r name) as [<-|Hne]; simpl; eauto.
    + destruct (is_KeyError e); [|discriminate].
      unfold print. intros H Hall. inversion H; subst. auto.
  - destruct (is_KeyError e); [|discriminate].
    unfold print. intros H Hall. inversion H; subst. auto.
Qed.

Lemma recipients_loop_returns store K_T rs :
  forall wk w wk' w',
    for_each_acc rs wk (wrap_for_recipient store K_T) w = (Returns wk', w') ->
    Forall (entry_ok store K_T) wk ->
    Forall (entry_ok store K_T) wk' /\
    (forall name, dict_mem wk' name = true ->
       dict_mem wk name = true \/
       (In name rs /\ exists pk, get_encryption_public_key store (VStr name) = Returns pk)).
Proof.
  induction rs as [|r rs IH]; intros wk w wk' w'; simpl.
  - unfold sret. intros H Hall. inversion H; subst. auto.
  - intros H Hall. apply sbind_returns in H. destruct H as [wk1 [w1 [H1 H2]]].
    destruct (wrap_for_recipient_returns _ _ _ _ _ _ _ H1 Hall) as [Hall1 Hk1].
    destruct (IH _ _ _ _ H2 Hall1) as [Hall2 Hk2].
    split; [exact Hall2|]. intros name Hm.
    destruct (Hk2 name Hm) as [H|[H H']].
    + destruct (Hk1 name H) as [H0|[-> H0]]; [now left|]. right. split; [now left | exact H0].
    + right. split; [now right | exact H'].
Qed.

Lemma groups_returns store server K_T T groups w gwk w' :
  match given groups with
  | [] => sret []
  | group_ids =>
      (tx_id_value <- lift (py_getitem (VDict T) "id") ;;
       let tx_id := py_str tx_id_value in
       with_local []
         (for_each group_ids (process_group store server K_T tx_id)))%st
  end w = (Returns gwk, w') ->
  forall idv, dict_lookup T "id" = Some idv ->
  Forall (group_entry_ok store server K_T (py_str idv)) gwk /\
  (forall g, dict_mem gwk g = true -> In g (given groups)).
Proof.
  intros H idv Hid.
  destruct (given groups) as [|g gs] eqn:Eg.
  - unfold sret in H. inversion H; subst. split; [constructor | discriminate].
  - unfold sbind, lift, with_local in H. simpl py_getitem in H. rewrite Hid in H.
    cbv zeta in H.
    destruct (for_each (g :: gs) (process_group store server K_T (py_str idv)) ([], w))
      as [r [gwk1 w1]] eqn:El.
    pose proof (groups_loop_ok store server K_T (py_str idv) _ _ _ _ _ _
                  (Forall_nil _) El) as Hok.
    destruct (groups_loop store server K_T (py_str idv) (g :: gs) [] w)
      as [gwk2 [w2 [Hloop [_ [Hk _]]]]].
    pose proof (eq_trans (eq_sym El) Hloop) as Heq. inversion Heq; subst.
    inversion H; subst. split; [exact Hok|].
    intros k Hm. destruct (Hk k Hm) as [Hd|[Hin _]]; [discriminate | exact Hin].
Qed.

Lemma protect_returns T seller buyer km store recipients groups server w doc w' :
  protect T seller buyer km store recipients groups server w = (Returns doc, w') ->
  exists idv sk wk gwk,
    dict_lookup T "id" = Some idv /\
    load_signing_private_key km seller = Returns sk /\
    doc = document idv
            (sealed (draw w 32) (draw (advance w 32) 12) (canonical_bytes T)) seller
            (ed25519_sign sk (sha256 (canonical_bytes T)))
            (sha256 (canonical_bytes T)) wk gwk /\
    Forall (entry_ok store (draw w 32)) wk /\
    (forall name, dict_mem wk name = true ->
       name = seller \/ name = buyer \/
       (In name (given recipients) /\
        exists pk, get_encryption_public_key store (VStr name) = Returns pk)) /\
    Forall (group_entry_ok store server (draw w 32) (py_str idv)) gwk /\
    (forall g, dict_mem gwk g = true -> In g (given groups)) /\
    (given groups = [] /\ gwk = [] \/
     exists w4 w5,
       with_local []
         (for_each (given groups) (process_group store server (draw w 32) (py_str idv))) w4
         = (Returns gwk, w5)).
Proof.
  unfold protect. intros H.
  apply sbind_returns in H. destruct H as [[] [w0 [H0 H]]].
  apply lift_returns in H0. destruct H0 as [_ ->].
  apply sbind_returns in H. destruct H as [sv [w0 [H0 H]]].
  apply lift_returns in H0. destruct H0 as [_ ->].
  destruct (negb (eq_str sv seller)); [discriminate|].
  apply sbind_returns in H. destruct H as [bv [w0 [H0 H]]].
  apply lift_returns in H0. destruct H0 as [_ ->].
  destruct (negb (eq_str bv buyer)); [discriminate|].
  apply sbind_returns in H. destruct H as [K_T [w1 [H0 H]]].
  unfold generate_symmetric_key in H0. rewrite urandom_run in H0. inversion H0; subst K_T w1.
  clear H0.
  rewrite (sbind_ok _ _ _ _ _ (encrypt_run _ _ _ (draw_length _ _))) in H.
  apply sbind_returns in H. destruct H as [sk [w0 [H0 H]]].
  apply lift_returns in H0. destruct H0 as [Hsk ->].
  apply sbind_returns in H. destruct H as [pks [w0 [H0 H]]].
  apply lift_returns in H0. destruct H0 as [Hpks ->].
  apply sbind_returns in H. destruct H as [envs [w2 [Hws H]]].
  apply sbind_returns in H. destruct H as [pkb [w0 [H0 H]]].
  apply lift_returns in H0. destruct H0 as [Hpkb ->].
  apply sbind_returns in H. destruct H as [envb [w3 [Hwb H]]].
  apply sbind_returns in H. destruct H as [wk [w4 [Hrec H]]].
  apply sbind_returns in H. destruct H as [gwk [w5 [Hgr H]]].
  apply sbind_returns in H. destruct H as [idv [w0 [H0 H]]].
  apply lift_returns in H0. destruct H0 as [Hid ->].
  apply sbind_returns in H. destruct H as [wkc [w0 [H0 H]]].
  apply lift_returns in H0. destruct H0 as [Hcopy ->].
  unfold sret in H. inversion H; subst doc w'. clear H.
  assert (Hidl : dict_lookup T "id" = Some idv).
  { unfold py_getitem in Hid. destruct (dict_lookup T "id"); inversion Hid; reflexivity. }
  apply wrap_returns in Hws. apply wrap_returns in Hwb.
  assert (Hwk0 : Forall (entry_ok store (draw w 32)) (dict_set [(seller, envs)] buyer envb)).
  { apply dict_set_Forall.
    - constructor; [|constructor]. exists pks. now split.
    - exists pkb. now split. }
  destruct (recipients_loop_returns _ _ _ _ _ _ _ Hrec Hwk0) as [Hall Hkeys].
  rewrite (copy_wrapped_keys_id store (draw w 32) wk Hall) in Hcopy.
  inversion Hcopy; subst wkc.
  destruct (groups_returns _ _ _ _ _ _ _ _ Hgr idv Hidl) as [Hgok Hgk].
  exists idv, sk, wk, gwk.
  split; [exact Hidl|]. split; [exact Hsk|]. split; [reflexivity|].
  split; [exact Hall|]. split; [|split; [exact Hgok | split; [exact Hgk|]]].
  - intros name Hm. destruct (Hkeys name Hm) as [H|H]; [|auto].
    rewrite dict_mem_set in H. unfold dict_mem in H. simpl in H.
    destruct (String.eqb_spec buyer name) as [->|Hb]; [auto|].
    destruct (String.eqb_spec seller name) as [->|Hs]; [auto|]. discriminate.
  - destruct (given groups) as [|g gs].
    + left. unfold sret in Hgr. inversion Hgr. auto.
    + right. exists w4, w5. unfold sbind, lift in Hgr. rewrite Hid in Hgr. exact Hgr.
Qed.

End ProtectReturns.

Lemma In_dict_mem (d : pydict) k v : In (k, v) d -> dict_mem d k = true.
Proof.
  unfold dict_mem. induction d as [|[k0 v0] d IH]; simpl; [intros []|].
  intros [H|H].
  - inversion H; subst. now rewrite String.eqb_refl.
  - destruct (String.eqb k0 k); [reflexivity | now apply IH].
Qed.

Lemma dict_mem_In (d : pydict) k : dict_mem d k = true -> exists v, In (k, v) d.
Proof.
  intros H. destruct (dict_mem_lookup d k H) as [v Hv]. exists v.
  now apply dict_lookup_In.
Qed.

(** X2. A company [protect] was not asked to address gets nothing.  When
    [protect] returns a document, a company that is neither the seller
    nor the buyer, is not among the recipients, and is a member of no
    group of the call that the server answered with status 200, is
    refused by [unprotect] with "No access granted", whatever private
    keys it holds. *)
Theorem unaddressed_company_has_no_access (P : Primitives) (L : PrimitiveLaws P) :
  forall T seller buyer km store recipients groups server w doc w' C kmC,
    protect T seller buyer km store recipients groups server w = (Returns doc, w') ->
    C <> seller -> C <> buyer -> ~ In C (given recipients) ->
    (forall g resp, In g (given groups) -> server g = Returns resp ->
       status_code resp = 200%Z -> ~ In C (members resp)) ->
    unprotect doc C kmC = Raises (ProtectionError (NoAccessGranted C)).
Proof.
  intros T seller buyer km store recipients groups server w doc w' C kmC
         Hrun Hs Hb Hr Hg.
  destruct (protect_returns _ _ _ _ _ _ _ _ _ _ _ Hrun)
    as [idv [sk [wk [gwk [_ [_ [-> [_ [Hkeys [Hgok [Hgk _]]]]]]]]]]].
  apply (unprotect_no_access _ C kmC (VDict wk) (VDict gwk) gwk); try reflexivity.
  - simpl. f_equal. destruct (dict_mem wk C) eqn:E; [|reflexivity].
    exfalso. destruct (Hkeys C E) as [H|[H|[H _]]]; auto.
  - intros g gd Hin. rewrite Forall_forall in Hgok.
    destruct (Hgok _ Hin) as [resp [ms [Hsv [H200 [Hgd Hms]]]]].
    simpl in Hsv, Hgd, Hms. subst gd. exists (VDict ms). split; [reflexivity|].
    simpl. f_equal. destruct (dict_mem ms C) eqn:E; [|reflexivity].
    exfalso. destruct (dict_mem_In _ _ E) as [env Henv].
    rewrite Forall_forall in Hms. destruct (Hms _ Henv) as [Hm _]. simpl in Hm.
    apply (Hg g resp); auto. apply Hgk. eapply In_dict_mem; eauto.
Qed.

Lemma unaddressed_company_has_no_access_witness :
  exists doc w',
    @protect reference Demo.transaction Demo.seller_co Demo.buyer_co Demo.key_manager
      Demo.public_key_store (Some ["Ghost"]%string) (Some ["tech_partners"; "nobody"]%string)
      Demo.server Demo.boot = (Returns doc, w') /\
    @unprotect reference doc "RandomCo" Demo.key_manager
      = Raises (ProtectionError (NoAccessGranted "RandomCo")).
Proof.
  assert (E : exists doc w',
    @protect reference Demo.transaction Demo.seller_co Demo.buyer_co Demo.key_manager
      Demo.public_key_store (Some ["Ghost"]%string) (Some ["tech_partners"; "nobody"]%string)
      Demo.server Demo.boot = (Returns doc, w'))
    by (vm_compute; eexists; eexists; reflexivity).
  destruct E as [doc [w' E]]. exists doc, w'. split; [exact E|].
  apply (unaddressed_company_has_no_access reference reference_laws _ _ _ _ _ _ _ _ _ _ _
           "RandomCo"%string Demo.key_manager E).
  - discriminate.
  - discriminate.
  - simpl. intros [H|[]]. discriminate.
  - intros g resp Hin Hs _ Hm. simpl in Hin. destruct Hin as [<-|[<-|[]]];
      vm_compute in Hs; inversion Hs; subst; simpl in Hm.
    + destruct Hm as [Hm|[]]. discriminate Hm.
    + destruct Hm.
Defined.

(** X3. What the envelopes of a document carry.  When [protect] returns,
    there is one 32-byte key [K_T] such that every entry of
    [wrapped_keys] opens to [K_T] with the private key of the company it
    is filed under; and every entry of [group_wrapped_keys] belongs to a
    group of the call that the server answered with status 200, has the
    shape [{"members": {...}}], lists only members the server named,
    and each member envelope opens, with that member's private key, to
    the group key [derive_group_key(K_T, group_id, str(id))]. *)
Theorem envelopes_carry_their_keys (P : Primitives) (L : PrimitiveLaws P) :
  forall T seller buyer km store recipients groups server w doc w',
    protect T seller buyer km store recipients groups server w = (Returns doc, w') ->
    exists idv wk gwk K_T,
      dict_lookup T "id" = Some idv /\
      List.length K_T = 32 /\
      py_getitem doc "wrapped_keys" = Returns (VDict wk) /\
      py_getitem doc "group_wrapped_keys" = Returns (VDict gwk) /\
      (forall name env, In (name, env) wk ->
         forall kmR, holds_encryption_key kmR store name ->
           exists sk, load_encryption_private_key kmR name = Returns sk /\
                      unwrap_key_x25519 sk env = Returns K_T) /\
      (forall g gd, In (g, gd) gwk ->
         In g (given groups) /\
         exists resp ms,
           server g = Returns resp /\ status_code resp = 200%Z /\
           gd = VDict [("members"%string, VDict ms)] /\
           forall m env, In (m, env) ms ->
             In m (members resp) /\
             forall kmM, holds_encryption_key kmM store m ->
               exists sk, load_encryption_private_key kmM m = Returns sk /\
                          unwrap_key_x25519 sk env =
                            Returns (derive_group_key K_T g (py_str idv))).
Proof.
  intros T seller buyer km store recipients groups server w doc w' Hrun.
  destruct (protect_returns _ _ _ _ _ _ _ _ _ _ _ Hrun)
    as [idv [sk [wk [gwk [Hid [_ [-> [Hall [_ [Hgok [Hgk _]]]]]]]]]]].
  assert (Hopen : forall payload name env kmR,
            entry_ok store payload (name, env) ->
            holds_encryption_key kmR store name ->
            exists skR, load_encryption_private_key kmR name = Returns skR /\
                        unwrap_key_x25519 skR env = Returns payload).
  { intros payload name env kmR [pk [Hpk Henv]] Hholds. simpl in Hpk, Henv.
    destruct (holds_encryption_key_loads kmR store name Hholds) as [skR [Hload [Hlen Hpk']]].
    exists skR. split; [exact Hload|].
    rewrite Hpk' in Hpk. inversion Hpk; subst pk. now apply unwrap_envelope. }
  exists idv, wk, gwk, (draw w 32).
  split; [exact Hid|]. split; [apply draw_length|].
  split; [reflexivity|]. split; [reflexivity|]. split.
  - intros name env Hin kmR Hholds. rewrite Forall_forall in Hall.
    apply (Hopen _ _ _ _ (Hall _ Hin) Hholds).
  - intros g gd Hin. split; [apply Hgk; eapply In_dict_mem; eauto|].
    rewrite Forall_forall in Hgok.
    destruct (Hgok _ Hin) as [resp [ms [Hsv [H200 [Hgd Hms]]]]].
    simpl in Hsv, Hgd, Hms. exists resp, ms. repeat split; auto.
    + rewrite Forall_forall in Hms. now destruct (Hms _ H).
    + intros kmM Hholds. rewrite Forall_forall in Hms. destruct (Hms _ H) as [_ Hok].
      apply (Hopen _ _ _ _ Hok Hholds).
Qed.

Lemma envelopes_carry_their_keys_witness :
  exists doc w' idv wk gwk K_T,
    @protect reference Demo.transaction Demo.seller_co Demo.buyer_co Demo.key_manager
      Demo.public_key_store None (Some ["tech_partners"]%string)
      Demo.server Demo.boot = (Returns doc, w') /\
    dict_lookup Demo.transaction "id" = Some idv /\
    List.length K_T = 32 /\
    py_getitem doc "wrapped_keys" = Returns (VDict wk) /\
    py_getitem doc "group_wrapped_keys" = Returns (VDict gwk) /\
    (forall name env, In (name, env) wk ->
       forall kmR, @holds_encryption_key reference kmR Demo.public_key_store name ->
         exists sk, load_encryption_private_key kmR name = Returns sk /\
                    @unwrap_key_x25519 reference sk env = Returns K_T) /\
    (forall g gd, In (g, gd) gwk ->
       In g ["tech_partners"]%string /\
       exists resp ms,
         Demo.server g = Returns resp /\ status_code resp = 200%Z /\
         gd = VDict [("members"%string, VDict ms)] /\
         forall m env, In (m, env) ms ->
           In m (members resp) /\
           forall kmM, @holds_encryption_key reference kmM Demo.public_key_store m ->
             exists sk, load_encryption_private_key kmM m = Returns sk /\
                        @unwrap_key_x25519 reference sk env =
                          Returns (@derive_group_key reference K_T g (py_str idv))).
Proof.
  assert (E : exists doc w',
    @protect reference Demo.transaction Demo.seller_co Demo.buyer_co Demo.key_manager
      Demo.public_key_store None (Some ["tech_partners"]%string)
      Demo.server Demo.boot = (Returns doc, w'))
    by (vm_compute; eexists; eexists; reflexivity).
  destruct E as [doc [w' E]].
  destruct (envelopes_carry_their_keys reference reference_laws _ _ _ _ _ _ _ _ _ _ _ E)
    as [idv [wk [gwk [K_T H]]]].
  exists doc, w', idv, wk, gwk, K_T. split; [exact E | exact H].
Defined.

(** ** [protect]: the group entry as a snapshot *)

Section Snapshot.

Context {P : Primitives} {L : PrimitiveLaws P}.

Variable store : PublicKeyStore.
Variable server : group_server.
Variable K_T : bytes.
Variable tx_id : string.

(** Frame: a group's turn touches no other group's entry. *)
Lemma assign_member_frame gwk g m env gwk' k :
  assign_member gwk g m env = Returns gwk' -> k <> g ->
  dict_lookup gwk' k = dict_lookup gwk k.
Proof.
  unfold assign_member. intros H Hk. revert H. run_cases_out.
  intros H. inversion H; subst. now apply dict_lookup_set_ne.
Qed.

Lemma wrap_for_member_frame gk g m gwk w r gwk' w' k :
  wrap_for_member store gk g m (gwk, w) = (r, (gwk', w')) -> k <> g ->
  dict_lookup gwk' k = dict_lookup gwk k.
Proof.
  unfold wrap_for_member, try_except, sbind, lift, in_world, get_local, set_local, sret.
  simpl. intros H Hk. revert H.
  destruct (get_encryption_public_key store (VStr m)) as [pk|e] eqn:Ek.
  - destruct (wrap_key_x25519 pk gk w) as [[env|e] w1] eqn:Ew; simpl.
    + destruct (assign_member gwk g m env) as [gwk2|e] eqn:Ea; simpl.
      * intros H; inversion H; subst. eapply assign_member_frame; eauto.
      * destruct (is_KeyError e); simpl; intros H; inversion H; subst; reflexivity.
    + destruct (is_KeyError e); simpl; intros H; inversion H; subst; reflexivity.
  - destruct (is_KeyError e); simpl; intros H; inversion H; subst; reflexivity.
Qed.

Lemma members_loop_frame gk g ms k :
  k <> g ->
  forall gwk w r gwk' w',
    for_each ms (wrap_for_member store gk g) (gwk, w) = (r, (gwk', w')) ->
    dict_lookup gwk' k = dict_lookup gwk k.
Proof.
  intros Hk. induction ms as [|m ms IH]; intros gwk w r gwk' w'; simpl.
  - unfold sret. intros H; inversion H; subst. reflexivity.
  - unfold sbind.
    destruct (wrap_for_member store gk g m (gwk, w)) as [r1 [gwk1 w1]] eqn:E1.
    eapply wrap_for_member_frame in E1; [|exact Hk].
    destruct r1 as [[]|e].
    + intros H. apply IH in H. congruence.
    + intros H; inversion H; subst. exact E1.
Qed.

Lemma process_group_frame g gwk w r gwk' w' k :
  process_group store server K_T tx_id g (gwk, w) = (r, (gwk', w')) -> k <> g ->
  dict_lookup gwk' k = dict_lookup gwk k.
Proof.
  unfold process_group, try_except, sbind, lift, in_world, get_local, set_local.
  simpl. intros H Hk. revert H.
  destruct (server g) as [resp|e] eqn:Es; simpl.
  - destruct (Z.eqb_spec (status_code resp) 200) as [E200|N200]; simpl.
    + destruct (for_each (members resp)
                  (wrap_for_member store (derive_group_key K_T g tx_id) g)
                  (dict_set gwk g (VDict [("members"%string, VDict [])]), w))
        as [r1 [gwk1 w1]] eqn:El.
      eapply members_loop_frame in El; [|exact Hk].
      rewrite dict_lookup_set_ne in El by exact Hk.
      destruct r1 as [[]|e]; simpl; intros H; inversion H; subst; exact El.
    + intros H; inversion H; subst. reflexivity.
  - intros H; inversion H; subst. reflexivity.
Qed.

(** The members of the group itself. *)
Lemma wrap_for_member_listed gk g m gwk ms0 w :
  dict_lookup gwk g = Some (VDict [("members"%string, VDict ms0)]) ->
  resolvable store m \/ unresolvable store m ->
  exists gwk' ms' w',
    wrap_for_member store gk g m (gwk, w) = (Returns tt, (gwk', w')) /\
    dict_lookup gwk' g = Some (VDict [("members"%string, VDict ms')]) /\
    (forall x, dict_mem ms' x = true <->
               dict_mem ms0 x = true \/ (x = m /\ resolvable store m)).
Proof.
  intros Hg [Hres|Hun].
  - pose proof Hres as [pk [Hpk Hh]].
    destruct (wrap_honest pk gk w Hh) as [env [Hw _]].
    exists (dict_set gwk g (VDict [("members"%string, VDict (dict_set ms0 m env))])),
           (dict_set ms0 m env), (advance (advance w 32) 12).
    split; [|split].
    + unfold wrap_for_member, try_except, sbind, lift, in_world, get_local, set_local, sret.
      simpl. rewrite Hpk, Hw. simpl.
      unfold assign_member, py_getitem at 1. rewrite Hg. reflexivity.
    + apply dict_lookup_set_eq.
    + intros x. rewrite dict_mem_set.
      destruct (String.eqb_spec m x) as [->|Hne]; simpl; [tauto|].
      split; [tauto|]. intros [H|[-> _]]; [exact H | congruence].
  - destruct Hun as [k Hk]. eexists gwk, ms0, _. split; [|split].
    + unfold wrap_for_member, try_except, sbind, lift, in_world, get_local, set_local, sret.
      simpl. rewrite Hk. reflexivity.
    + exact Hg.
    + intros x. split; [tauto|]. intros [H|[-> H]]; [exact H|].
      exfalso. eapply resolvable_not_unresolvable; eauto. now exists k.
Qed.

Lemma members_loop_listed gk g l :
  (forall m, In m l -> resolvable store m \/ unresolvable store m) ->
  forall gwk ms0 w,
    dict_lookup gwk g = Some (VDict [("members"%string, VDict ms0)]) ->
    exists gwk' ms' w',
      for_each l (wrap_for_member store gk g) (gwk, w) = (Returns tt, (gwk', w')) /\
      dict_lookup gwk' g = Some (VDict [("members"%string, VDict ms')]) /\
      (forall x, dict_mem ms' x = true <->
                 dict_mem ms0 x = true \/ (In x l /\ resolvable store x)).
Proof.
  induction l as [|m l IH]; intros Hl gwk ms0 w Hg.
  - exists gwk, ms0, w. split; [reflexivity|]. split; [exact Hg|].
    intros x. split; [tauto|]. intros [H|[[] _]]. exact H.
  - destruct (wrap_for_member_listed gk g m gwk ms0 w Hg (Hl m (or_introl eq_refl)))
      as [gwk1 [ms1 [w1 [Hstep [Hg1 Hk1]]]]].
    destruct (IH (fun x Hx => Hl x (or_intror Hx)) gwk1 ms1 w1 Hg1)
      as [gwk2 [ms2 [w2 [Hloop [Hg2 Hk2]]]]].
    exists gwk2, ms2, w2. split; [|split; [exact Hg2|]].
    + simpl. unfold sbind at 1. rewrite Hstep. exact Hloop.
    + intros x. rewrite Hk2, Hk1. simpl. split.
      * intros [[H|[-> H]]|[H H']]; auto.
      * intros [H|[[<-|H] H']]; auto.
Qed.

Lemma process_group_snapshot g resp gwk w :
  server g = Returns resp -> status_code resp = 200%Z ->
  (forall m, In m (members resp) -> resolvable store m \/ unresolvable store m) ->
  exists gwk' w',
    process_group store server K_T tx_id g (gwk, w) = (Returns tt, (gwk', w')) /\
    snapshot_of store resp gwk' g.
Proof.
  intros Hs H200 Hm.
  destruct (members_loop_listed (derive_group_key K_T g tx_id) g (members resp) Hm
              (dict_set gwk g (VDict [("members"%string, VDict [])])) [] w
              (dict_lookup_set_eq _ _ _))
    as [gwk1 [ms1 [w1 [Hloop [Hg1 Hk1]]]]].
  exists gwk1, w1. split.
  - unfold process_group, try_except, sbind, lift, in_world, get_local, set_local.
    simpl. rewrite Hs. simpl. rewrite H200. simpl.
    match goal with
    | |- context [for_each ?a ?b ?c] =>
        replace (for_each a b c) with (Returns tt, (gwk1, w1))
          by (symmetry; exact Hloop)
    end.
    reflexivity.
  - exists ms1. split; [exact Hg1|]. intros m. rewrite Hk1.
    unfold dict_mem. simpl. split; [intros [H|H]; [discriminate | exact H] | auto].
Qed.

Lemma groups_loop_snapshot g resp gs :
  server g = Returns resp -> status_code resp = 200%Z ->
  (forall m, In m (members resp) -> resolvable store m \/ unresolvable store m) ->
  forall gwk w r gwk' w',
    for_each gs (process_group store server K_T tx_id) (gwk, w) = (r, (gwk', w')) ->
    In g gs \/ snapshot_of store resp gwk g ->
    snapshot_of store resp gwk' g.
Proof.
  intros Hs H200 Hm. induction gs as [|g0 gs IH]; intros gwk w r gwk' w'; simpl.
  - unfold sret. intros H; inversion H; subst. intros [[]|H']. exact H'.
  - unfold sbind.
    destruct (process_group store server K_T tx_id g0 (gwk, w)) as [r1 [gwk1 w1]] eqn:E1.
    intros H Hor.
    assert (H1 : In g gs \/ snapshot_of store resp gwk1 g).
    { destruct (String.eqb_spec g0 g) as [->|Hne].
      - right. destruct (process_group_snapshot g resp gwk w Hs H200 Hm)
          as [gwk2 [w2 [Hstep Hsnap]]].
        rewrite Hstep in E1. inversion E1; subst. exact Hsnap.
      - destruct Hor as [[Heq|Hin]|[ms [Hl Hk]]]; [congruence | now left |].
        right. exists ms. split; [|exact Hk].
        rewrite (process_group_frame _ _ _ _ _ _ g E1) by congruence. exact Hl. }
    destruct (process_group_effect store server K_T tx_id g0 gwk w)
      as [gwk2 [w2 [Hstep _]]].
    rewrite Hstep in E1. inversion E1; subst.
    now apply (IH _ _ _ _ _ H).
Qed.

End Snapshot.

(** X4. The group entry is the membership at the time of the call.  For
    a group of the call that the server answers with status 200, when
    each member named resolves in the store or is unknown to it, the
    document has an entry for the group whose [members] are exactly the
    named members that resolve. *)
Theorem group_entry_is_membership_snapshot (P : Primitives) (L : PrimitiveLaws P) :
  forall T seller buyer km store recipients groups server w doc w' g resp,
    protect T seller buyer km store recipients groups server w = (Returns doc, w') ->
    In g (given groups) ->
    server g = Returns resp -> status_code resp = 200%Z ->
    (forall m, In m (members resp) -> resolvable store m \/ unresolvable store m) ->
    exists gwk ms,
      py_getitem doc "group_wrapped_keys" = Returns (VDict gwk) /\
      dict_lookup gwk g = Some (VDict [("members"%string, VDict ms)]) /\
      forall m, dict_mem ms m = true <-> In m (members resp) /\ resolvable store m.
Proof.
  intros T seller buyer km store recipients groups server w doc w' g resp
         Hrun Hin Hs H200 Hm.
  destruct (protect_returns _ _ _ _ _ _ _ _ _ _ _ Hrun)
    as [idv [sk [wk [gwk [_ [_ [-> [_ [_ [_ [_ Hgr]]]]]]]]]]].
  destruct Hgr as [[Hnil _]|[w4 [w5 Hgr]]]; [rewrite Hnil in Hin; destruct Hin|].
  unfold with_local in Hgr.
  destruct (for_each (given groups)
              (process_group store server (draw w 32) (py_str idv)) ([], w4))
    as [r [gwk1 w1]] eqn:El.
  assert (Hsnap : snapshot_of store resp gwk1 g).
  { eapply groups_loop_snapshot; eauto. }
  destruct r as [[]|e]; inversion Hgr; subst.
  destruct Hsnap as [ms [Hl Hk]]. exists gwk, ms. repeat split; auto; apply Hk; auto.
Qed.

Lemma group_entry_is_membership_snapshot_witness :
  exists doc w' gwk ms,
    @protect reference Demo.transaction Demo.seller_co Demo.buyer_co Demo.key_manager
      Demo.public_key_store None (Some ["tech_partners"]%string)
      Demo.server Demo.boot = (Returns doc, w') /\
    py_getitem doc "group_wrapped_keys" = Returns (VDict gwk) /\
    dict_lookup gwk "tech_partners" = Some (VDict [("members"%string, VDict ms)]) /\
    forall m, dict_mem ms m = true <->
              In m [Demo.auditor_co] /\ @resolvable reference Demo.public_key_store m.
Proof.
  assert (E : exists doc w',
    @protect reference Demo.transaction Demo.seller_co Demo.buyer_co Demo.key_manager
      Demo.public_key_store None (Some ["tech_partners"]%string)
      Demo.server Demo.boot = (Returns doc, w'))
    by (vm_compute; eexists; eexists; reflexivity).
  destruct E as [doc [w' E]].
  destruct (group_entry_is_membership_snapshot reference reference_laws
              _ _ _ _ _ _ _ _ _ _ _ "tech_partners"%string
              {| status_code := 200; members := [Demo.auditor_co] |} E)
    as [gwk [ms H]].
  - now left.
  - reflexivity.
  - reflexivity.
  - intros m [<-|[]]. left. exact DemoFacts.auditor_resolvable.
  - exists doc, w', gwk, ms. split; [exact E | exact H].
Defined.

(** ** [protect]: the order of the plaintext's items *)

(** Code-point order on strings is a strict total order. *)
Lemma compare_gt_trans a b c :
  String.compare a b = Gt -> String.compare c b <> Gt -> String.compare a c = Gt.
Proof.
  intros Hab Hcb.
  assert (Hba : OrderedTypeEx.String_as_OT.lt b a).
  { apply OrderedTypeEx.String_as_OT.cmp_lt. unfold OrderedTypeEx.String_as_OT.cmp.
    rewrite String.compare_antisym, Hab. reflexivity. }
  assert (Hca : OrderedTypeEx.String_as_OT.lt c a).
  { destruct (String.compare c b) eqn:E; [| |congruence].
    - apply String.compare_eq_iff in E. now subst.
    - apply (OrderedTypeEx.String_as_OT.lt_trans c b a); [|exact Hba].
      now apply OrderedTypeEx.String_as_OT.cmp_lt. }
  apply OrderedTypeEx.String_as_OT.cmp_lt in Hca.
  unfold OrderedTypeEx.String_as_OT.cmp in Hca.
  rewrite String.compare_antisym, Hca. reflexivity.
Qed.

Lemma insert_item_comm {A : Type} k (x : A) k' y l :
  k <> k' ->
  insert_item k x (insert_item k' y l) = insert_item k' y (insert_item k x l).
Proof.
  intros Hne.
  assert (Hcases : (String.compare k k' = Gt /\ String.compare k' k = Lt) \/
                   (String.compare k k' = Lt /\ String.compare k' k = Gt)).
  { destruct (String.compare k k') eqn:E.
    - apply String.compare_eq_iff in E. congruence.
    - right. split; [reflexivity|]. rewrite String.compare_antisym, E. reflexivity.
    - left. split; [reflexivity|]. rewrite String.compare_antisym, E. reflexivity. }
  induction l as [|[k0 z] l IH].
  - simpl. destruct Hcases as [[-> ->]|[-> ->]]; reflexivity.
  - simpl. destruct (String.compare k k0) eqn:E; destruct (String.compare k' k0) eqn:E';
      simpl; rewrite ?E, ?E';
      try (destruct Hcases as [[-> ->]|[-> ->]]; reflexivity).
    + rewrite (compare_gt_trans k' k0 k) by congruence. reflexivity.
    + rewrite (compare_gt_trans k' k0 k) by congruence. reflexivity.
    + rewrite (compare_gt_trans k k0 k') by congruence. reflexivity.
    + rewrite (compare_gt_trans k k0 k') by congruence. reflexivity.
    + now rewrite IH.
Qed.

Lemma sort_items_Permutation {A : Type} (l l' : list (string * A)) :
  Permutation.Permutation l l' -> NoDup (map fst l) -> sort_items l = sort_items l'.
Proof.
  induction 1 as [| [k x] l l' Hp IH | [k x] [k' y] l | l l' l'' Hp1 IH1 Hp2 IH2];
    intros Hn.
  - reflexivity.
  - simpl. inversion Hn; subst. now rewrite IH.
  - simpl. apply insert_item_comm. simpl in Hn. inversion Hn; subst.
    intros ->. apply H1. now left.
  - rewrite IH1 by exact Hn. apply IH2.
    eapply Permutation.Permutation_NoDup; [|exact Hn]. now apply Permutation.Permutation_map.
Qed.

Lemma dict_lookup_Permutation (d d' : pydict) k :
  Permutation.Permutation d d' -> NoDup (map fst d) -> dict_lookup d k = dict_lookup d' k.
Proof.
  induction 1 as [| [k0 x] l l' Hp IH | [k0 x] [k1 y] l | l l' l'' Hp1 IH1 Hp2 IH2];
    intros Hn.
  - reflexivity.
  - simpl. inversion Hn; subst. now rewrite IH.
  - simpl. simpl in Hn. inversion Hn; subst.
    destruct (String.eqb_spec k1 k) as [->|H1k]; destruct (String.eqb_spec k0 k) as [->|H0k];
      try reflexivity.
    exfalso. apply H1. now left.
  - rewrite IH1 by exact Hn. apply IH2.
    eapply Permutation.Permutation_NoDup; [|exact Hn]. now apply Permutation.Permutation_map.
Qed.

Lemma dumps_dict_Permutation (d d' : pydict) :
  Permutation.Permutation d d' -> NoDup (map fst d) ->
  json_dumps_sorted (VDict d) = json_dumps_sorted (VDict d').
Proof.
  intros Hp Hn. unfold json_dumps_sorted, dumps. simpl.
  rewrite (sort_items_Permutation
             (map (fun kx : string * value =>
                     let (k, x) := kx in (k, dumps_with item_separator key_separator x)) d)
             (map (fun kx : string * value =>
                     let (k, x) := kx in (k, dumps_with item_separator key_separator x)) d')).
  - reflexivity.
  - now apply Permutation.Permutation_map.
  - rewrite map_map.
    erewrite map_ext; [exact Hn|]. now intros [k x].
Qed.

Lemma require_fields_Permutation fs (d d' : pydict) :
  Permutation.Permutation d d' -> NoDup (map fst d) ->
  require_fields fs d = require_fields fs d'.
Proof.
  intros Hp Hn. induction fs as [|f fs IH]; [reflexivity|].
  simpl. unfold dict_mem. rewrite (dict_lookup_Permutation d d' f Hp Hn).
  now rewrite IH.
Qed.

(** X5. [protect] does not depend on the order in which the plaintext
    dictionary lists its items: two dictionaries with the same items
    give, on the same random tape, the same outcome (document, hash,
    signature, printed warnings). *)
Theorem protect_ignores_key_order (P : Primitives) :
  forall T T' seller buyer km store recipients groups server w,
    Permutation.Permutation T T' -> NoDup (map fst T) ->
    protect T seller buyer km store recipients groups server w =
    protect T' seller buyer km store recipients groups server w.
Proof.
  intros T T' seller buyer km store recipients groups server w Hp Hn.
  unfold protect, py_getitem.
  rewrite (require_fields_Permutation _ T T' Hp Hn).
  rewrite (dumps_dict_Permutation T T' Hp Hn).
  rewrite !(dict_lookup_Permutation T T' _ Hp Hn).
  reflexivity.
Qed.

Lemma protect_ignores_key_order_witness :
  @protect reference Demo.transaction Demo.seller_co Demo.buyer_co Demo.key_manager
    Demo.public_key_store None (Some ["tech_partners"]%string) Demo.server Demo.boot =
  @protect reference (rev Demo.transaction) Demo.seller_co Demo.buyer_co Demo.key_manager
    Demo.public_key_store None (Some ["tech_partners"]%string) Demo.server Demo.boot.
Proof.
  apply (protect_ignores_key_order reference).
  - apply Permutation.Permutation_rev.
  - repeat constructor; simpl; intuition discriminate.
Defined.

(** ** [protect]: the keys it needs *)

Section ProtectFatal.

Context {P : Primitives} {L : PrimitiveLaws P}.

Lemma sbind_raises {S A B : Type} (c : st S A) (k : A -> st S B) s e s' :
  c s = (Raises e, s') -> sbind c k s = (Raises e, s').
Proof. intros H. unfold sbind. now rewrite H. Qed.

Lemma lift_raises {S A : Type} (c : outcome A) (s : S) e :
  c = Raises e -> lift c s = (Raises e, s).
Proof. intros ->. reflexivity. Qed.

Lemma protect_prefix T seller buyer km store recipients groups server w :
  valid_plaintext T seller buyer ->
  protect T seller buyer km store recipients groups server w =
  (seller_sign_key <- lift (load_signing_private_key km seller) ;;
   seller_enc_pub_key <- lift (get_encryption_public_key store (VStr seller)) ;;
   seller_wk <- wrap_key_x25519 seller_enc_pub_key (draw w 32) ;;
   buyer_enc_pub_key <- lift (get_encryption_public_key store (VStr buyer)) ;;
   buyer_wk <- wrap_key_x25519 buyer_enc_pub_key (draw w 32) ;;
   wrapped_keys <-
     for_each_acc (given recipients) (dict_set [(seller, seller_wk)] buyer buyer_wk)
       (wrap_for_recipient store (draw w 32)) ;;
   group_wrapped_keys <-
     match given groups with
     | [] => sret []
     | group_ids =>
         tx_id_value <- lift (py_getitem (VDict T) "id") ;;
         with_local []
           (for_each group_ids
              (process_group store server (draw w 32) (py_str tx_id_value)))
     end ;;
   transaction_id <- lift (py_getitem (VDict T) "id") ;;
   wrapped_keys_copy <- lift (copy_wrapped_keys wrapped_keys) ;;
   sret (document transaction_id
           (sealed (draw w 32) (draw (advance w 32) 12) (canonical_bytes T)) seller
           (ed25519_sign seller_sign_key (sha256 (canonical_bytes T)))
           (sha256 (canonical_bytes T)) wrapped_keys_copy group_wrapped_keys))%st
    (advance (advance w 32) 12).
Proof.
  intros [Hfields [Hseller Hbuyer]]. unfold protect.
  erewrite sbind_ok by (apply lift_ok, require_fields_present; exact Hfields).
  erewrite sbind_ok by (apply lift_ok; unfold py_getitem; now rewrite Hseller).
  rewrite eq_str_refl. cbn [negb].
  erewrite sbind_ok by (apply lift_ok; unfold py_getitem; now rewrite Hbuyer).
  rewrite eq_str_refl. cbn [negb].
  erewrite sbind_ok by apply urandom_run.
  erewrite sbind_ok by (apply encrypt_run, draw_length).
  reflexivity.
Qed.

End ProtectFatal.

(** X6. The seller's and the buyer's keys are needed: for a valid
    plaintext, [protect] raises (and returns no document) when the
    seller's signing key does not load, when the seller's encryption key
    does not resolve, and when the buyer's does not -- unlike an extra
    recipient, which is skipped.  The data key and the nonce have been
    drawn by then (and the seller's envelope too, in the third case);
    nothing is printed. *)
Theorem protect_needs_both_parties (P : Primitives) (L : PrimitiveLaws P) :
  forall T seller buyer km store recipients groups server w,
    valid_plaintext T seller buyer ->
    let w1 := advance (advance w 32) 12 in
    (forall e, load_signing_private_key km seller = Raises e ->
       protect T seller buyer km store recipients groups server w = (Raises e, w1)) /\
    (forall sk e, load_signing_private_key km seller = Returns sk ->
       get_encryption_public_key store (VStr seller) = Raises e ->
       protect T seller buyer km store recipients groups server w = (Raises e, w1)) /\
    (forall sk e, load_signing_private_key km seller = Returns sk ->
       resolvable store seller ->
       get_encryption_public_key store (VStr buyer) = Raises e ->
       protect T seller buyer km store recipients groups server w
         = (Raises e, advance (advance w1 32) 12)).
Proof.
  intros T seller buyer km store recipients groups server w Hv w1.
  rewrite (protect_prefix _ _ _ _ _ _ _ _ _ Hv). fold w1.
  split; [|split].
  - intros e He. apply sbind_raises, lift_raises, He.
  - intros sk e Hsk He.
    erewrite sbind_ok by (apply lift_ok; exact Hsk).
    apply sbind_raises, lift_raises, He.
  - intros sk e Hsk [pk [Hpk Hh]] He.
    erewrite sbind_ok by (apply lift_ok; exact Hsk).
    erewrite sbind_ok by (apply lift_ok; exact Hpk).
    destruct (wrap_honest pk (draw w 32) w1 Hh) as [env [Hw _]].
    erewrite sbind_ok by exact Hw.
    apply sbind_raises, lift_raises, He.
Qed.

Lemma protect_needs_both_parties_witness :
  (exists e,
     @protect reference Demo.transaction Demo.seller_co Demo.buyer_co
       {| signing_private_file := fun _ => None;
          encryption_private_file := fun _ => None |}
       Demo.public_key_store None None Demo.server Demo.boot
     = (Raises e, advance (advance Demo.boot 32) 12)) /\
  (exists e,
     @protect reference Demo.transaction Demo.seller_co Demo.buyer_co Demo.key_manager
       {| keys := [] |} None None Demo.server Demo.boot
     = (Raises e, advance (advance Demo.boot 32) 12)).
Proof.
  destruct (protect_needs_both_parties reference reference_laws
              Demo.transaction Demo.seller_co Demo.buyer_co
              {| signing_private_file := fun _ => None;
                 encryption_private_file := fun _ => None |}
              Demo.public_key_store None None Demo.server Demo.boot
              DemoFacts.transaction_valid) as [H1 _].
  destruct (protect_needs_both_parties reference reference_laws
              Demo.transaction Demo.seller_co Demo.buyer_co Demo.key_manager
              {| keys := [] |} None None Demo.server Demo.boot
              DemoFacts.transaction_valid) as [_ [H2 _]].
  split.
  - eexists. apply H1. reflexivity.
  - eexists. eapply H2; reflexivity.
Defined.

(** ** [check]: what a report says *)

Section CheckMore.

Context {P : Primitives}.

#[local] Arguments py_getitem : simpl never.
#[local] Arguments py_get : simpl never.
#[local] Arguments py_len : simpl never.
#[local] Arguments all_in : simpl never.

Lemma check_verdict doc store :
  exists r,
    check doc store = Returns r /\
    (valid r = true <-> errors r = []) /\
    (valid r = true ->
       (dict_lookup (details r) "seller_signature" = Some (VStr "valid") \/
        dict_lookup (details r) "seller_signature" = Some (VStr "cannot_verify")) /\
       (dict_lookup (details r) "buyer_signature" = Some (VStr "valid") \/
        dict_lookup (details r) "buyer_signature" = Some (VStr "cannot_verify") \/
        dict_lookup (details r) "buyer_signature" = Some (VStr "missing")) /\
       (exists h tx_hash, py_getitem doc "transaction_hash" = Returns h /\
                          py_b64decode h = Returns tx_hash) /\
       (exists enc, py_getitem doc "encrypted_transaction" = Returns enc /\
                    all_in ["ciphertext"; "nonce"]%string enc = Returns true)).
Proof.
  unfold check, try_except, check_body, sbind, lift, sret.
  run_cases.
  all: eexists; split; [reflexivity|]; simpl.
  all: split; [split; intros H; first [reflexivity | discriminate H]|].
  all: intros H; try discriminate H.
  all: split; [auto|]; split; [auto|]; split.
  all: try match goal with
           | H : all_in _ _ = Returns ?b, H' : negb ?b = false |- _ =>
               destruct b; [eauto | discriminate H']
           end.
  all: match goal with
       | H : obind (py_getitem ?d "transaction_hash") _ = Returns _ |- _ =>
           unfold obind in H;
           destruct (py_getitem d "transaction_hash"); [eauto | discriminate H]
       end.
Qed.

Lemma py_getitem_set_same d k x : py_getitem (VDict (dict_set d k x)) k = Returns x.
Proof. unfold py_getitem. now rewrite dict_lookup_set_eq. Qed.

Lemma check_reads_shape_only d store enc enc' :
  all_in ["ciphertext"; "nonce"]%string enc = all_in ["ciphertext"; "nonce"]%string enc' ->
  check (VDict (dict_set d "encrypted_transaction" enc)) store =
  check (VDict (dict_set d "encrypted_transaction" enc')) store.
Proof.
  intros H. unfold check, try_except, check_body, sbind, lift, sret.
  rewrite !py_getitem_set_same.
  rewrite !py_getitem_set_other by discriminate.
  rewrite !py_get_set_other by discriminate.
  rewrite H. reflexivity.
Qed.

Lemma all_in_sealed key nonce pt :
  all_in ["ciphertext"; "nonce"]%string (sealed key nonce pt) = Returns true.
Proof. reflexivity. Qed.

Lemma check_cannot_verify_seller doc store tx_hash ssd c sig k b wkv n gkv g enc :
  py_get doc "version" VNone = Returns (VStr "1.0") ->
  (h <- py_getitem doc "transaction_hash" ;; py_b64decode h)%out = Returns tx_hash ->
  (s <- py_getitem doc "signatures" ;; py_getitem s "seller")%out = Returns ssd ->
  truthy ssd = true ->
  py_getitem ssd "company" = Returns c ->
  (s <- py_getitem ssd "signature" ;; py_b64decode s)%out = Returns sig ->
  get_signing_public_key store c = Raises (KeyError k) ->
  (s <- py_getitem doc "signatures" ;; py_getitem s "buyer")%out = Returns b ->
  truthy b = false ->
  py_get doc "wrapped_keys" (VDict []) = Returns wkv -> py_len wkv = Returns n ->
  py_get doc "group_wrapped_keys" (VDict []) = Returns gkv -> py_len gkv = Returns g ->
  py_getitem doc "encrypted_transaction" = Returns enc ->
  all_in ["ciphertext"; "nonce"]%string enc = Returns true ->
  check doc store =
    Returns {| valid := true; errors := [];
               warnings := [CannotVerifySeller c; BuyerSignatureNotYetAdded];
               details := [("seller_signature", VStr "cannot_verify");
                           ("buyer_signature", VStr "missing");
                           ("individual_recipients", VInt n);
                           ("groups", VInt g)]%string |}.
Proof.
  intros Hver Hh Hs Hst Hc Hsig Hpk Hb Hbt Hwk Hn Hgk Hg Henc Hall.
  unfold check, try_except, check_body, sbind, lift, sret.
  rewrite Hver, Hh, Hs, Hst, Hc, Hsig, Hpk, Hb, Hbt, Hwk, Hn, Hgk, Hg, Henc, Hall.
  reflexivity.
Qed.

End CheckMore.

Section CheckUnknown.

Context {P : Primitives} {L : PrimitiveLaws P}.

Lemma check_unknown_seller store idv enc seller sg h wk gwk :
  dict_lookup (keys store) seller = None ->
  all_in ["ciphertext"; "nonce"]%string enc = Returns true ->
  check (document idv enc seller sg h wk gwk) store =
    Returns {| valid := true; errors := [];
               warnings := [CannotVerifySeller (VStr seller); BuyerSignatureNotYetAdded];
               details := [("seller_signature", VStr "cannot_verify");
                           ("buyer_signature", VStr "missing");
                           ("individual_recipients", VInt (Z.of_nat (List.length wk)));
                           ("groups", VInt (Z.of_nat (List.length gwk)))]%string |}.
Proof.
  intros Hs Henc.
  eapply check_cannot_verify_seller; try reflexivity.
  - simpl. apply py_b64decode_b64text.
  - simpl. apply py_b64decode_b64text.
  - unfold get_signing_public_key, get_company. rewrite Hs. reflexivity.
  - exact Henc.
Qed.

End CheckUnknown.

(** X8. What a report says.  For every document, [valid] is [True]
    exactly when [errors] is empty; and when it is, the seller signature
    is reported ["valid"] or ["cannot_verify"], the buyer signature
    ["valid"], ["cannot_verify"] or ["missing"], [transaction_hash]
    decodes, and [encrypted_transaction] has both [ciphertext] and
    [nonce]. *)
Theorem check_valid_means (P : Primitives) :
  forall doc store,
    exists r,
      check doc store = Returns r /\
      (valid r = true <-> errors r = []) /\
      (valid r = true ->
         (dict_lookup (details r) "seller_signature" = Some (VStr "valid") \/
          dict_lookup (details r) "seller_signature" = Some (VStr "cannot_verify")) /\
         (dict_lookup (details r) "buyer_signature" = Some (VStr "valid") \/
          dict_lookup (details r) "buyer_signature" = Some (VStr "cannot_verify") \/
          dict_lookup (details r) "buyer_signature" = Some (VStr "missing")) /\
         (exists h tx_hash, py_getitem doc "transaction_hash" = Returns h /\
                            py_b64decode h = Returns tx_hash) /\
         (exists enc, py_getitem doc "encrypted_transaction" = Returns enc /\
                      all_in ["ciphertext"; "nonce"]%string enc = Returns true)).
Proof. intros doc store. apply check_verdict. Qed.

(** X10. A signer the store does not know does not make a document
    invalid: a document of the shape [protect] builds, with any bytes
    for the seller's signature and for the hash, is reported [valid]
    with the warning "Cannot verify seller signature" when the seller's
    name is not in the store. *)
Theorem check_passes_unknown_seller (P : Primitives) (L : PrimitiveLaws P) :
  forall store idv enc seller (forged_signature any_hash : bytes) wk gwk,
    dict_lookup (keys store) seller = None ->
    all_in ["ciphertext"; "nonce"]%string enc = Returns true ->
    exists r,
      check (document idv enc seller forged_signature any_hash wk gwk) store = Returns r /\
      valid r = true /\ errors r = [] /\
      warnings r = [CannotVerifySeller (VStr seller); BuyerSignatureNotYetAdded] /\
      dict_lookup (details r) "seller_signature" = Some (VStr "cannot_verify").
Proof.
  intros store idv enc seller sg h wk gwk Hs Henc.
  eexists. split; [apply check_unknown_seller; assumption|].
  repeat split.
Qed.

Lemma check_passes_unknown_seller_witness :
  exists r,
    @check reference
      (@document reference (VInt 123) (@sealed reference [] [] []) "Nobody Inc" [] []
         [] [])
      {| keys := [] |} = Returns r /\
    valid r = true /\ errors r = [] /\
    warnings r = [CannotVerifySeller (VStr "Nobody Inc"); BuyerSignatureNotYetAdded] /\
    dict_lookup (details r) "seller_signature" = Some (VStr "cannot_verify").
Proof.
  apply (check_passes_unknown_seller reference reference_laws); reflexivity.
Defined.

(** X11. [check] looks at the shape of [encrypted_transaction] only:
    replacing it by any other value that has the keys [ciphertext] and
    [nonce] leaves the report unchanged. *)
Theorem check_does_not_read_the_payload (P : Primitives) :
  forall d store enc enc',
    all_in ["ciphertext"; "nonce"]%string enc = Returns true ->
    all_in ["ciphertext"; "nonce"]%string enc' = Returns true ->
    check (VDict (dict_set d "encrypted_transaction" enc)) store =
    check (VDict (dict_set d "encrypted_transaction" enc')) store.
Proof.
  intros d store enc enc' H H'. apply check_reads_shape_only. congruence.
Qed.

Lemma check_does_not_read_the_payload_witness :
  @check reference
    (VDict (dict_set (Demo.protected_fields None) "encrypted_transaction"
              (@sealed reference (repeat x00 32) (repeat x00 12) [])))
    Demo.public_key_store =
  @check reference
    (VDict (dict_set (Demo.protected_fields None) "encrypted_transaction"
              (VDict [("ciphertext"%string, VNone); ("nonce"%string, VNone)])))
    Demo.public_key_store.
Proof.
  apply (check_does_not_read_the_payload reference); reflexivity.
Defined.

(** ** [unprotect]: the individual path *)

Section UnprotectMore.

Context {P : Primitives}.

#[local] Arguments py_getitem : simpl never.
#[local] Arguments py_get : simpl never.
#[local] Arguments py_contains : simpl never.
#[local] Arguments py_items : simpl never.
#[local] Arguments load_encryption_private_key : simpl never.
#[local] Arguments scan_groups : simpl never.

Lemma unprotect_listed_ignores_groups d c km wk x :
  py_get (VDict d) "wrapped_keys" (VDict []) = Returns wk ->
  py_contains wk c = Returns true ->
  unprotect (VDict (dict_set d "group_wrapped_keys" x)) c km = unprotect (VDict d) c km.
Proof.
  intros Hw Hc. unfold unprotect.
  rewrite !py_get_set_other by discriminate.
  rewrite !py_getitem_set_other by discriminate.
  rewrite Hw. simpl. rewrite Hc. simpl.
  destruct (py_getitem (VDict d) "wrapped_keys") as [wk'|e]; simpl; [|reflexivity].
  destruct (py_getitem wk' c) as [env|e]; simpl; [|reflexivity].
  destruct (load_encryption_private_key km c) as [sk|e]; simpl; [|reflexivity].
  destruct (unwrap_key_x25519 sk env) as [K|e]; simpl; reflexivity.
Qed.

Lemma unprotect_listed_failure doc c km wk env e :
  py_get doc "wrapped_keys" (VDict []) = Returns wk ->
  py_contains wk c = Returns true ->
  py_getitem doc "wrapped_keys" = Returns wk ->
  py_getitem wk c = Returns env ->
  (sk <- load_encryption_private_key km c ;; unwrap_key_x25519 sk env)%out = Raises e ->
  unprotect doc c km = Raises e.
Proof.
  intros Hw Hc Hw' He Hf. unfold unprotect.
  rewrite Hw. simpl. rewrite Hc. simpl. rewrite Hw'. simpl. rewrite He. simpl.
  unfold obind in Hf.
  destruct (load_encryption_private_key km c) as [sk|e0]; simpl.
  - rewrite Hf. reflexivity.
  - inversion Hf. reflexivity.
Qed.

End UnprotectMore.

(** X12. The individual path comes first and is final: for a company
    listed in [wrapped_keys], [group_wrapped_keys] is never read, and a
    failure to load the key or to open the envelope is raised as it is,
    with no fallback to a group. *)
Theorem unprotect_individual_path_is_final (P : Primitives) :
  forall d c km wk,
    py_get (VDict d) "wrapped_keys" (VDict []) = Returns wk ->
    py_contains wk c = Returns true ->
    (forall x,
       unprotect (VDict (dict_set d "group_wrapped_keys" x)) c km
         = unprotect (VDict d) c km) /\
    (forall env e,
       py_getitem wk c = Returns env ->
       (sk <- load_encryption_private_key km c ;; unwrap_key_x25519 sk env)%out
         = Raises e ->
       unprotect (VDict d) c km = Raises e).
Proof.
  intros d c km wk Hw Hc. split.
  - intros x. now apply (unprotect_listed_ignores_groups d c km wk).
  - intros env e He Hf.
    apply (unprotect_listed_failure (VDict d) c km wk env e); auto.
    unfold py_get in Hw. unfold py_getitem.
    destruct (dict_lookup d "wrapped_keys") as [v|] eqn:E; [exact Hw|].
    inversion Hw; subst. discriminate Hc.
Qed.

Lemma unprotect_individual_path_is_final_witness :
  @unprotect reference
    (VDict (dict_set (Demo.protected_fields None) "group_wrapped_keys"
              (VDict [("anything"%string, VNone)])))
    Demo.buyer_co Demo.key_manager
  = @unprotect reference (VDict (Demo.protected_fields None))
      Demo.buyer_co Demo.key_manager.
Proof.
  destruct (unprotect_individual_path_is_final reference
              (Demo.protected_fields None) Demo.buyer_co Demo.key_manager
              (VDict (match dict_lookup (Demo.protected_fields None) "wrapped_keys" with
                      | Some (VDict wk) => wk
                      | _ => []
                      end)))
    as [H _]; [vm_compute; reflexivity | vm_compute; reflexivity | apply H].
Defined.

(** X13. Countersigning changes nothing for the readers: whatever
    [unprotect] gives a company on a document, it gives on the document
    [buyer_sign] returns. *)
Theorem buyer_sign_preserves_access (P : Primitives) :
  forall doc buyer km doc',
    buyer_sign doc buyer km = Returns doc' ->
    forall c kmC, unprotect doc' c kmC = unprotect doc c kmC.
Proof.
  intros doc buyer km doc' H.
  apply (buyer_sign_returns_iff P) in H.
  destruct H as [d [sigs [h [tx_hash [sk [-> [_ [_ [_ [_ ->]]]]]]]]]].
  unfold with_buyer_slot.
  intros c kmC. apply unprotect_ignores_field; discriminate.
Qed.

Lemma buyer_sign_preserves_access_witness :
  exists doc',
    @buyer_sign reference (VDict (Demo.protected_fields None)) Demo.buyer_co
      Demo.key_manager = Returns doc' /\
    forall c kmC,
      @unprotect reference doc' c kmC
      = @unprotect reference (VDict (Demo.protected_fields None)) c kmC.
Proof.
  assert (E : exists doc',
            @buyer_sign reference (VDict (Demo.protected_fields None)) Demo.buyer_co
              Demo.key_manager = Returns doc')
    by (vm_compute; eexists; reflexivity).
  destruct E as [doc' E]. exists doc'. split; [exact E|].
  exact (buyer_sign_preserves_access reference _ _ _ _ E).
Defined.

(** ** [crypto.py]: AES-GCM, the verdicts of [check], the keys read *)

(** X14. [encrypt_aes_gcm] and [decrypt_aes_gcm].  With a 32-byte key,
    encryption draws a 12-byte nonce and returns a dictionary with
    [ciphertext] and [nonce] that [decrypt_aes_gcm] turns back into the
    plaintext.  A key that is not 16, 24 or 32 bytes long raises
    [ValueError] in both, before any randomness is drawn; a dictionary
    without [nonce] raises [KeyError]; a ciphertext that does not
    authenticate raises [CryptoError]. *)
Theorem aes_gcm_wrappers (P : Primitives) (L : PrimitiveLaws P) :
  (forall key plaintext w,
     List.length key = 32 ->
     exists enc,
       encrypt_aes_gcm key plaintext w = (Returns enc, advance w 12) /\
       decrypt_aes_gcm key enc = Returns plaintext /\
       all_in ["ciphertext"; "nonce"]%string enc = Returns true) /\
  (forall key plaintext w enc,
     List.length key <> 16 -> List.length key <> 24 -> List.length key <> 32 ->
     encrypt_aes_gcm key plaintext w = (Raises ValueError, w) /\
     decrypt_aes_gcm key enc = Raises ValueError) /\
  (forall key d,
     List.length key = 32 -> dict_lookup d "nonce" = None ->
     decrypt_aes_gcm key (VDict d) = Raises (KeyError (VStr "nonce"))) /\
  (forall key nonce ciphertext,
     List.length key = 32 ->
     aesgcm_decrypt key nonce ciphertext = None ->
     decrypt_aes_gcm key
       (VDict [("ciphertext"%string, b64text ciphertext); ("nonce"%string, b64text nonce)])
       = Raises CryptoError).
Proof.
  split; [|split; [|split]].
  - intros key pt w Hk. exists (sealed key (draw w 12) pt).
    split; [now apply encrypt_run|]. split; [|reflexivity].
    apply decrypt_sealed; [exact Hk | apply draw_length].
  - intros key pt w enc H16 H24 H32.
    assert (E : AESGCM key = Raises ValueError).
    { unfold AESGCM.
      destruct (Nat.eqb_spec (List.length key) 16); [contradiction|].
      destruct (Nat.eqb_spec (List.length key) 24); [contradiction|].
      destruct (Nat.eqb_spec (List.length key) 32); [contradiction|]. reflexivity. }
    unfold encrypt_aes_gcm, decrypt_aes_gcm, sbind, lift. rewrite E. split; reflexivity.
  - intros key d Hk Hn. unfold decrypt_aes_gcm. rewrite (AESGCM_32 _ Hk). simpl.
    now rewrite Hn.
  - intros key nonce ct Hk Hd. unfold decrypt_aes_gcm. rewrite (AESGCM_32 _ Hk). simpl.
    rewrite !py_b64decode_b64text. simpl. now rewrite Hd.
Qed.

Lemma aes_gcm_wrappers_witness :
  exists enc,
    @encrypt_aes_gcm reference (repeat x07 32) [x68; x69] Demo.boot
      = (Returns enc, advance Demo.boot 12) /\
    @decrypt_aes_gcm reference (repeat x07 32) enc = Returns [x68; x69] /\
    all_in ["ciphertext"; "nonce"]%string enc = Returns true.
Proof.
  apply (aes_gcm_wrappers reference reference_laws). reflexivity.
Defined.

Section VerdictFacts.

Context {P : Primitives}.

#[local] Arguments py_getitem : simpl never.
#[local] Arguments py_get : simpl never.
#[local] Arguments py_len : simpl never.
#[local] Arguments all_in : simpl never.

Lemma check_verdicts_sound doc store :
  exists r,
    check doc store = Returns r /\
    (dict_lookup (details r) "seller_signature" = Some (VStr "valid") ->
     signature_verifies doc store "seller") /\
    (dict_lookup (details r) "buyer_signature" = Some (VStr "valid") ->
     signature_verifies doc store "buyer").
Proof.
  unfold signature_verifies, check, try_except, check_body, sbind, lift, sret.
  run_cases.
  all: eexists; split; [reflexivity|]; simpl.
  all: split; intros H; try discriminate H.
  all: do 5 eexists; repeat split; eassumption.
Qed.

End VerdictFacts.

(** X9. A signature is reported ["valid"] only after it verified: the
    entry names a company, the store has a signing key for it, and that
    key verifies the entry's signature over the document's
    [transaction_hash]. *)
Theorem check_valid_detail_is_verified (P : Primitives) :
  forall doc store,
    exists r,
      check doc store = Returns r /\
      (dict_lookup (details r) "seller_signature" = Some (VStr "valid") ->
       signature_verifies doc store "seller") /\
      (dict_lookup (details r) "buyer_signature" = Some (VStr "valid") ->
       signature_verifies doc store "buyer").
Proof. intros doc store. apply check_verdicts_sound. Qed.

Section KeyUse.

Context {P : Primitives}.

Lemma scan_groups_key_use items c km km' :
  encryption_private_file km c = encryption_private_file km' c ->
  scan_groups items c km = scan_groups items c km'.
Proof.
  intros H. induction items as [|[g gd] items IH]; [reflexivity|].
  simpl. unfold load_encryption_private_key. rewrite H, IH. reflexivity.
Qed.

End KeyUse.

(** X7. Which private keys are read: [protect] depends on the key
    manager only through the seller's signing key, [buyer_sign] only
    through the signer's signing key, and [unprotect] only through the
    caller's encryption key. *)
Theorem private_keys_read (P : Primitives) :
  (forall T seller buyer km km' store recipients groups server w,
     signing_private_file km seller = signing_private_file km' seller ->
     protect T seller buyer km store recipients groups server w =
     protect T seller buyer km' store recipients groups server w) /\
  (forall doc buyer km km',
     signing_private_file km buyer = signing_private_file km' buyer ->
     buyer_sign doc buyer km = buyer_sign doc buyer km') /\
  (forall doc c km km',
     encryption_private_file km c = encryption_private_file km' c ->
     unprotect doc c km = unprotect doc c km').
Proof.
  split; [|split].
  - intros T seller buyer km km' store recipients groups server w H.
    unfold protect, load_signing_private_key. now rewrite H.
  - intros doc buyer km km' H. unfold buyer_sign, load_signing_private_key. now rewrite H.
  - intros doc c km km' H. unfold unprotect.
    destruct (py_get doc "wrapped_keys" (VDict [])) as [wk|e]; [|reflexivity].
    cbn [obind].
    destruct (py_contains wk c) as [[|]|e]; cbn [obind]; [| |reflexivity].
    + unfold load_encryption_private_key. rewrite H.
      destruct (py_getitem doc "wrapped_keys") as [wk'|e]; [|reflexivity]. cbn [obind].
      destruct (py_getitem wk' c) as [env|e]; [|reflexivity]. cbn [obind].
      destruct (match encryption_private_file km' c with
                | Some key_bytes => deserialize_encryption_private_key key_bytes
                | None => Raises (FileNotFoundError c)
                end) as [sk|e]; [|reflexivity]. cbn [obind].
      destruct (unwrap_key_x25519 sk env) as [K|e]; reflexivity.
    + cbn [fst snd].
      destruct (py_get doc "group_wrapped_keys" (VDict [])) as [gwk|e]; [|reflexivity].
      cbn [obind]. destruct (py_items gwk) as [items|e]; [|reflexivity].
      cbn [obind]. now rewrite (scan_groups_key_use items c km km' H).
Qed.

Lemma private_keys_read_witness :
  @unprotect reference (VDict (Demo.protected_fields None)) Demo.buyer_co Demo.key_manager =
  @unprotect reference (VDict (Demo.protected_fields None)) Demo.buyer_co
    {| signing_private_file := fun _ => None;
       encryption_private_file := fun name =>
         if String.eqb name Demo.buyer_co then Some (repeat x55 32) else None |}.
Proof.
  apply (private_keys_read reference). reflexivity.
Defined.

(** ** [derive_group_key] *)

Lemma utf8_encode_inj a b : utf8_encode a = utf8_encode b -> a = b.
Proof.
  intros H. apply (f_equal utf8_decode) in H.
  rewrite !utf8_decode_encode in H. now inversion H.
Qed.

Lemma lit_append a b : lit (a ++ b) = (lit a ++ lit b)%list.
Proof.
  unfold lit. induction a as [|c a IH]; simpl; [reflexivity|]. now rewrite IH.
Qed.

Lemma lit_inj a b : lit a = lit b -> a = b.
Proof.
  unfold lit. intros H. apply (f_equal string_of_list_ascii) in H.
  now rewrite !string_of_list_ascii_of_string in H.
Qed.

Lemma first_split (c : ascii) (a a' r r' : chars) :
  forallb (fun x => negb (Ascii.eqb x c)) a = true ->
  forallb (fun x => negb (Ascii.eqb x c)) a' = true ->
  (a ++ c :: r = a' ++ c :: r')%list -> a = a' /\ r = r'.
Proof.
  revert a'. induction a as [|x a IH]; intros [|y a'] Ha Ha' H; simpl in *.
  - inversion H. auto.
  - inversion H; subst. rewrite Ascii.eqb_refl in Ha'. discriminate.
  - inversion H; subst. rewrite Ascii.eqb_refl in Ha. discriminate.
  - inversion H; subst. apply andb_true_iff in Ha, Ha'.
    destruct (IH a' (proj2 Ha) (proj2 Ha') H2) as [-> ->]. auto.
Qed.

Lemma forallb_rev {A : Type} (f : A -> bool) l : forallb f (rev l) = forallb f l.
Proof.
  induction l as [|x l IH]; simpl; [reflexivity|].
  rewrite forallb_app, IH. simpl. rewrite andb_true_r. apply andb_comm.
Qed.

Lemma info_parts g t g' t' :
  colon_free t = true -> colon_free t' = true ->
  (g ++ ":tx:" ++ t)%string = (g' ++ ":tx:" ++ t')%string -> g = g' /\ t = t'.
Proof.
  unfold colon_free. intros Ht Ht' H.
  apply (f_equal lit) in H. rewrite !lit_append in H.
  apply (f_equal (@rev ascii)) in H. rewrite !rev_app_distr in H.
  change (rev (lit ":tx:")) with (":"%char :: lit "xt:") in H.
  rewrite <- !app_assoc in H. simpl in H.
  apply first_split in H; try (now rewrite forallb_rev).
  destruct H as [H1 H2]. inversion H2 as [H3].
  apply (f_equal (@rev ascii)) in H1, H3. rewrite !rev_involutive in H1, H3.
  split; now apply lit_inj.
Qed.

Lemma append_inv_tail g g' s : (g ++ s)%string = (g' ++ s)%string -> g = g'.
Proof.
  intros H. apply (f_equal lit) in H. rewrite !lit_append in H.
  apply app_inv_tail in H. now apply lit_inj.
Qed.

Lemma append_inv_head s a b : (s ++ a)%string = (s ++ b)%string -> a = b.
Proof. induction s as [|c s IH]; simpl; intros H; [exact H|]. inversion H. auto. Qed.

Lemma uint_colon_free (u : Decimal.uint) :
  colon_free (NilEmpty.string_of_uint u) = true.
Proof. unfold colon_free, lit. induction u; simpl; auto. Qed.

Lemma int_colon_free (n : Z) : colon_free (py_str (VInt n)) = true.
Proof.
  unfold py_str, py_repr, decimal, lit.
  rewrite string_of_list_ascii_of_string.
  assert (H : forall u, colon_free (NilZero.string_of_uint u) = true).
  { intros u. unfold NilZero.string_of_uint.
    destruct u; try reflexivity; apply (uint_colon_free (_ u)). }
  destruct (Z.to_int n) as [u|u]; simpl.
  - apply H.
  - unfold colon_free, lit. simpl. apply (H u).
Qed.

(** X15. The HKDF [info] of [derive_group_key].  For one transaction,
    distinct groups get distinct [info]; so do distinct (group,
    transaction) pairs when the transaction identifiers contain no
    [':'], as the decimal text of an integer does; and [info] never is
    that of key wrapping.  Without that restriction the encoding is
    ambiguous: the pairs ([g:tx:a], [b]) and ([g], [a:tx:b]) derive the
    same key. *)
Theorem group_key_domain_separation (P : Primitives) :
  (forall k g t, derive_group_key k g t = hkdf_sha256 (group_key_info g t) k) /\
  (forall g g' t, group_key_info g t = group_key_info g' t -> g = g') /\
  (forall g g' t t',
     colon_free t = true -> colon_free t' = true ->
     group_key_info g t = group_key_info g' t' -> g = g' /\ t = t') /\
  (forall n : Z, colon_free (py_str (VInt n)) = true) /\
  (forall g t, group_key_info g t <> key_wrapping_info) /\
  (forall k g a b,
     derive_group_key k (g ++ ":tx:" ++ a) b = derive_group_key k g (a ++ ":tx:" ++ b)).
Proof.
  split; [reflexivity|]. split; [|split; [|split; [|split]]].
  - intros g g' t H. apply utf8_encode_inj, append_inv_head in H.
    apply (append_inv_tail g g' (":tx:" ++ t)). exact H.
  - intros g g' t t' Ht Ht' H. apply utf8_encode_inj, append_inv_head in H.
    now apply info_parts.
  - apply int_colon_free.
  - intros g t H. apply utf8_encode_inj in H. discriminate H.
  - intros k g a b.
    assert (E : ((g ++ ":tx:" ++ a) ++ ":tx:" ++ b)%string
                = (g ++ ":tx:" ++ a ++ ":tx:" ++ b)%string).
    { induction g as [|c g IH]; [reflexivity|]. simpl. f_equal. exact IH. }
    unfold derive_group_key. now rewrite E.
Qed.

(** ** [keymanager.py] *)

Section KeygenFacts.

Context {P : Primitives} {L : PrimitiveLaws P}.

Lemma generate_company_keys_run company_dir km name w :
  generate_company_keys company_dir km name w =
    (Returns (write_private_keys company_dir km name (draw w 32) (draw (advance w 32) 32),
              (b64encode (ed25519_public_key (draw w 32)),
               b64encode (x25519_public_key (draw (advance w 32) 32)))),
     advance (advance w 32) 32).
Proof. reflexivity. Qed.

Lemma load_after_write company_dir km name sp ep alias :
  List.length sp = 32 -> List.length ep = 32 ->
  company_dir alias = company_dir name ->
  load_signing_private_key (write_private_keys company_dir km name sp ep) alias
    = Returns sp /\
  load_encryption_private_key (write_private_keys company_dir km name sp ep) alias
    = Returns ep.
Proof.
  intros Hs He Ha. unfold load_signing_private_key, load_encryption_private_key. simpl.
  rewrite Ha, String.eqb_refl. unfold serialize_private_key.
  split; now apply key32_ok.
Qed.

Lemma load_other_after_write company_dir km name sp ep other :
  company_dir other <> company_dir name ->
  load_signing_private_key (write_private_keys company_dir km name sp ep) other
    = load_signing_private_key km other /\
  load_encryption_private_key (write_private_keys company_dir km name sp ep) other
    = load_encryption_private_key km other.
Proof.
  intros Hne. unfold load_signing_private_key, load_encryption_private_key. simpl.
  destruct (String.eqb_spec (company_dir other) (company_dir name)); [congruence|].
  split; reflexivity.
Qed.

Lemma get_after_add store name s e :
  get_company (add_company store name s e) (VStr name) =
    Returns (VDict [("signing_public_key"%string, VStr s);
                    ("encryption_public_key"%string, VStr e)]).
Proof. unfold get_company, add_company. simpl. now rewrite dict_lookup_set_eq. Qed.

Lemma get_other_after_add store name s e other :
  other <> VStr name ->
  get_company (add_company store name s e) other = get_company store other.
Proof.
  intros Hne. unfold get_company, add_company. simpl.
  destruct other; try reflexivity.
  rewrite dict_lookup_set_ne; [reflexivity | congruence].
Qed.

Lemma public_keys_after_add store name sp ep :
  List.length sp = 32 -> List.length ep = 32 ->
  get_signing_public_key
    (add_company store name (b64encode (ed25519_public_key sp))
       (b64encode (x25519_public_key ep))) (VStr name)
    = Returns (ed25519_public_key sp) /\
  get_encryption_public_key
    (add_company store name (b64encode (ed25519_public_key sp))
       (b64encode (x25519_public_key ep))) (VStr name)
    = Returns (x25519_public_key ep).
Proof.
  intros Hs He. unfold get_signing_public_key, get_encryption_public_key.
  rewrite get_after_add. simpl.
  change (VStr (b64encode ?b)) with (b64text b).
  rewrite !py_b64decode_b64text. simpl.
  unfold deserialize_signing_public_key, deserialize_encryption_public_key.
  split; apply key32_ok; [now apply ed25519_public_length | now apply x25519_public_length].
Qed.

End KeygenFacts.

(** X16. [generate_company_keys], then [add_company].  The call draws two
    32-byte private keys and stores them in the company's directory,
    replacing any it held: they load back under the company's name and
    under every other name that denotes the same directory, and the
    files of every other directory are untouched.  [export_public_keys]
    returns the record the call returned, and a store to which that
    record is added advertises the public halves of the keys the company
    now holds.  (Failures of the file system are not modelled.) *)
Theorem keygen_then_register (P : Primitives) (L : PrimitiveLaws P) :
  forall (company_dir : string -> string) km store name w,
    exists km' s e,
      generate_company_keys company_dir km name w
        = (Returns (km', (s, e)), advance (advance w 32) 32) /\
      load_signing_private_key km' name = Returns (draw w 32) /\
      load_encryption_private_key km' name = Returns (draw (advance w 32) 32) /\
      export_public_keys km' name = Returns (s, e) /\
      (forall alias, company_dir alias = company_dir name ->
         load_signing_private_key km' alias = Returns (draw w 32) /\
         load_encryption_private_key km' alias = Returns (draw (advance w 32) 32)) /\
      (forall other, company_dir other <> company_dir name ->
         load_signing_private_key km' other = load_signing_private_key km other /\
         load_encryption_private_key km' other = load_encryption_private_key km other) /\
      holds_signing_key km' (add_company store name s e) name /\
      holds_encryption_key km' (add_company store name s e) name /\
      resolvable (add_company store name s e) name.
Proof.
  intros company_dir km store name w.
  set (sp := draw w 32). set (ep := draw (advance w 32) 32).
  assert (Hsp : List.length sp = 32) by apply draw_length.
  assert (Hep : List.length ep = 32) by apply draw_length.
  destruct (load_after_write company_dir km name sp ep name Hsp Hep eq_refl) as [Hls Hle].
  destruct (public_keys_after_add store name sp ep Hsp Hep) as [Hgs Hge].
  exists (write_private_keys company_dir km name sp ep),
         (b64encode (ed25519_public_key sp)), (b64encode (x25519_public_key ep)).
  split; [apply generate_company_keys_run|].
  split; [exact Hls|]. split; [exact Hle|]. split.
  { unfold export_public_keys. rewrite Hls, Hle. reflexivity. }
  split; [intros alias Ha; now apply load_after_write|].
  split; [intros other Hne; now apply load_other_after_write|].
  split; [|split].
  - exists sp. simpl. rewrite String.eqb_refl. auto.
  - exists ep. simpl. rewrite String.eqb_refl. auto.
  - exists (x25519_public_key ep). split; [exact Hge|]. exists ep. auto.
Qed.

(** On the demonstration deployment: the new keys load under
    ["NewCo/"] and ["./NewCo"] as well, and the seller's are
    untouched. *)
Lemma keygen_then_register_witness :
  exists km' s e,
    @generate_company_keys reference Demo.company_dir Demo.key_manager "NewCo" Demo.boot
      = (Returns (km', (s, e)), advance (advance Demo.boot 32) 32) /\
    load_signing_private_key km' "NewCo/" = Returns (draw Demo.boot 32) /\
    load_encryption_private_key km' "./NewCo"
      = Returns (draw (advance Demo.boot 32) 32) /\
    @export_public_keys reference km' "NewCo" = Returns (s, e) /\
    load_signing_private_key km' Demo.seller_co
      = load_signing_private_key Demo.key_manager Demo.seller_co /\
    @resolvable reference (add_company Demo.public_key_store "NewCo" s e) "NewCo".
Proof.
  destruct (keygen_then_register reference reference_laws Demo.company_dir
              Demo.key_manager Demo.public_key_store "NewCo"%string Demo.boot)
    as [km' [s [e [H1 [_ [_ [H4 [H5 [H6 [_ [_ H9]]]]]]]]]]].
  exists km', s, e.
  destruct (H5 "NewCo/"%string eq_refl) as [Ha1 _].
  destruct (H5 "./NewCo"%string eq_refl) as [_ Ha2].
  destruct (H6 Demo.seller_co ltac:(vm_compute; discriminate)) as [Hb _].
  repeat split; assumption.
Defined.

(** X17. [PublicKeyStore].  [get_company] after [add_company] returns the
    record added and leaves the other names as they were; a name that is
    not in the store raises [KeyError] in all three getters; a company
    is listed once, at its old position or last; and a stored
    encryption key that is not Base64, or not 32 bytes long, raises
    [ValueError] when it is asked for. *)
Theorem public_key_store_round_trip (P : Primitives) :
  forall store name s e,
    get_company (add_company store name s e) (VStr name) =
      Returns (VDict [("signing_public_key"%string, VStr s);
                      ("encryption_public_key"%string, VStr e)]) /\
    (forall other, other <> VStr name ->
       get_company (add_company store name s e) other = get_company store other /\
       get_signing_public_key (add_company store name s e) other
         = get_signing_public_key store other /\
       get_encryption_public_key (add_company store name s e) other
         = get_encryption_public_key store other) /\
    (forall other, dict_lookup (keys store) other = None ->
       get_company store (VStr other) = Raises (KeyError (VStr other)) /\
       get_signing_public_key store (VStr other) = Raises (KeyError (VStr other)) /\
       get_encryption_public_key store (VStr other) = Raises (KeyError (VStr other))) /\
    (dict_mem (keys store) name = true ->
       list_companies (add_company store name s e) = list_companies store) /\
    (dict_mem (keys store) name = false ->
       list_companies (add_company store name s e) = list_companies store ++ [name]) /\
    (forall pk, b64decode e = Some pk ->
       get_encryption_public_key (add_company store name s e) (VStr name) =
         if Nat.eqb (List.length pk) 32 then Returns pk else Raises ValueError) /\
    (b64decode e = None ->
       get_encryption_public_key (add_company store name s e) (VStr name)
         = Raises ValueError).
Proof.
  intros store name s e.
  split; [apply get_after_add|]. split; [|split; [|split; [|split; [|split]]]].
  - intros other Hne.
    pose proof (get_other_after_add store name s e other Hne) as H.
    unfold get_signing_public_key, get_encryption_public_key. rewrite H. auto.
  - intros other Hn. unfold get_signing_public_key, get_encryption_public_key, get_company.
    rewrite Hn. auto.
  - apply dict_keys_set_present.
  - unfold list_companies, add_company, dict_mem, dict_keys. simpl.
    induction (keys store) as [|[k0 v0] d IH]; simpl; [reflexivity|].
    destruct (String.eqb_spec k0 name) as [->|Hne]; simpl; [discriminate|].
    intros H. f_equal. now apply IH.
  - intros pk Hpk. unfold get_encryption_public_key. rewrite get_after_add. simpl.
    unfold py_b64decode. rewrite Hpk. reflexivity.
  - intros Hpk. unfold get_encryption_public_key. rewrite get_after_add. simpl.
    unfold py_b64decode. rewrite Hpk. reflexivity.
Qed.

(** ** [app/main.py]: what the endpoints do with the documents *)

Section Endpoints.

Context {P : Primitives}.

#[local] Arguments py_getitem : simpl never.
#[local] Arguments py_get : simpl never.

Lemma create_transaction_falsy {S : Type} (db : Database S) d idv s :
  py_get (VDict d) "transaction_id" VNone = Returns idv ->
  truthy idv = false ->
  create_transaction db d s = (HTTPException 400 MissingTransactionId, s).
Proof.
  intros Hid Ht. unfold create_transaction, endpoint, sbind, lift, sret.
  rewrite Hid, Ht. reflexivity.
Qed.

Lemma create_transaction_document {S : Type} (db : Database S)
    idv enc seller sg h wk gwk s s1 existing :
  truthy idv = true ->
  db_get_transaction db idv s = (Returns existing, s1) ->
  row_present existing = false ->
  forall d, document idv enc seller sg h wk gwk = VDict d ->
  create_transaction db d s =
    match db_create_transaction db idv (VDict d) (VStr seller) VNone s1 with
    | (Returns db_id, s2) =>
        (Body 201 (VDict [("id", VInt db_id);
                          ("transaction_id", idv);
                          ("message", VStr "Transaction stored successfully")]%string), s2)
    | (Raises e, s2) => (HTTPException 500 (FailedToStoreTransaction e), s2)
    end.
Proof.
  intros Ht Hget Hnew d Hd. unfold document in Hd. inversion Hd; subst d; clear Hd.
  unfold create_transaction, endpoint, sbind, lift, sret.
  unfold py_get at 1. cbn [dict_lookup String.eqb Ascii.eqb Bool.eqb].
  rewrite Ht. cbn [negb].
  unfold py_get. cbn [dict_lookup String.eqb Ascii.eqb Bool.eqb obind truthy].
  rewrite Hget, Hnew.
  destruct (db_create_transaction db idv _ (VStr seller) VNone s1) as [[n|e] s2];
    reflexivity.
Qed.

Lemma buyer_sign_transaction_open {S : Type} (db : Database S) tid sig s s1 row b d sigs :
  db_get_transaction db (VInt tid) s = (Returns (Some row), s1) ->
  py_get row "buyer_signed" VNone = Returns b -> truthy b = false ->
  py_getitem row "protected_document" = Returns (VDict d) ->
  dict_lookup d "signatures" = Some (VDict sigs) ->
  buyer_sign_transaction db tid sig s =
    match db_update_transaction_buyer_signature db tid
            (with_buyer_slot d sigs (str_dict sig)) s1 with
    | (Returns true, s2) =>
        (Body 200 (VDict [("transaction_id", VInt tid);
                          ("message", VStr "Buyer signature added successfully")]%string),
         s2)
    | (Returns false, s2) => (HTTPException 500 FailedToUpdateTransaction, s2)
    | (Raises e, s2) => (HTTPException 500 (FailedToAddBuyerSignature e), s2)
    end.
Proof.
  intros Hget Hb Hbt Hdoc Hsigs.
  assert (Hrow : truthy row = true).
  { unfold py_getitem in Hdoc. destruct row as [| | | | |[|kv r]]; try discriminate.
    reflexivity. }
  unfold buyer_sign_transaction, endpoint, sbind, lift, sret.
  rewrite Hget, Hrow. cbn [negb]. rewrite Hb, Hbt, Hdoc.
  unfold py_getitem at 1. rewrite Hsigs. cbn [py_setitem].
  unfold with_buyer_slot.
  destruct (db_update_transaction_buyer_signature db tid _ s1) as [[[|]|e] s2]; reflexivity.
Qed.

End Endpoints.

(** X18. A plaintext that [protect] accepts may carry an [id] that is
    falsy ([0], the empty string, [None], [False]): [protect] returns a
    document for it, and [create_transaction] answers that document
    with 400 "Protected document missing transaction_id" without
    touching the database, whatever the database holds. *)
Theorem create_transaction_refuses_falsy_id (P : Primitives) (L : PrimitiveLaws P) :
  forall T seller buyer km store recipients groups server w idv,
    protect_ready T seller buyer km store recipients ->
    dict_lookup T "id" = Some idv -> truthy idv = false ->
    exists d w',
      protect T seller buyer km store recipients groups server w = (Returns (VDict d), w') /\
      forall (S : Type) (db : Database S) (s : S),
        create_transaction db d s = (HTTPException 400 MissingTransactionId, s).
Proof.
  intros T seller buyer km store recipients groups server w idv Hready Hid Ht.
  destruct (protect_ready_run T seller buyer km store recipients groups server w Hready)
    as [sk [idv' [wk [gwk [w' [_ [Hid' [Hrun _]]]]]]]].
  rewrite Hid in Hid'. inversion Hid'; subst idv'.
  eexists. exists w'. split; [exact Hrun|].
  intros S db s. apply (create_transaction_falsy db _ idv); [reflexivity | exact Ht].
Qed.

Lemma create_transaction_refuses_falsy_id_witness :
  exists d w',
    @protect reference (dict_set Demo.transaction "id" (VInt 0))
      Demo.seller_co Demo.buyer_co Demo.key_manager Demo.public_key_store
      None None Demo.server Demo.boot = (Returns (VDict d), w') /\
    forall (S : Type) (db : Database S) (s : S),
      create_transaction db d s = (HTTPException 400 MissingTransactionId, s).
Proof.
  apply (create_transaction_refuses_falsy_id reference reference_laws
           (dict_set Demo.transaction "id" (VInt 0)) Demo.seller_co Demo.buyer_co
           Demo.key_manager Demo.public_key_store None None Demo.server Demo.boot (VInt 0)).
  - destruct DemoFacts.ready_plain as [_ H]. split; [|exact H].
    split; [|split; reflexivity].
    intros f Hf. simpl in Hf.
    repeat (destruct Hf as [<-|Hf]; [reflexivity|]). destruct Hf.
  - reflexivity.
  - reflexivity.
Defined.

(** X19. For a plaintext [protect] accepts with a truthy [id] that the
    database does not hold yet, [create_transaction] passes to
    [db.create_transaction] the plaintext's [id], the document as
    [protect] returned it, the seller's name as [seller] and [None] as
    [buyer] (the buyer is known to [protect] but its slot in the
    signatures is still [None]); it answers 201 with the row id, or 500
    if the insertion raises. *)
Theorem create_transaction_files_under_seller (P : Primitives) (L : PrimitiveLaws P) :
  forall T seller buyer km store recipients groups server w idv
         (S : Type) (db : Database S) s s1 existing,
    protect_ready T seller buyer km store recipients ->
    dict_lookup T "id" = Some idv -> truthy idv = true ->
    db_get_transaction db idv s = (Returns existing, s1) ->
    row_present existing = false ->
    exists d w',
      protect T seller buyer km store recipients groups server w = (Returns (VDict d), w') /\
      create_transaction db d s =
        match db_create_transaction db idv (VDict d) (VStr seller) VNone s1 with
        | (Returns db_id, s2) =>
            (Body 201 (VDict [("id", VInt db_id);
                              ("transaction_id", idv);
                              ("message", VStr "Transaction stored successfully")]%string),
             s2)
        | (Raises e, s2) => (HTTPException 500 (FailedToStoreTransaction e), s2)
        end.
Proof.
  intros T seller buyer km store recipients groups server w idv S db s s1 existing
         Hready Hid Ht Hget Hnew.
  destruct (protect_ready_run T seller buyer km store recipients groups server w Hready)
    as [sk [idv' [wk [gwk [w' [_ [Hid' [Hrun _]]]]]]]].
  rewrite Hid in Hid'. inversion Hid'; subst idv'.
  eexists. exists w'. split; [exact Hrun|].
  eapply create_transaction_document; eauto. reflexivity.
Qed.

Lemma create_transaction_files_under_seller_witness :
  exists d w',
    @protect reference Demo.transaction
      Demo.seller_co Demo.buyer_co Demo.key_manager Demo.public_key_store
      None None Demo.server Demo.boot = (Returns (VDict d), w') /\
    create_transaction empty_database d tt =
      (Body 201 (VDict [("id", VInt 1);
                        ("transaction_id", VInt 123);
                        ("message", VStr "Transaction stored successfully")]%string), tt).
Proof.
  exact (create_transaction_files_under_seller reference reference_laws
           Demo.transaction Demo.seller_co Demo.buyer_co
           Demo.key_manager Demo.public_key_store None None Demo.server Demo.boot
           (VInt 123) unit empty_database tt tt None
           DemoFacts.ready_plain eq_refl eq_refl eq_refl eq_refl).
Defined.

(** X20. When the buyer's client runs [buyer_sign] on the document a row
    holds and the row is not yet marked as signed, the entry it uploads
    ([signed_doc["signatures"]["buyer"]], a dictionary of strings) makes
    [buyer_sign_transaction] hand to
    [db.update_transaction_buyer_signature] exactly the document
    [buyer_sign] returned on the client; the answer is 200, or 500 when
    the update reports no row or raises. *)
Theorem buyer_sign_transaction_stores_the_signed_document (P : Primitives) :
  forall (S : Type) (db : Database S) tid s s1 row b d buyer km doc2,
    db_get_transaction db (VInt tid) s = (Returns (Some row), s1) ->
    py_get row "buyer_signed" VNone = Returns b -> truthy b = false ->
    py_getitem row "protected_document" = Returns (VDict d) ->
    buyer_sign (VDict d) buyer km = Returns doc2 ->
    exists buyer_signature,
      (x <- py_getitem doc2 "signatures" ;; py_getitem x "buyer")%out
        = Returns (str_dict buyer_signature) /\
      buyer_sign_transaction db tid buyer_signature s =
        match db_update_transaction_buyer_signature db tid doc2 s1 with
        | (Returns true, s2) =>
            (Body 200
               (VDict [("transaction_id", VInt tid);
                       ("message", VStr "Buyer signature added successfully")]%string),
             s2)
        | (Returns false, s2) => (HTTPException 500 FailedToUpdateTransaction, s2)
        | (Raises e, s2) => (HTTPException 500 (FailedToAddBuyerSignature e), s2)
        end.
Proof.
  intros S db tid s s1 row b d buyer km doc2 Hget Hb Hbt Hdoc H.
  apply (buyer_sign_returns_iff P) in H.
  destruct H as [d0 [sigs [h [tx_hash [sk [Hd [_ [_ [Hs [_ ->]]]]]]]]]].
  inversion Hd; subst d0.
  exists [("company", buyer); ("signature", b64encode (ed25519_sign sk tx_hash))]%string.
  split.
  - unfold with_buyer_slot, py_getitem. rewrite dict_lookup_set_eq. cbn [obind].
    rewrite dict_lookup_set_eq. reflexivity.
  - rewrite (buyer_sign_transaction_open db tid _ s s1 row b d sigs Hget Hb Hbt Hdoc Hs).
    reflexivity.
Qed.

Lemma buyer_sign_transaction_stores_the_signed_document_witness :
  exists doc2,
    @buyer_sign reference (VDict (Demo.protected_fields None)) Demo.buyer_co
      Demo.key_manager = Returns doc2 /\
    exists buyer_signature,
      (x <- py_getitem doc2 "signatures" ;; py_getitem x "buyer")%out
        = Returns (str_dict buyer_signature) /\
      buyer_sign_transaction
        (single_row_database 123 (VDict (Demo.protected_fields None))) 123
        buyer_signature None
      = (Body 200 (VDict [("transaction_id", VInt 123);
                          ("message", VStr "Buyer signature added successfully")]%string),
         Some doc2).
Proof.
  assert (E : exists doc2,
            @buyer_sign reference (VDict (Demo.protected_fields None)) Demo.buyer_co
              Demo.key_manager = Returns doc2)
    by (vm_compute; eexists; reflexivity).
  destruct E as [doc2 E]. exists doc2. split; [exact E|].
  exact (buyer_sign_transaction_stores_the_signed_document reference
           (option value)
           (single_row_database 123 (VDict (Demo.protected_fields None)))
           123 None None
           (VDict [("transaction_id", VInt 123);
                   ("protected_document", VDict (Demo.protected_fields None));
                   ("buyer_signed", VBool false)]%string)
           (VBool false) (Demo.protected_fields None) Demo.buyer_co Demo.key_manager doc2
           eq_refl eq_refl eq_refl eq_refl E).
Defined.
